(** * run_crawl_docs: a shallow embedding of [scripts/run_crawl_docs.py]

    The script crawls one web site breadth-first, starting from a URL,
    and writes one Markdown file per fetched page.  This development
    embeds its four functions ([_sanitize_filename], [_extract_title],
    [_get_markdown], [crawl_site]) and proves the properties its
    specification states about them.

    Conventions of the embedding.
    - A Python [str] is a list of Unicode code points ([list N]).
    - A Python [set] is a [gset], a [dict] a [gmap], a [deque] a list
      whose head is the left end.
    - The collaborators of the script (the fetch primitive
      [AsyncWebCrawler.arun] and [urllib.parse]) are parameters;
      [UrllibParse] gives a model of [urllib.parse] written from
      CPython 3.11 for the closed examples.
    - Effects (directory creation, fetches, printed lines, file writes)
      are recorded, in order, in an event trace carried by the state.
    - The embedding covers the exceptions the script raises itself and
      the [ValueError] that a call of [urllib.parse] may raise, which
      the script lets through; exceptions of the other collaborators
      (the operating system, the browser) are outside the model. *)

From Stdlib Require Import NArith ZArith List String Ascii Lia.
From stdpp Require Import base option list gmap pretty.

Local Open Scope N_scope.

(** ** Python strings *)

Module Py.

(** A code point and a [str]. *)
Abbreviation char := N (only parsing).
Abbreviation str := (list N) (only parsing).

(** An ASCII literal as a [str]. *)
Definition lit (s : string) : str :=
  map N_of_ascii (list_ascii_of_string s).

(** [str.isspace] on one code point, which is also the class [\s] of
    [re] on [str] patterns: [Py_UNICODE_ISSPACE]. *)
Definition isspace (c : char) : bool :=
  ((9 <=? c) && (c <=? 13)) || ((28 <=? c) && (c <=? 32))
  || (c =? 133) || (c =? 160) || (c =? 5760)
  || ((8192 <=? c) && (c <=? 8202))
  || (c =? 8232) || (c =? 8233) || (c =? 8239) || (c =? 8287)
  || (c =? 12288).

(** [s.lstrip(chars)], [s.rstrip(chars)], [s.strip(chars)] with the
    stripped class given as a predicate. *)
Fixpoint lstrip (p : char -> bool) (s : str) : str :=
  match s with
  | [] => []
  | c :: s' => if p c then lstrip p s' else s
  end.

Definition rstrip (p : char -> bool) (s : str) : str :=
  rev (lstrip p (rev s)).

Definition strip (p : char -> bool) (s : str) : str :=
  rstrip p (lstrip p s).

(** [s[:n]] for [n >= 0]. *)
Definition slice_to (n : nat) (s : str) : str := take n s.

(** [s.split(sep)] for a one-character separator: never empty. *)
Fixpoint split (sep : char) (s : str) : list str :=
  match s with
  | [] => [[]]
  | c :: s' =>
      if c =? sep then [] :: split sep s'
      else match split sep s' with
           | [] => [[c]]
           | seg :: segs => (c :: seg) :: segs
           end
  end.

(** [sep.join(l)]. *)
Fixpoint join (sep : str) (l : list str) : str :=
  match l with
  | [] => []
  | [x] => x
  | x :: l' => x ++ sep ++ join sep l'
  end.

(** [l[-1]] of a list of strings; [split] never returns [[]]. *)
Definition last_seg (l : list str) : str := List.last l [].

(** [c in s]. *)
Definition contains (c : char) (s : str) : bool :=
  existsb (N.eqb c) s.

(** [str(n)] for a non-negative integer. *)
Definition str_int (n : nat) : str := lit (pretty n).

(** [s.startswith(p)]. *)
Fixpoint startswith (p s : str) : bool :=
  match p, s with
  | [], _ => true
  | _ :: _, [] => false
  | a :: p', b :: s' => (a =? b) && startswith p' s'
  end.

End Py.

Import Py.

(** ** [_sanitize_filename] *)

(** The character class of the first [re.sub]: backslash, slash, colon,
    star, question mark, double quote, angle brackets and bar, each of
    which is replaced by a dash. *)
Definition forbidden (c : char) : bool :=
  (c =? 92) || (c =? 47) || (c =? 58) || (c =? 42) || (c =? 63)
  || (c =? 34) || (c =? 60) || (c =? 62) || (c =? 124).

Definition sub_forbidden (s : str) : str :=
  map (fun c => if forbidden c then 45 else c) s.

(** The second [re.sub]: every maximal run of whitespace becomes one
    space.  [in_run] tells that the previous character was
    whitespace, so the run's space is already out. *)
Fixpoint sub_ws_from (in_run : bool) (s : str) : str :=
  match s with
  | [] => []
  | c :: s' =>
      if isspace c
      then (if in_run then sub_ws_from true s' else 32 :: sub_ws_from true s')
      else c :: sub_ws_from false s'
  end.

Definition sub_ws (s : str) : str := sub_ws_from false s.

Definition _sanitize_filename (name : str) : str :=
  let name := strip isspace name in
  match name with
  | [] => lit "untitled"
  | _ =>
      let name := sub_forbidden name in
      let name := strip isspace (sub_ws name) in
      slice_to 120 name
  end.


(** ** Exceptions and results *)

Inductive exn : Type :=
  | ValueError (msg : str)
  | AttributeError (msg : str).

Inductive result (A : Type) : Type :=
  | Ok (a : A)
  | Raise (e : exn).

Arguments Ok {A} a.
Arguments Raise {A} e.

(** ** Collaborators *)

(** The six components of [urllib.parse.ParseResult]. *)
Record ParseResult : Type := mkParseResult {
  scheme : str;
  netloc : str;
  path : str;
  params : str;
  query : str;
  fragment : str
}.

(** The three functions the script takes from [urllib.parse], each of
    which returns or raises; [urldefrag u] stands for
    [urldefrag(u).url]. *)
Class Urllib : Type := {
  urlparse : str -> result ParseResult;
  urldefrag : str -> result str;
  urljoin : str -> str -> result str
}.

(** What the proofs below take from the way [urldefrag] is written in
    the library: a URL without a hash sign is returned as it is; a URL
    with one is parsed by [urlparse] and put together again without
    its fragment, so that the result has no hash sign, and so that
    [urldefrag] returns wherever [urlparse] does. *)
Class UrllibLaws `{Urllib} : Prop := {
  urldefrag_plain : forall u, 35 ∉ u -> urldefrag u = Ok u;
  urldefrag_no_fragment : forall u v, urldefrag u = Ok v -> 35 ∉ v;
  urldefrag_parsed :
    forall u p, urlparse u = Ok p -> exists v, urldefrag u = Ok v
}.

(** [result.markdown]: absent, a plain string, or an object with a
    [raw_markdown] attribute. *)
Inductive Markdown : Type :=
  | MdNone
  | MdStr (s : str)
  | MdObject (raw_markdown : option str).

(** The fields of crawl4ai's result object that the script reads.  A
    link record is a dict, of which the script reads the key [href]. *)
Record CrawlResult : Type := mkCrawlResult {
  success : bool;
  error_message : option str;
  url : str;
  html : str;
  metadata : option (gmap str str);
  markdown : Markdown;
  links : option (gmap str (list (gmap str str)))
}.

(** The fetch primitive [crawler.arun]: the state of the outside world
    is threaded through, so that a fetch may depend on what happened
    before. *)
Class Fetcher : Type := {
  World : Type;
  arun : World -> str -> World * CrawlResult
}.

(** ** [_extract_title] *)

(** [sre]'s simple lower-casing, restricted to what a pattern made of
    ASCII letters can meet. *)
Definition ascii_lower (c : char) : char :=
  if (65 <=? c) && (c <=? 90) then c + 32 else c.

(** A literal ASCII pattern character against a subject character under
    [re.IGNORECASE] on [str]: ASCII case is folded, and [i], [k], [s]
    also match the four non-ASCII letters that case-fold to them. *)
Definition ci_literal (p c : char) : bool :=
  (ascii_lower c =? ascii_lower p)
  || ((ascii_lower p =? 105) && ((c =? 304) || (c =? 305)))
  || ((ascii_lower p =? 107) && (c =? 8490))
  || ((ascii_lower p =? 115) && (c =? 383)).

Fixpoint startswith_ci (p s : str) : bool :=
  match p, s with
  | [], _ => true
  | _ :: _, [] => false
  | a :: p', b :: s' => ci_literal a b && startswith_ci p' s'
  end.

(** The part of the pattern after the opening tag name: the rest of the
    tag up to the first closing angle bracket. *)
Fixpoint after_gt (s : str) : option str :=
  match s with
  | [] => None
  | c :: s' => if c =? 62 then Some s' else after_gt s'
  end.

(** The lazy group followed by the closing tag: the shortest text before
    a closing [title] tag, any character allowed ([re.DOTALL]). *)
Fixpoint until_close (s : str) : option str :=
  if startswith_ci (lit "</title>") s then Some []
  else match s with
       | [] => None
       | c :: s' => option_map (cons c) (until_close s')
       end.

(** The pattern anchored at the start of [s]; the result is group 1. *)
Definition match_title_here (s : str) : option str :=
  if startswith_ci (lit "<title") s
  then match after_gt (drop 6 s) with
       | Some s' => until_close s'
       | None => None
       end
  else None.

(** [re.search] of the title pattern with [IGNORECASE | DOTALL]: the
    leftmost match; the result is [match.group(1)]. *)
Fixpoint search_title (s : str) : option str :=
  match match_title_here s with
  | Some g => Some g
  | None => match s with
            | [] => None
            | _ :: s' => search_title s'
            end
  end.

(** [html.unescape(x)] inside [_extract_title].  The parameter named
    [html] hides the module of that name in the function's body, so
    the attribute is looked up on a [str] and the lookup raises. *)
Definition html_unescape_attr (html x : str) : result str :=
  Raise (AttributeError (lit "'str' object has no attribute 'unescape'")).

Definition is_slash (c : char) : bool := c =? 47.

Section ExtractTitle.
Context `{Urllib}.

(** [metadata and metadata.get(title)]: the title when it is there and
    not empty. *)
Definition metadata_title (metadata : option (gmap str str)) : option str :=
  match metadata with
  | Some m =>
      match m !! lit "title" with
      | Some (c :: t) => Some (c :: t)
      | _ => None
      end
  | None => None
  end.

(** The last two lines: the last segment of the path without its
    trailing slashes, or the URL itself. *)
Definition title_from_url (url : str) : result str :=
  match urlparse url with
  | Raise e => Raise e
  | Ok parsed =>
      let path := rstrip is_slash (path parsed) in
      match last_seg (split 47 path) with
      | [] => Ok url
      | seg => Ok seg
      end
  end.

Definition _extract_title
    (metadata : option (gmap str str)) (html url : str) : result str :=
  match metadata_title metadata with
  | Some title => Ok title
  | None =>
      match (match html with [] => None | _ => search_title html end) with
      | Some group1 =>
          match html_unescape_attr html group1 with
          | Raise e => Raise e
          | Ok title =>
              match strip isspace (sub_ws title) with
              | [] => title_from_url url
              | title => Ok title
              end
          end
      | None => title_from_url url
      end
  end.

End ExtractTitle.

(** ** [_get_markdown] *)

Definition _get_markdown (result : CrawlResult) : str :=
  match markdown result with
  | MdNone => []
  | MdStr s => s
  | MdObject raw => default [] raw
  end.

(** ** [crawl_site] *)

(** What the run does to the outside, in order. *)
Inductive Event : Type :=
  | Makedirs (dir : str)
  | Fetch (url : str)
  | Print (line : str)
  | Write (path : str) (content : str).

(** [os.path.join(a, b)] of [posixpath]. *)
Definition os_path_join (a b : str) : str :=
  if startswith (lit "/") b then b
  else match rev a with
       | [] => a ++ b
       | c :: _ => if is_slash c then a ++ b else a ++ lit "/" ++ b
       end.

(** An optional string inside an f-string. *)
Definition format_opt (o : option str) : str :=
  match o with
  | Some s => s
  | None => lit "None"
  end.

Definition skip_line (current : str) (error_message : option str) : str :=
  lit "Skip (failed): " ++ current ++ lit " -> " ++ format_opt error_message.

(** Lines 78 and 80: the file name for the [count]-th earlier use of
    [base_name]. *)
Definition make_filename (base_name : str) (count : nat) : str :=
  match count with
  | O => base_name ++ lit ".md"
  | _ => base_name ++ lit "-" ++ str_int (count + 1) ++ lit ".md"
  end.

Definition is_http (s : str) : bool :=
  bool_decide (s = lit "http") || bool_decide (s = lit "https").

Section Crawl.
Context `{Urllib} `{Fetcher}.

(** The local variables of [crawl_site] that the loop changes, the
    outside world, and the trace of effects so far. *)
Record State : Type := mkState {
  seen : gset str;
  queue : list str;
  used_names : gmap str nat;
  world : World;
  trace : list Event
}.

(** [result.links.get(internal, []) if result.links else []]. *)
Definition internal_links (result : CrawlResult) : list (gmap str str) :=
  match links result with
  | Some m => if decide (m = ∅) then [] else default [] (m !! lit "internal")
  | None => []
  end.

(** One turn of the [for link in internal_links] loop: the frontier
    after the link, or the exception that one of the three calls of
    [urllib.parse] raises. *)
Definition visit_link (base_netloc result_url : str) (seen : gset str)
    (queue : list str) (link : gmap str str) : result (list str) :=
  match link !! lit "href" with
  | None | Some [] => Ok queue
  | Some href =>
      match urljoin result_url href with
      | Raise e => Raise e
      | Ok abs_url =>
          match urldefrag abs_url with
          | Raise e => Raise e
          | Ok abs_url =>
              match urlparse abs_url with
              | Raise e => Raise e
              | Ok parsed =>
                  if negb (is_http (scheme parsed)) then Ok queue
                  else if negb (bool_decide (netloc parsed = base_netloc))
                  then Ok queue
                  else if bool_decide (abs_url ∉ seen)
                  then Ok (queue ++ [abs_url])
                  else Ok queue
              end
          end
      end
  end.

(** The whole [for] loop: the frontier when the loop is left, and the
    exception if it is left by one. *)
Fixpoint visit_links (base_netloc result_url : str) (seen : gset str)
    (queue : list str) (ls : list (gmap str str)) : list str * option exn :=
  match ls with
  | [] => (queue, None)
  | link :: ls' =>
      match visit_link base_netloc result_url seen queue link with
      | Raise e => (queue, Some e)
      | Ok queue' => visit_links base_netloc result_url seen queue' ls'
      end
  end.

(** [max_pages is not None and len(seen) >= max_pages]. *)
Definition cap_reached (max_pages : option Z) (st : State) : bool :=
  match max_pages with
  | Some n => (n <=? Z.of_nat (size (seen st)))%Z
  | None => false
  end.

(** How one turn of the [while] loop ends. *)
Inductive Step : Type :=
  | Exit (st : State)
  | Next (st : State)
  | Abort (e : exn) (st : State).

(** One turn of [while queue:], lines 61 to 99. *)
Definition loop_body (base_netloc output_dir : str) (max_pages : option Z)
    (st : State) : Step :=
  match queue st with
  | [] => Exit st
  | head :: rest =>
      if cap_reached max_pages st then Exit st
      else
        match urldefrag head with
        | Raise e =>
            Abort e (mkState (seen st) rest (used_names st) (world st)
                       (trace st))
        | Ok current =>
            if bool_decide (current ∈ seen st)
            then Next (mkState (seen st) rest (used_names st) (world st)
                         (trace st))
            else
              let seen' := seen st ∪ {[current]} in
              let '(w', result) := arun (world st) current in
              let tr := trace st ++ [Fetch current] in
              if negb (success result)
              then Next (mkState seen' rest (used_names st) w'
                           (tr ++ [Print (skip_line current
                                             (error_message result))]))
              else
                let md := _get_markdown result in
                match _extract_title (metadata result) (html result)
                        (url result) with
                | Raise e => Abort e (mkState seen' rest (used_names st) w' tr)
                | Ok title =>
                    let base_name := _sanitize_filename title in
                    let count := default 0%nat (used_names st !! base_name) in
                    let used' :=
                      <[base_name := (count + 1)%nat]> (used_names st) in
                    let filename := make_filename base_name count in
                    let out_path := os_path_join output_dir filename in
                    let tr := tr ++ [Write out_path md] in
                    match visit_links base_netloc (url result) seen' rest
                            (internal_links result) with
                    | (queue', Some e) =>
                        Abort e (mkState seen' queue' used' w' tr)
                    | (queue', None) =>
                        Next (mkState seen' queue' used' w' tr)
                    end
                end
        end
  end.

(** How a call of [crawl_site] ends. *)
Inductive Outcome : Type :=
  | Returned (st : State)
  | Raised (e : exn) (st : State).

(** The [while] loop; [None] when [fuel] turns were not enough. *)
Fixpoint run_loop (fuel : nat) (base_netloc output_dir : str)
    (max_pages : option Z) (st : State) : option Outcome :=
  match fuel with
  | O => None
  | S fuel' =>
      match loop_body base_netloc output_dir max_pages st with
      | Exit st' => Some (Returned st')
      | Abort e st' => Some (Raised e st')
      | Next st' => run_loop fuel' base_netloc output_dir max_pages st'
      end
  end.

(** The state after [n] turns of the loop, whether or not it has
    ended by then: a state that ended stays as it is. *)
Fixpoint after_turns (n : nat) (base_netloc output_dir : str)
    (max_pages : option Z) (st : State) : State :=
  match n with
  | O => st
  | S n' =>
      match loop_body base_netloc output_dir max_pages st with
      | Exit st' => st'
      | Abort _ st' => st'
      | Next st' => after_turns n' base_netloc output_dir max_pages st'
      end
  end.

(** The state when [crawl_site] is entered, and the state at the first
    test of the loop (lines 52 to 58). *)
Definition entry_state (w : World) : State := mkState ∅ [] ∅ w [].

Definition loop_start (w : World) (start_url output_dir : str) : State :=
  mkState ∅ [start_url] ∅ w [Makedirs output_dir].

Definition crawl_site (fuel : nat) (w : World) (start_url output_dir : str)
    (max_pages : option Z) : option Outcome :=
  match urlparse start_url with
  | Raise e => Some (Raised e (entry_state w))
  | Ok parsed_start =>
      let base_netloc := netloc parsed_start in
      match base_netloc with
      | [] =>
          Some (Raised (ValueError (lit "Invalid start URL.")) (entry_state w))
      | _ =>
          run_loop fuel base_netloc output_dir max_pages
            (loop_start w start_url output_dir)
      end
  end.

(** Observations on a trace. *)
Definition fetched (tr : list Event) : list str :=
  omap (fun e => match e with Fetch u => Some u | _ => None end) tr.

Definition written (tr : list Event) : list (str * str) :=
  omap (fun e => match e with Write p c => Some (p, c) | _ => None end) tr.

Definition printed (tr : list Event) : list str :=
  omap (fun e => match e with Print l => Some l | _ => None end) tr.

Definition outcome_state (o : Outcome) : State :=
  match o with
  | Returned st => st
  | Raised _ st => st
  end.

End Crawl.

(** ** More of Python's strings *)

Module PyMore.

Definition nonempty (s : str) : bool :=
  match s with [] => false | _ => true end.

(** [s.split(c, 1)] when [c] is in [s]: the text before the first [c]
    and the text after it. *)
Fixpoint break_at (c : char) (s : str) : option (str * str) :=
  match s with
  | [] => None
  | x :: s' =>
      if x =? c then Some ([], s')
      else match break_at c s' with
           | Some (a, b) => Some (x :: a, b)
           | None => None
           end
  end.

(** [s.split(c, 1)] in general: no second part when [c] is absent. *)
Definition split_once (c : char) (s : str) : str * str :=
  match break_at c s with
  | Some (a, b) => (a, b)
  | None => (s, [])
  end.

(** [s.partition(c)]: the text before the first [c] and, when there is
    a [c], the text after it. *)
Definition partition (c : char) (s : str) : str * option str :=
  match break_at c s with
  | Some (a, b) => (a, Some b)
  | None => (s, None)
  end.

(** [s.rpartition(c)[2]]: the text after the last [c], all of [s] when
    there is none. *)
Definition after_last (c : char) (s : str) : str :=
  match break_at c (rev s) with
  | Some (a, _) => rev a
  | None => s
  end.

End PyMore.

Import PyMore.

(** ** A model of [ipaddress]: which strings are addresses

    Written from [Lib/ipaddress.py] of CPython 3.11: what
    [IPv4Address(s)] and [IPv6Address(s)] accept of a [str]; the
    address itself is not computed. *)

Module Ipaddress.

Definition is_digit (c : char) : bool := (48 <=? c) && (c <=? 57).

Definition is_hex_digit (c : char) : bool :=
  is_digit c || ((65 <=? c) && (c <=? 70)) || ((97 <=? c) && (c <=? 102)).

(** [int(s, 10)] of a string of ASCII digits. *)
Definition decimal (s : str) : N :=
  fold_left (fun acc c => acc * 10 + (c - 48)) s 0.

(** [_parse_octet] returns. *)
Definition valid_octet (s : str) : bool :=
  nonempty s && forallb is_digit s && (length s <=? 3)%nat
  && (bool_decide (s = lit "0") || negb (startswith (lit "0") s))
  && (decimal s <=? 255).

(** [IPv4Address(s)] returns. *)
Definition valid_ipv4 (s : str) : bool :=
  negb (contains 47 s) && nonempty s
  && (length (split 46 s) =? 4)%nat && forallb valid_octet (split 46 s).

(** [_parse_hextet] returns. *)
Definition valid_hextet (s : str) : bool :=
  forallb is_hex_digit s && (length s <=? 4)%nat && nonempty s.

(** The positions from 1 to [len(parts) - 2] at which a part is
    empty. *)
Definition empty_middle_parts (parts : list str) : list nat :=
  List.filter
    (fun i => (1 <=? i)%nat && (i + 1 <? length parts)%nat
              && negb (nonempty (nth i parts [])))
    (seq 0 (length parts)).

(** The last [n] parts. *)
Definition last_parts (n : nat) (parts : list str) : list str :=
  drop (length parts - n) parts.

(** [IPv6Address._ip_int_from_string(s)] returns. *)
Definition valid_ipv6_string (s : str) : bool :=
  nonempty s &&
  let parts := split 58 s in
  (3 <=? length parts)%nat &&
  let suffix := last_seg parts in
  (if contains 46 suffix then valid_ipv4 suffix else true) &&
  let parts :=
    if contains 46 suffix then removelast parts ++ [lit "0"; lit "0"]
    else parts in
  (length parts <=? 9)%nat &&
  match empty_middle_parts parts with
  | [] =>
      (length parts =? 8)%nat && forallb valid_hextet parts
  | [skip_index] =>
      let parts_hi := skip_index in
      let parts_lo := (length parts - skip_index - 1)%nat in
      let first_empty := negb (nonempty (nth 0 parts [])) in
      let last_empty := negb (nonempty (last_seg parts)) in
      let parts_hi' := if first_empty then (parts_hi - 1)%nat else parts_hi in
      let parts_lo' := if last_empty then (parts_lo - 1)%nat else parts_lo in
      negb (first_empty && negb (parts_hi' =? 0)%nat)
      && negb (last_empty && negb (parts_lo' =? 0)%nat)
      && (parts_hi' + parts_lo' <=? 7)%nat
      && forallb valid_hextet (take parts_hi' parts)
      && forallb valid_hextet (last_parts parts_lo' parts)
  | _ => false
  end.

(** [IPv6Address(s)] returns: no slash, a scope id that is neither
    empty nor has a percent sign when there is one, and before it an
    address. *)
Definition valid_ipv6 (s : str) : bool :=
  negb (contains 47 s) &&
  match partition 37 s with
  | (addr, None) => valid_ipv6_string addr
  | (addr, Some scope_id) =>
      nonempty scope_id && negb (contains 37 scope_id)
      && valid_ipv6_string addr
  end.

End Ipaddress.

(** ** What the model needs of [unicodedata] and of [repr]

    From the tables of Unicode 14.0.0, the version of CPython 3.11. *)

Module Unicodedata.

(** The code points above U+007F whose NFKC form holds a slash, a
    question mark, a hash sign, an at sign or a colon, with that
    form. *)
Definition nfkc_with_delimiter : list (char * str) :=
  [(8263, lit "??");
   (8264, lit "?!");
   (8265, lit "!?");
   (8448, lit "a/c");
   (8449, lit "a/s");
   (8453, lit "c/o");
   (8454, lit "c/u");
   (10868, lit "::=");
   (65043, lit ":");
   (65046, lit "?");
   (65109, lit ":");
   (65110, lit "?");
   (65119, lit "#");
   (65131, lit "@");
   (65283, lit "#");
   (65295, lit "/");
   (65306, lit ":");
   (65311, lit "?");
   (65312, lit "@")].

(** NFKC as far as [_checknetloc] can tell.  The function is only
    asked whether the normal form of a string without these five
    characters is another string with one of them.  The five
    characters neither compose with a neighbour nor come out of a
    composition, so the answer is yes exactly when a code point of
    the table is in the string: the code points of the table are
    replaced by their normal forms and the others are left as they
    are, whatever NFKC makes of them. *)
Definition nfkc_delimiters (s : str) : str :=
  flat_map (fun c => match find (fun e => fst e =? c) nfkc_with_delimiter with
                     | Some e => snd e
                     | None => [c]
                     end) s.

(** The code points above U+007F that [str.isprintable] refuses, as
    closed intervals. *)
Definition nonprintable : list (N * N) :=
  [(128, 160); (173, 173); (888, 889); (896, 899); (907, 907); (909, 909);
   (930, 930); (1328, 1328); (1367, 1368); (1419, 1420); (1424, 1424);
   (1480, 1487); (1515, 1518); (1525, 1541); (1564, 1564); (1757, 1757);
   (1806, 1807); (1867, 1868); (1970, 1983); (2043, 2044); (2094, 2095);
   (2111, 2111); (2140, 2141); (2143, 2143); (2155, 2159); (2191, 2199);
   (2274, 2274); (2436, 2436); (2445, 2446); (2449, 2450); (2473, 2473);
   (2481, 2481); (2483, 2485); (2490, 2491); (2501, 2502); (2505, 2506);
   (2511, 2518); (2520, 2523); (2526, 2526); (2532, 2533); (2559, 2560);
   (2564, 2564); (2571, 2574); (2577, 2578); (2601, 2601); (2609, 2609);
   (2612, 2612); (2615, 2615); (2618, 2619); (2621, 2621); (2627, 2630);
   (2633, 2634); (2638, 2640); (2642, 2648); (2653, 2653); (2655, 2661);
   (2679, 2688); (2692, 2692); (2702, 2702); (2706, 2706); (2729, 2729);
   (2737, 2737); (2740, 2740); (2746, 2747); (2758, 2758); (2762, 2762);
   (2766, 2767); (2769, 2783); (2788, 2789); (2802, 2808); (2816, 2816);
   (2820, 2820); (2829, 2830); (2833, 2834); (2857, 2857); (2865, 2865);
   (2868, 2868); (2874, 2875); (2885, 2886); (2889, 2890); (2894, 2900);
   (2904, 2907); (2910, 2910); (2916, 2917); (2936, 2945); (2948, 2948);
   (2955, 2957); (2961, 2961); (2966, 2968); (2971, 2971); (2973, 2973);
   (2976, 2978); (2981, 2983); (2987, 2989); (3002, 3005); (3011, 3013);
   (3017, 3017); (3022, 3023); (3025, 3030); (3032, 3045); (3067, 3071);
   (3085, 3085); (3089, 3089); (3113, 3113); (3130, 3131); (3141, 3141);
   (3145, 3145); (3150, 3156); (3159, 3159); (3163, 3164); (3166, 3167);
   (3172, 3173); (3184, 3190); (3213, 3213); (3217, 3217); (3241, 3241);
   (3252, 3252); (3258, 3259); (3269, 3269); (3273, 3273); (3278, 3284);
   (3287, 3292); (3295, 3295); (3300, 3301); (3312, 3312); (3315, 3327);
   (3341, 3341); (3345, 3345); (3397, 3397); (3401, 3401); (3408, 3411);
   (3428, 3429); (3456, 3456); (3460, 3460); (3479, 3481); (3506, 3506);
   (3516, 3516); (3518, 3519); (3527, 3529); (3531, 3534); (3541, 3541);
   (3543, 3543); (3552, 3557); (3568, 3569); (3573, 3584); (3643, 3646);
   (3676, 3712); (3715, 3715); (3717, 3717); (3723, 3723); (3748, 3748);
   (3750, 3750); (3774, 3775); (3781, 3781); (3783, 3783); (3790, 3791);
   (3802, 3803); (3808, 3839); (3912, 3912); (3949, 3952); (3992, 3992);
   (4029, 4029); (4045, 4045); (4059, 4095); (4294, 4294); (4296, 4300);
   (4302, 4303); (4681, 4681); (4686, 4687); (4695, 4695); (4697, 4697);
   (4702, 4703); (4745, 4745); (4750, 4751); (4785, 4785); (4790, 4791);
   (4799, 4799); (4801, 4801); (4806, 4807); (4823, 4823); (4881, 4881);
   (4886, 4887); (4955, 4956); (4989, 4991); (5018, 5023); (5110, 5111);
   (5118, 5119); (5760, 5760); (5789, 5791); (5881, 5887); (5910, 5918);
   (5943, 5951); (5972, 5983); (5997, 5997); (6001, 6001); (6004, 6015);
   (6110, 6111); (6122, 6127); (6138, 6143); (6158, 6158); (6170, 6175);
   (6265, 6271); (6315, 6319); (6390, 6399); (6431, 6431); (6444, 6447);
   (6460, 6463); (6465, 6467); (6510, 6511); (6517, 6527); (6572, 6575);
   (6602, 6607); (6619, 6621); (6684, 6685); (6751, 6751); (6781, 6782);
   (6794, 6799); (6810, 6815); (6830, 6831); (6863, 6911); (6989, 6991);
   (7039, 7039); (7156, 7163); (7224, 7226); (7242, 7244); (7305, 7311);
   (7355, 7356); (7368, 7375); (7419, 7423); (7958, 7959); (7966, 7967);
   (8006, 8007); (8014, 8015); (8024, 8024); (8026, 8026); (8028, 8028);
   (8030, 8030); (8062, 8063); (8117, 8117); (8133, 8133); (8148, 8149);
   (8156, 8156); (8176, 8177); (8181, 8181); (8191, 8207); (8232, 8239);
   (8287, 8303); (8306, 8307); (8335, 8335); (8349, 8351); (8385, 8399);
   (8433, 8447); (8588, 8591); (9255, 9279); (9291, 9311); (11124, 11125);
   (11158, 11158); (11508, 11512); (11558, 11558); (11560, 11564);
   (11566, 11567); (11624, 11630); (11633, 11646); (11671, 11679);
   (11687, 11687); (11695, 11695); (11703, 11703); (11711, 11711);
   (11719, 11719); (11727, 11727); (11735, 11735); (11743, 11743);
   (11870, 11903); (11930, 11930); (12020, 12031); (12246, 12271);
   (12284, 12288); (12352, 12352); (12439, 12440); (12544, 12548);
   (12592, 12592); (12687, 12687); (12772, 12783); (12831, 12831);
   (42125, 42127); (42183, 42191); (42540, 42559); (42744, 42751);
   (42955, 42959); (42962, 42962); (42964, 42964); (42970, 42993);
   (43053, 43055); (43066, 43071); (43128, 43135); (43206, 43213);
   (43226, 43231); (43348, 43358); (43389, 43391); (43470, 43470);
   (43482, 43485); (43519, 43519); (43575, 43583); (43598, 43599);
   (43610, 43611); (43715, 43738); (43767, 43776); (43783, 43784);
   (43791, 43792); (43799, 43807); (43815, 43815); (43823, 43823);
   (43884, 43887); (44014, 44015); (44026, 44031); (55204, 55215);
   (55239, 55242); (55292, 63743); (64110, 64111); (64218, 64255);
   (64263, 64274); (64280, 64284); (64311, 64311); (64317, 64317);
   (64319, 64319); (64322, 64322); (64325, 64325); (64451, 64466);
   (64912, 64913); (64968, 64974); (64976, 65007); (65050, 65055);
   (65107, 65107); (65127, 65127); (65132, 65135); (65141, 65141);
   (65277, 65280); (65471, 65473); (65480, 65481); (65488, 65489);
   (65496, 65497); (65501, 65503); (65511, 65511); (65519, 65531);
   (65534, 65535); (65548, 65548); (65575, 65575); (65595, 65595);
   (65598, 65598); (65614, 65615); (65630, 65663); (65787, 65791);
   (65795, 65798); (65844, 65846); (65935, 65935); (65949, 65951);
   (65953, 65999); (66046, 66175); (66205, 66207); (66257, 66271);
   (66300, 66303); (66340, 66348); (66379, 66383); (66427, 66431);
   (66462, 66462); (66500, 66503); (66518, 66559); (66718, 66719);
   (66730, 66735); (66772, 66775); (66812, 66815); (66856, 66863);
   (66916, 66926); (66939, 66939); (66955, 66955); (66963, 66963);
   (66966, 66966); (66978, 66978); (66994, 66994); (67002, 67002);
   (67005, 67071); (67383, 67391); (67414, 67423); (67432, 67455);
   (67462, 67462); (67505, 67505); (67515, 67583); (67590, 67591);
   (67593, 67593); (67638, 67638); (67641, 67643); (67645, 67646);
   (67670, 67670); (67743, 67750); (67760, 67807); (67827, 67827);
   (67830, 67834); (67868, 67870); (67898, 67902); (67904, 67967);
   (68024, 68027); (68048, 68049); (68100, 68100); (68103, 68107);
   (68116, 68116); (68120, 68120); (68150, 68151); (68155, 68158);
   (68169, 68175); (68185, 68191); (68256, 68287); (68327, 68330);
   (68343, 68351); (68406, 68408); (68438, 68439); (68467, 68471);
   (68498, 68504); (68509, 68520); (68528, 68607); (68681, 68735);
   (68787, 68799); (68851, 68857); (68904, 68911); (68922, 69215);
   (69247, 69247); (69290, 69290); (69294, 69295); (69298, 69375);
   (69416, 69423); (69466, 69487); (69514, 69551); (69580, 69599);
   (69623, 69631); (69710, 69713); (69750, 69758); (69821, 69821);
   (69827, 69839); (69865, 69871); (69882, 69887); (69941, 69941);
   (69960, 69967); (70007, 70015); (70112, 70112); (70133, 70143);
   (70162, 70162); (70207, 70271); (70279, 70279); (70281, 70281);
   (70286, 70286); (70302, 70302); (70314, 70319); (70379, 70383);
   (70394, 70399); (70404, 70404); (70413, 70414); (70417, 70418);
   (70441, 70441); (70449, 70449); (70452, 70452); (70458, 70458);
   (70469, 70470); (70473, 70474); (70478, 70479); (70481, 70486);
   (70488, 70492); (70500, 70501); (70509, 70511); (70517, 70655);
   (70748, 70748); (70754, 70783); (70856, 70863); (70874, 71039);
   (71094, 71095); (71134, 71167); (71237, 71247); (71258, 71263);
   (71277, 71295); (71354, 71359); (71370, 71423); (71451, 71452);
   (71468, 71471); (71495, 71679); (71740, 71839); (71923, 71934);
   (71943, 71944); (71946, 71947); (71956, 71956); (71959, 71959);
   (71990, 71990); (71993, 71994); (72007, 72015); (72026, 72095);
   (72104, 72105); (72152, 72153); (72165, 72191); (72264, 72271);
   (72355, 72367); (72441, 72703); (72713, 72713); (72759, 72759);
   (72774, 72783); (72813, 72815); (72848, 72849); (72872, 72872);
   (72887, 72959); (72967, 72967); (72970, 72970); (73015, 73017);
   (73019, 73019); (73022, 73022); (73032, 73039); (73050, 73055);
   (73062, 73062); (73065, 73065); (73103, 73103); (73106, 73106);
   (73113, 73119); (73130, 73439); (73465, 73647); (73649, 73663);
   (73714, 73726); (74650, 74751); (74863, 74863); (74869, 74879);
   (75076, 77711); (77811, 77823); (78895, 82943); (83527, 92159);
   (92729, 92735); (92767, 92767); (92778, 92781); (92863, 92863);
   (92874, 92879); (92910, 92911); (92918, 92927); (92998, 93007);
   (93018, 93018); (93026, 93026); (93048, 93052); (93072, 93759);
   (93851, 93951); (94027, 94030); (94088, 94094); (94112, 94175);
   (94181, 94191); (94194, 94207); (100344, 100351); (101590, 101631);
   (101641, 110575); (110580, 110580); (110588, 110588); (110591, 110591);
   (110883, 110927); (110931, 110947); (110952, 110959); (111356, 113663);
   (113771, 113775); (113789, 113791); (113801, 113807); (113818, 113819);
   (113824, 118527); (118574, 118575); (118599, 118607); (118724, 118783);
   (119030, 119039); (119079, 119080); (119155, 119162); (119275, 119295);
   (119366, 119519); (119540, 119551); (119639, 119647); (119673, 119807);
   (119893, 119893); (119965, 119965); (119968, 119969); (119971, 119972);
   (119975, 119976); (119981, 119981); (119994, 119994); (119996, 119996);
   (120004, 120004); (120070, 120070); (120075, 120076); (120085, 120085);
   (120093, 120093); (120122, 120122); (120127, 120127); (120133, 120133);
   (120135, 120137); (120145, 120145); (120486, 120487); (120780, 120781);
   (121484, 121498); (121504, 121504); (121520, 122623); (122655, 122879);
   (122887, 122887); (122905, 122906); (122914, 122914); (122917, 122917);
   (122923, 123135); (123181, 123183); (123198, 123199); (123210, 123213);
   (123216, 123535); (123567, 123583); (123642, 123646); (123648, 124895);
   (124903, 124903); (124908, 124908); (124911, 124911); (124927, 124927);
   (125125, 125126); (125143, 125183); (125260, 125263); (125274, 125277);
   (125280, 126064); (126133, 126208); (126270, 126463); (126468, 126468);
   (126496, 126496); (126499, 126499); (126501, 126502); (126504, 126504);
   (126515, 126515); (126520, 126520); (126522, 126522); (126524, 126529);
   (126531, 126534); (126536, 126536); (126538, 126538); (126540, 126540);
   (126544, 126544); (126547, 126547); (126549, 126550); (126552, 126552);
   (126554, 126554); (126556, 126556); (126558, 126558); (126560, 126560);
   (126563, 126563); (126565, 126566); (126571, 126571); (126579, 126579);
   (126584, 126584); (126589, 126589); (126591, 126591); (126602, 126602);
   (126620, 126624); (126628, 126628); (126634, 126634); (126652, 126703);
   (126706, 126975); (127020, 127023); (127124, 127135); (127151, 127152);
   (127168, 127168); (127184, 127184); (127222, 127231); (127406, 127461);
   (127491, 127503); (127548, 127551); (127561, 127567); (127570, 127583);
   (127590, 127743); (128728, 128732); (128749, 128751); (128765, 128767);
   (128884, 128895); (128985, 128991); (129004, 129007); (129009, 129023);
   (129036, 129039); (129096, 129103); (129114, 129119); (129160, 129167);
   (129198, 129199); (129202, 129279); (129620, 129631); (129646, 129647);
   (129653, 129655); (129661, 129663); (129671, 129679); (129709, 129711);
   (129723, 129727); (129734, 129743); (129754, 129759); (129768, 129775);
   (129783, 129791); (129939, 129939); (129995, 130031); (130042, 131071);
   (173792, 173823); (177977, 177983); (178206, 178207); (183970, 183983);
   (191457, 194559); (195102, 196607); (201547, 917759); (918000, 1114111)].

Definition isprintable (c : char) : bool :=
  if c <? 127 then 32 <=? c
  else if c <? 128 then false
  else negb (existsb (fun r => (fst r <=? c) && (c <=? snd r)) nonprintable).

(** [width] hexadecimal digits of [n], in lower case. *)
Definition hex_digit (n : N) : char := if n <? 10 then 48 + n else 87 + n.

Fixpoint hex (width : nat) (n : N) : str :=
  match width with
  | O => []
  | S w => hex w (n / 16) ++ [hex_digit (n mod 16)]
  end.

(** [repr] of a [str]: double quotes when the string has a single
    quote and no double quote, single quotes otherwise; the quote and
    the backslash are escaped, and so is what does not print. *)
Definition repr_char (quote c : char) : str :=
  if (c =? quote) || (c =? 92) then [92; c]
  else if c =? 9 then lit "\t"
  else if c =? 10 then lit "\n"
  else if c =? 13 then lit "\r"
  else if isprintable c then [c]
  else if c <=? 255 then lit "\x" ++ hex 2 c
  else if c <=? 65535 then lit "\u" ++ hex 4 c
  else lit "\U" ++ hex 8 c.

Definition repr (s : str) : str :=
  let quote := if contains 39 s && negb (contains 34 s) then 34 else 39 in
  quote :: flat_map (repr_char quote) s ++ [quote].

End Unicodedata.

(** ** A model of [urllib.parse]

    Written from [Lib/urllib/parse.py] of CPython 3.11, for [str]
    arguments.  Two things that the library takes from Unicode tables
    are parameters of the model: the normal form NFKC of a string,
    which [_checknetloc] compares a network location that is not ASCII
    with, and [repr], which appears in one error message.
    [Unicodedata] above has them for CPython 3.11. *)

Module UrllibParse.

Section Tables.
Variable nfkc : str -> str.
Variable repr : str -> str.

Definition uses_relative : list str :=
  [] :: map lit ["ftp"; "http"; "gopher"; "nntp"; "imap"; "wais"; "file";
                 "https"; "shttp"; "mms"; "prospero"; "rtsp"; "rtspu";
                 "sftp"; "svn"; "svn+ssh"; "ws"; "wss"]%string.

Definition uses_netloc : list str :=
  [] :: map lit ["ftp"; "http"; "gopher"; "nntp"; "telnet"; "imap"; "wais";
                 "file"; "mms"; "https"; "shttp"; "snews"; "prospero";
                 "rtsp"; "rtspu"; "rsync"; "svn"; "svn+ssh"; "sftp"; "nfs";
                 "git"; "git+ssh"; "ws"; "wss"]%string.

Definition uses_params : list str :=
  [] :: map lit ["ftp"; "hdl"; "prospero"; "http"; "imap"; "https"; "shttp";
                 "rtsp"; "rtspu"; "sip"; "sips"; "mms"; "sftp"; "tel"]%string.

Definition scheme_chars : str :=
  lit "abcdefghijklmnopqrstuvwxyzABCDEFGHIJKLMNOPQRSTUVWXYZ0123456789+-.".

(** [_WHATWG_C0_CONTROL_OR_SPACE] and [_UNSAFE_URL_BYTES_TO_REMOVE]. *)
Definition is_c0_or_space (c : char) : bool := c <=? 32.
Definition is_unsafe (c : char) : bool := (c =? 9) || (c =? 13) || (c =? 10).

Definition is_ascii_alpha (c : char) : bool :=
  ((65 <=? c) && (c <=? 90)) || ((97 <=? c) && (c <=? 122)).

Definition mem (s : str) (l : list str) : bool := bool_decide (s ∈ l).

Definition is_netloc_delim (c : char) : bool :=
  (c =? 47) || (c =? 63) || (c =? 35).

(** [_splitnetloc(url, 2)] on [url[2:]]: the text before the first
    slash, question mark or hash, and the rest from there on. *)
Fixpoint splitnetloc (s : str) : str * str :=
  match s with
  | [] => ([], [])
  | c :: s' =>
      if is_netloc_delim c then ([], s)
      else let '(a, b) := splitnetloc s' in (c :: a, b)
  end.

(** The scheme test of [urlsplit]: a colon not in first place, before
    it an ASCII letter followed by scheme characters only. *)
Definition split_scheme (default url : str) : str * str :=
  match break_at 58 url with
  | Some (c :: pre, post) =>
      if is_ascii_alpha c && forallb (fun x => contains x scheme_chars) (c :: pre)
      then (map ascii_lower (c :: pre), post)
      else (default, url)
  | _ => (default, url)
  end.

Definition invalid_ipv6_url : exn := ValueError (lit "Invalid IPv6 URL").

(** The pattern of an IPvFuture address matches: the letter v, hex
    digits, a dot and at least one more character, none of these last
    a newline. *)
Definition ipvfuture (hostname : str) : bool :=
  match hostname with
  | [] => false
  | c :: s =>
      (c =? 118) &&
      let rest := lstrip Ipaddress.is_hex_digit s in
      (length rest <? length s)%nat &&
      match rest with
      | d :: t => (d =? 46) && nonempty t && negb (contains 10 t)
      | [] => false
      end
  end.

(** [_check_bracketed_host(hostname)]. *)
Definition check_bracketed_host (hostname : str) : result unit :=
  if startswith (lit "v") hostname
  then if ipvfuture hostname then Ok tt
       else Raise (ValueError (lit "IPvFuture address is invalid"))
  else if Ipaddress.valid_ipv4 hostname
  then Raise (ValueError (lit "An IPv4 address cannot be in brackets"))
  else if Ipaddress.valid_ipv6 hostname then Ok tt
  else Raise (ValueError
                (repr hostname
                 ++ lit " does not appear to be an IPv4 or IPv6 address")).

(** [_check_bracketed_netloc(netloc)]. *)
Definition check_bracketed_netloc (netloc : str) : result unit :=
  let hostname_and_port := after_last 64 netloc in
  match partition 91 hostname_and_port with
  | (before_bracket, Some bracketed) =>
      if nonempty before_bracket then Raise invalid_ipv6_url
      else
        let '(hostname, port) := partition 93 bracketed in
        let port := default [] port in
        if nonempty port && negb (startswith (lit ":") port)
        then Raise invalid_ipv6_url
        else check_bracketed_host hostname
  | (_, None) =>
      check_bracketed_host (fst (partition 58 hostname_and_port))
  end.

(** [_checknetloc(netloc)]. *)
Definition checknetloc (netloc : str) : result unit :=
  if negb (nonempty netloc) || forallb (fun c => c <? 128) netloc then Ok tt
  else
    let n := List.filter (fun c => negb (contains c (lit "@:#?"))) netloc in
    let netloc2 := nfkc n in
    if bool_decide (n = netloc2) then Ok tt
    else if existsb (fun c => contains c netloc2) (lit "/?#@:")
    then Raise (ValueError
                  (lit "netloc '" ++ netloc
                   ++ lit "' contains invalid characters under NFKC normalization"))
    else Ok tt.

(** The checks that [urlsplit] makes of the network location it has
    found, in their order but for the last, which comes after the
    query is split off, where nothing can raise in between. *)
Definition check_netloc (netloc : str) : result unit :=
  if (contains 91 netloc && negb (contains 93 netloc))
     || (contains 93 netloc && negb (contains 91 netloc))
  then Raise invalid_ipv6_url
  else
    match (if contains 91 netloc && contains 93 netloc
           then check_bracketed_netloc netloc else Ok tt) with
    | Raise e => Raise e
    | Ok _ => checknetloc netloc
    end.

(** [urlsplit(url, scheme)]: scheme, netloc, path, query, fragment. *)
Definition urlsplit (url scheme : str)
    : result (str * str * str * str * str) :=
  let url := lstrip is_c0_or_space url in
  let scheme := strip is_c0_or_space scheme in
  let url := List.filter (fun c => negb (is_unsafe c)) url in
  let scheme := List.filter (fun c => negb (is_unsafe c)) scheme in
  let '(scheme, url) := split_scheme scheme url in
  let '(netloc, url, has_netloc) :=
    if startswith (lit "//") url
    then let '(n, u) := splitnetloc (drop 2 url) in (n, u, true)
    else ([], url, false) in
  match (if has_netloc then check_netloc netloc else checknetloc netloc) with
  | Raise e => Raise e
  | Ok _ =>
      let '(url, fragment) := split_once 35 url in
      let '(url, query) := split_once 63 url in
      Ok (scheme, netloc, url, query, fragment)
  end.

(** [_splitparams(url)], called when a semicolon is in [url]. *)
Definition splitparams (url : str) : str * str :=
  if contains 47 url
  then match break_at 47 (rev url) with
       | Some (a, b) =>
           (* [rev b] is [url[:rfind]], [47 :: rev a] is [url[rfind:]] *)
           match break_at 59 (47 :: rev a) with
           | Some (x, y) => (rev b ++ x, y)
           | None => (url, [])
           end
       | None => (url, [])
       end
  else match break_at 59 url with
       | Some (x, y) => (x, y)
       | None => (removelast url, url)
       end.

Definition urlparse (url scheme : str) : result ParseResult :=
  match urlsplit url scheme with
  | Raise e => Raise e
  | Ok (scheme, netloc, url, query, fragment) =>
      let '(url, params) :=
        if mem scheme uses_params && contains 59 url then splitparams url
        else (url, []) in
      Ok (mkParseResult scheme netloc url params query fragment)
  end.

Definition urlunsplit (scheme netloc url query fragment : str) : str :=
  let url :=
    if nonempty netloc
       || (nonempty scheme && mem scheme uses_netloc
           && negb (startswith (lit "//") url))
    then
      let url := if nonempty url && negb (startswith (lit "/") url)
                 then lit "/" ++ url else url in
      lit "//" ++ netloc ++ url
    else url in
  let url := if nonempty scheme then scheme ++ lit ":" ++ url else url in
  let url := if nonempty query then url ++ lit "?" ++ query else url in
  let url := if nonempty fragment then url ++ lit "#" ++ fragment else url in
  url.

Definition urlunparse (scheme netloc url params query fragment : str) : str :=
  let url := if nonempty params then url ++ lit ";" ++ params else url in
  urlunsplit scheme netloc url query fragment.

(** [segments[1:-1] = filter(None, segments[1:-1])]. *)
Definition squeeze (segments : list str) : list str :=
  match segments with
  | first :: (_ :: _) as rest =>
      first :: List.filter nonempty (removelast rest) ++ [List.last rest []]
  | _ => segments
  end.

(** The loop over [segments] that resolves dot segments. *)
Definition resolve_step (resolved_path : list str) (seg : str) : list str :=
  if bool_decide (seg = lit "..") then removelast resolved_path
  else if bool_decide (seg = lit ".") then resolved_path
  else resolved_path ++ [seg].

Definition urljoin (base url : str) : result str :=
  match base, url with
  | [], _ => Ok url
  | _, [] => Ok base
  | _, _ =>
      match urlparse base [] with
      | Raise e => Raise e
      | Ok b =>
      match urlparse url (scheme b) with
      | Raise e => Raise e
      | Ok p =>
      if negb (bool_decide (scheme p = scheme b))
         || negb (mem (scheme p) uses_relative)
      then Ok url
      else if mem (scheme p) uses_netloc && nonempty (netloc p)
      then Ok (urlunparse (scheme p) (netloc p) (path p) (params p) (query p)
                 (fragment p))
      else
        let netloc := if mem (scheme p) uses_netloc then netloc b else netloc p in
        if negb (nonempty (path p)) && negb (nonempty (params p))
        then Ok (urlunparse (scheme p) netloc (path b) (params b)
                   (if nonempty (query p) then query p else query b)
                   (fragment p))
        else
          let base_parts := split 47 (path b) in
          let base_parts :=
            if nonempty (last_seg base_parts) then removelast base_parts
            else base_parts in
          let segments :=
            if startswith (lit "/") (path p) then split 47 (path p)
            else squeeze (base_parts ++ split 47 (path p)) in
          let resolved_path := fold_left resolve_step segments [] in
          let resolved_path :=
            if mem (last_seg segments) [lit "."; lit ".."]
            then resolved_path ++ [[]] else resolved_path in
          let joined := join (lit "/") resolved_path in
          Ok (urlunparse (scheme p) netloc
                (if nonempty joined then joined else lit "/")
                (params p) (query p) (fragment p))
      end
      end
  end.

Definition urldefrag (url : str) : result str :=
  if contains 35 url
  then match urlparse url [] with
       | Raise e => Raise e
       | Ok p =>
           Ok (urlunparse (scheme p) (netloc p) (path p) (params p) (query p)
                 [])
       end
  else Ok url.

(** [ParseResult.hostname] before it is put to lower case: the host of
    a network location, without user, password and port. *)
Definition hostinfo_hostname (netloc : str) : str :=
  let hostinfo := after_last 64 netloc in
  match partition 91 hostinfo with
  | (_, Some bracketed) => fst (partition 93 bracketed)
  | (_, None) => fst (partition 58 hostinfo)
  end.

End Tables.

End UrllibParse.

(** The model as an instance of the interface, with the default scheme
    of [urlparse] left empty as the script leaves it. *)
Definition urllib_model (nfkc repr : str -> str) : Urllib :=
  {| urlparse := fun url => UrllibParse.urlparse nfkc repr url [];
     urldefrag := UrllibParse.urldefrag nfkc repr;
     urljoin := UrllibParse.urljoin nfkc repr |}.

(** The model with the tables of CPython 3.11. *)
Definition cpython_urllib : Urllib :=
  urllib_model Unicodedata.nfkc_delimiters Unicodedata.repr.

(** ** Closed sites for the examples

    A site is a table from URL to the result of fetching it; a URL that
    is not in the table fails to load. *)

Definition not_found : CrawlResult :=
  mkCrawlResult false (Some (lit "not found")) [] [] None MdNone None.

Fixpoint lookup_page (u : str) (pages : list (str * CrawlResult)) : CrawlResult :=
  match pages with
  | [] => not_found
  | (u', r) :: pages' =>
      if bool_decide (u = u') then r else lookup_page u pages'
  end.

Definition site_fetcher (pages : list (str * CrawlResult)) : Fetcher :=
  {| World := unit; arun := fun w u => (w, lookup_page u pages) |}.

(** A page that loads: its final URL, the title in its metadata if any,
    its HTML, its Markdown and the [href]s of its internal links. *)
Definition page (u : str) (title : option str) (h md : str)
    (hrefs : list str) : str * CrawlResult :=
  (u, mkCrawlResult true None u h
        (Some (match title with
               | Some t => {[ lit "title" := t ]}
               | None => ∅
               end))
        (MdStr md)
        (Some {[ lit "internal" :=
                   map (fun h => {[ lit "href" := h ]}) hrefs ]})).

(** Three pages; the titles are Home, Home and Home-2. *)
Definition home_site : list (str * CrawlResult) :=
  [ page (lit "https://ex.com/") (Some (lit "Home")) [] (lit "# seed")
      [lit "/a"; lit "/b"];
    page (lit "https://ex.com/a") (Some (lit "Home")) [] (lit "# page a") [];
    page (lit "https://ex.com/b") (Some (lit "Home-2")) [] (lit "# page b") [] ].

(** One page whose title is only in its HTML. *)
Definition title_site : list (str * CrawlResult) :=
  [ page (lit "https://ex.com/") None
      (lit "<html><head><title>Docs</title></head><body></body></html>")
      (lit "# docs") [] ].

(** The seed page of the specification's scenario: a link, the same link
    with a fragment, a link to another host and a mail address. *)
Definition linked_site : list (str * CrawlResult) :=
  [ page (lit "https://ex.com/") (Some (lit "Seed")) [] (lit "# seed")
      [lit "https://ex.com/a"; lit "https://ex.com/a#section";
       lit "https://other.com/b"; lit "mailto:docs@ex.com"];
    page (lit "https://ex.com/a") (Some (lit "A")) [] (lit "# a")
      [lit "https://ex.com/#top"] ].

(** A page in a directory, with relative links of every kind, a link
    to the same host under its port, a link to another host, a mail
    address, an empty link and a link record without [href]. *)
Definition docs_links : list (gmap str str) :=
  map (fun h => {[ lit "href" := h ]})
    [lit "guide/intro.html#setup"; lit "../about"; lit "/a?x=1";
     lit "//ex.com/b"; lit "https://ex.com:443/c"; lit "https://other.com/d";
     lit "mailto:docs@ex.com"; []]
  ++ [ {[ lit "text" := lit "no target" ]} ].

Definition docs_page : CrawlResult :=
  mkCrawlResult true None (lit "https://ex.com/docs/index.html") []
    (Some {[ lit "title" := lit "Docs" ]}) (MdStr (lit "# docs"))
    (Some {[ lit "internal" := docs_links ]}).

Definition docs_site : list (str * CrawlResult) :=
  [ (lit "https://ex.com/docs/index.html", docs_page) ].

(** A page with a link that [urllib.parse] refuses, between two that
    it takes. *)
Definition broken_site : list (str * CrawlResult) :=
  [ page (lit "https://ex.com/") (Some (lit "Seed")) [] (lit "# seed")
      [lit "/a"; lit "http://[::1"; lit "/b"] ].

(** The output directory and the seed URL of the closed runs. *)
Definition out_dir : str := lit "out".
Definition seed_url : str := lit "https://ex.com/".

(** A title of 119 letters, a space and one more letter. *)
Definition long_title : str := repeat 97 119 ++ lit " b".

(** ** Notions used in the statements and proofs *)

(** A string is tidy when none of its characters is forbidden and its
    only whitespace is single spaces, none of them in first place when
    [in_run] is set. *)
Fixpoint tidy_from (in_run : bool) (s : str) : bool :=
  match s with
  | [] => true
  | c :: s' =>
      if isspace c then negb in_run && (c =? 32) && tidy_from true s'
      else negb (forbidden c) && tidy_from false s'
  end.

(** The name that the second to fourth lines of [_sanitize_filename]
    make of a stripped, non-empty title. *)
Definition cleaned (name : str) : str :=
  slice_to 120 (strip isspace (sub_ws (sub_forbidden name))).

(** The last segment of a path that is not empty, if there is one. *)
Definition last_nonempty_segment (path : str) : option str :=
  last (filter (fun seg : str => seg <> []) (split 47 path)).

(** A URL up to its first hash sign: the URL without its fragment. *)
Definition before_hash (u : str) : str := fst (split_once 35 u).

(** The values at the front of a list of results, up to the first
    raise, and that raise. *)
Fixpoint returned_prefix {A : Type} (rs : list (result A)) : list A :=
  match rs with
  | Ok a :: rs' => a :: returned_prefix rs'
  | _ => []
  end.

Fixpoint first_raise {A : Type} (rs : list (result A)) : option exn :=
  match rs with
  | [] => None
  | Ok _ :: rs' => first_raise rs'
  | Raise e :: _ => Some e
  end.

(** Whether [os.path.join] puts a slash after this directory: it does
    unless the directory is empty or ends in one. *)
Definition wants_slash (dir : str) : bool :=
  match last dir with
  | Some c => negb (is_slash c)
  | None => false
  end.

(** The error of line 50, and the [AttributeError] of line 30. *)
Definition invalid_start_url : exn := ValueError (lit "Invalid start URL.").

Definition no_unescape : exn :=
  AttributeError (lit "'str' object has no attribute 'unescape'").

(** The five errors of the model of [urllib.parse]. *)
Definition urllib_error (repr : str -> str) (e : exn) : Prop :=
  e = ValueError (lit "Invalid IPv6 URL") \/
  e = ValueError (lit "IPvFuture address is invalid") \/
  e = ValueError (lit "An IPv4 address cannot be in brackets") \/
  (exists hostname,
      e = ValueError
            (repr hostname
             ++ lit " does not appear to be an IPv4 or IPv6 address")) \/
  (exists netloc,
      e = ValueError
            (lit "netloc '" ++ netloc
             ++ lit "' contains invalid characters under NFKC normalization")).

Section CrawlNotions.
Context `{Urllib} `{Fetcher}.

Definition step_state (s : Step) : State :=
  match s with
  | Exit st => st
  | Next st => st
  | Abort _ st => st
  end.

(** What holds of every state the loop reaches: the fetched URLs are
    exactly the visited ones, each fetched once, and each of them came
    out of [urldefrag]. *)
Definition crawl_inv (st : State) : Prop :=
  NoDup (fetched (trace st)) /\
  (forall u, u ∈ fetched (trace st) <-> u ∈ seen st) /\
  (forall u, u ∈ seen st -> exists x, urldefrag x = Ok u).

(** The visited set holds one entry for each page: its URLs have no
    fragment, no two of them are the same up to the hash sign, they are
    the URLs fetched, and no URL was fetched twice, not even under two
    fragments. *)
Definition one_entry_per_page (st : State) : Prop :=
  (forall u, u ∈ seen st -> 35 ∉ u) /\
  (forall u v, u ∈ seen st -> v ∈ seen st ->
               before_hash u = before_hash v -> u = v) /\
  (forall u, u ∈ fetched (trace st) <-> u ∈ seen st) /\
  NoDup (map before_hash (fetched (trace st))).

(** What lines 88 to 93 make of a link record: nothing when its
    [href] is missing or empty; otherwise the absolute URL without its
    fragment together with its parse, or the exception of the first of
    the three calls that raises. *)
Definition resolve_link (result_url : str) (link : gmap str str)
    : option (result (str * ParseResult)) :=
  match link !! lit "href" with
  | Some (c :: href) =>
      Some (match urljoin result_url (c :: href) with
            | Raise e => Raise e
            | Ok abs_url =>
                match urldefrag abs_url with
                | Raise e => Raise e
                | Ok abs_url =>
                    match urlparse abs_url with
                    | Raise e => Raise e
                    | Ok parsed => Ok (abs_url, parsed)
                    end
                end
            end)
  | _ => None
  end.

(** The three tests a resolved link has to pass. *)
Definition link_accepted (base_netloc : str) (seen : gset str)
    (target : str * ParseResult) : Prop :=
  (scheme target.2 = lit "http" \/ scheme target.2 = lit "https") /\
  netloc target.2 = base_netloc /\
  target.1 ∉ seen.

#[global] Instance link_accepted_dec base_netloc seen target :
  Decision (link_accepted base_netloc seen target).
Proof. unfold link_accepted. apply _. Defined.

(** The exception comes out of one of the three functions of
    [urllib.parse]. *)
Definition raised_by_urllib (e : exn) : Prop :=
  (exists u, urlparse u = Raise e) \/
  (exists u, urldefrag u = Raise e) \/
  (exists b u, urljoin b u = Raise e).

(** The page cap lets the loop fetch at least one page. *)
Definition cap_allows_a_page (max_pages : option Z) : Prop :=
  match max_pages with
  | Some n => (0 < n)%Z
  | None => True
  end.

End CrawlNotions.

(** * Properties *)

(** ** Stripping and the two substitutions *)

Section StringFacts.
Variable p : char -> bool.

Lemma lstrip_suffix (s : str) : exists w, s = w ++ lstrip p s.
Proof.
  induction s as [|c s IH]; simpl.
  - by exists [].
  - destruct (p c).
    + destruct IH as [w Hw]. exists (c :: w). simpl. by rewrite <- Hw.
    + by exists [].
Qed.

Lemma lstrip_length (s : str) : (length (lstrip p s) <= length s)%nat.
Proof.
  destruct (lstrip_suffix s) as [w Hw].
  rewrite Hw at 2. rewrite length_app. lia.
Qed.

Lemma lstrip_length_eq (s : str) :
  length (lstrip p s) = length s -> lstrip p s = s.
Proof.
  destruct (lstrip_suffix s) as [w Hw]. intros Hlen.
  rewrite Hw in Hlen at 2. rewrite length_app in Hlen.
  destruct w as [|x w]; simpl in *; [done | lia].
Qed.

Lemma lstrip_head (c : char) (s : str) :
  p c = false -> lstrip p (c :: s) = c :: s.
Proof. intros Hc. simpl. by rewrite Hc. Qed.

Lemma lstrip_snoc (s : str) (c : char) :
  p c = false -> lstrip p (s ++ [c]) = lstrip p s ++ [c].
Proof.
  intros Hc. induction s as [|x s IH]; simpl.
  - by rewrite Hc.
  - destruct (p x); [apply IH | done].
Qed.

Lemma rstrip_prefix (s : str) : exists w, s = rstrip p s ++ w.
Proof.
  unfold rstrip. destruct (lstrip_suffix (rev s)) as [w Hw].
  exists (rev w).
  rewrite <- rev_app_distr, <- Hw. by rewrite rev_involutive.
Qed.

Lemma rstrip_length (s : str) : (length (rstrip p s) <= length s)%nat.
Proof.
  destruct (rstrip_prefix s) as [w Hw].
  rewrite Hw at 2. rewrite length_app. lia.
Qed.

Lemma rstrip_length_eq (s : str) :
  length (rstrip p s) = length s -> rstrip p s = s.
Proof.
  destruct (rstrip_prefix s) as [w Hw]. intros Hlen.
  rewrite Hw in Hlen at 2. rewrite length_app in Hlen.
  destruct w as [|x w]; simpl in *; [|lia].
  rewrite app_nil_r in Hw. done.
Qed.

Lemma rstrip_cons (c : char) (s : str) :
  p c = false -> rstrip p (c :: s) = c :: rstrip p s.
Proof.
  intros Hc. unfold rstrip. simpl.
  rewrite lstrip_snoc by done.
  rewrite rev_app_distr. done.
Qed.

Lemma strip_length (s : str) : (length (strip p s) <= length s)%nat.
Proof.
  unfold strip. pose proof (rstrip_length (lstrip p s)).
  pose proof (lstrip_length s). lia.
Qed.

Lemma strip_length_eq (s : str) :
  length (strip p s) = length s -> lstrip p s = s /\ rstrip p s = s.
Proof.
  unfold strip. intros Hlen.
  pose proof (rstrip_length (lstrip p s)) as H1.
  pose proof (lstrip_length s) as H2.
  assert (lstrip p s = s) as Hl by (apply lstrip_length_eq; lia).
  split; [done|].
  rewrite Hl in Hlen. by apply rstrip_length_eq.
Qed.

End StringFacts.

Lemma sub_forbidden_length (s : str) :
  length (sub_forbidden s) = length s.
Proof. unfold sub_forbidden. apply length_map. Qed.

Lemma sub_ws_from_length (b : bool) (s : str) :
  (length (sub_ws_from b s) <= length s)%nat.
Proof.
  revert b. induction s as [|c s IH]; intros b; simpl; [lia|].
  pose proof (IH true). pose proof (IH false).
  destruct (isspace c); [destruct b|]; simpl; lia.
Qed.

Lemma forbidden_not_space (c : char) : forbidden c = true -> isspace c = false.
Proof.
  unfold forbidden. intros Hc.
  repeat match goal with
         | H : (_ || _) = true |- _ => apply orb_prop in H as [H|H]
         end;
    apply N.eqb_eq in Hc; subst c; reflexivity.
Qed.

Lemma tidy_from_weaken (b : bool) (s : str) :
  tidy_from true s = true -> tidy_from b s = true.
Proof.
  destruct s as [|c s]; simpl; [done|].
  destruct (isspace c); [simpl; done | done].
Qed.

Lemma tidy_from_prefix (b : bool) (s1 s2 : str) :
  tidy_from b (s1 ++ s2) = true -> tidy_from b s1 = true.
Proof.
  revert b. induction s1 as [|c s1 IH]; intros b; simpl; [done|].
  destruct (isspace c); intros Ht.
  - apply andb_true_iff in Ht as [Ht1 Ht2].
    rewrite Ht1. simpl. by apply IH.
  - apply andb_true_iff in Ht as [Ht1 Ht2].
    rewrite Ht1. simpl. by apply IH.
Qed.

Lemma tidy_from_sub_ws (b : bool) (s : str) :
  tidy_from b s = true -> sub_ws_from b s = s.
Proof.
  revert b. induction s as [|c s IH]; intros b; simpl; [done|].
  destruct (isspace c); intros Ht.
  - apply andb_true_iff in Ht as [Ht1 Ht2].
    apply andb_true_iff in Ht1 as [Hb Hc].
    apply negb_true_iff in Hb. apply N.eqb_eq in Hc. subst b c.
    by rewrite IH.
  - apply andb_true_iff in Ht as [_ Ht2]. by rewrite IH.
Qed.

Lemma tidy_from_sub_forbidden (b : bool) (s : str) :
  tidy_from b s = true -> sub_forbidden s = s.
Proof.
  revert b. induction s as [|c s IH]; intros b; simpl; [done|].
  destruct (isspace c) eqn:Hws; intros Ht.
  - apply andb_true_iff in Ht as [Ht1 Ht2].
    apply andb_true_iff in Ht1 as [_ Hc].
    apply N.eqb_eq in Hc. subst c. simpl.
    f_equal. by apply (IH true).
  - apply andb_true_iff in Ht as [Hf Ht2].
    apply negb_true_iff in Hf. rewrite Hf.
    f_equal. by apply (IH false).
Qed.

Lemma tidy_from_lstrip (b : bool) (s : str) :
  tidy_from b s = true -> tidy_from true (lstrip isspace s) = true.
Proof.
  revert b. induction s as [|c s IH]; intros b; simpl; [done|].
  destruct (isspace c) eqn:Hws; intros Ht.
  - apply andb_true_iff in Ht as [_ Ht2]. by apply (IH true).
  - simpl. by rewrite Hws.
Qed.

Lemma tidy_from_lstrip_id (s : str) :
  tidy_from true s = true -> lstrip isspace s = s.
Proof.
  destruct s as [|c s]; simpl; [done|].
  destruct (isspace c); [simpl; done | done].
Qed.

Lemma sub_ws_from_tidy (b : bool) (s : str) :
  Forall (fun c => forbidden c = false) s ->
  tidy_from b (sub_ws_from b s) = true.
Proof.
  intros Hs. revert b. induction Hs as [|c s Hc Hs IH]; intros b; simpl; [done|].
  destruct (isspace c) eqn:Hws.
  - destruct b; [apply IH|]. simpl. apply IH.
  - simpl. rewrite Hws, Hc. simpl. apply IH.
Qed.

Lemma sub_forbidden_clean (s : str) :
  Forall (fun c => forbidden c = false) (sub_forbidden s).
Proof.
  unfold sub_forbidden. apply Forall_map, Forall_forall. intros c _. simpl.
  destruct (forbidden c) eqn:Hc; [reflexivity | done].
Qed.

Lemma sanitize_unfold (s : str) :
  _sanitize_filename s =
    match strip isspace s with
    | [] => lit "untitled"
    | c :: name => cleaned (c :: name)
    end.
Proof. unfold _sanitize_filename, cleaned. by destruct (strip isspace s). Qed.

Lemma cleaned_tidy (name : str) : tidy_from true (cleaned name) = true.
Proof.
  unfold cleaned, slice_to, strip, sub_ws.
  pose proof (sub_ws_from_tidy false _ (sub_forbidden_clean name)) as Ht.
  apply (tidy_from_lstrip false) in Ht.
  destruct (rstrip_prefix isspace
              (lstrip isspace (sub_ws_from false (sub_forbidden name))))
    as [w Hw].
  rewrite Hw in Ht. apply tidy_from_prefix in Ht.
  rewrite <- (take_drop 120 (rstrip _ _)) in Ht.
  by apply tidy_from_prefix in Ht.
Qed.

Lemma cleaned_length (name : str) : (length (cleaned name) <= 120)%nat.
Proof. unfold cleaned, slice_to. rewrite length_take. lia. Qed.

(** A stripped, non-empty title starts with a character that is not
    whitespace, and so does its cleaned form. *)
Lemma strip_head (s : str) (c : char) (name : str) :
  strip isspace s = c :: name -> isspace c = false.
Proof.
  unfold strip. intros Hs.
  destruct (rstrip_prefix isspace (lstrip isspace s)) as [w Hw].
  rewrite Hs in Hw. simpl in Hw.
  destruct s as [|x s]; [done|].
  assert (tidy_like : forall t, lstrip isspace t = c :: name ++ w ->
                                isspace c = false).
  { induction t as [|y t IH]; simpl; [done|].
    destruct (isspace y) eqn:Hy; [done|]. intros [= -> _]. done. }
  eauto.
Qed.

Lemma cleaned_nonempty (c : char) (name : str) :
  isspace c = false -> cleaned (c :: name) <> [].
Proof.
  intros Hc. unfold cleaned, slice_to, strip, sub_ws, sub_forbidden. simpl.
  set (c' := if forbidden c then 45 else c).
  assert (isspace c' = false) as Hc'.
  { unfold c'. destruct (forbidden c); [reflexivity | done]. }
  rewrite Hc'. simpl. rewrite Hc'.
  rewrite rstrip_cons by done. done.
Qed.

Lemma sanitize_tidy_fixed (r : str) :
  r <> [] -> tidy_from true r = true -> (length r <= 120)%nat ->
  rstrip isspace r = r -> _sanitize_filename r = r.
Proof.
  intros Hne Ht Hlen Hr.
  rewrite sanitize_unfold.
  assert (strip isspace r = r) as Hs.
  { unfold strip. by rewrite tidy_from_lstrip_id. }
  rewrite Hs. destruct r as [|c r]; [done|].
  unfold cleaned, sub_ws, slice_to.
  rewrite (tidy_from_sub_forbidden true) by done.
  rewrite (tidy_from_sub_ws false) by (by apply tidy_from_weaken).
  rewrite Hs. apply take_ge. done.
Qed.

Lemma cleaned_length_le (name : str) :
  (length (cleaned name) <= length name)%nat.
Proof.
  unfold cleaned, slice_to, sub_ws. rewrite length_take.
  pose proof (strip_length isspace (sub_ws_from false (sub_forbidden name))).
  pose proof (sub_ws_from_length false (sub_forbidden name)).
  pose proof (sub_forbidden_length name). lia.
Qed.

(** ** [_sanitize_filename]: length and repeated use *)

Example sanitize_home : _sanitize_filename (lit "  Home  ") = lit "Home".
Proof. reflexivity. Qed.

Example sanitize_chars :
  _sanitize_filename (lit "a/b: c?   d") = lit "a-b- c- d".
Proof. reflexivity. Qed.

Example sanitize_blank : _sanitize_filename (lit "   ") = lit "untitled".
Proof. reflexivity. Qed.

Example sanitize_300 :
  length (_sanitize_filename (repeat 97 300)) = 120%nat.
Proof. vm_compute. reflexivity. Qed.

Example sanitize_long_title :
  _sanitize_filename long_title = repeat 97 119 ++ lit " " /\
  _sanitize_filename (_sanitize_filename long_title) = repeat 97 119.
Proof. split; vm_compute; reflexivity. Qed.

(** C3, as stated, fails: sanitizing is not idempotent.  The title made
    of 119 letters, a space and a letter is cut after the space, so its
    sanitized name ends in a space, which a second pass strips. *)
Lemma C3_sanitize_not_idempotent :
  _sanitize_filename (_sanitize_filename long_title)
  <> _sanitize_filename long_title.
Proof.
  intros Heq. apply (f_equal length) in Heq.
  vm_compute in Heq. discriminate Heq.
Qed.

(** C3, amended: for every string the sanitized name has at most 120
    characters, and sanitizing it again returns the same name exactly
    when it does not end in whitespace (which can only happen when the
    cut at 120 characters falls right after a space). *)
Theorem C3_sanitize_bounded_and_stable (s : str) :
  (length (_sanitize_filename s) <= 120)%nat /\
  (_sanitize_filename (_sanitize_filename s) = _sanitize_filename s <->
   rstrip isspace (_sanitize_filename s) = _sanitize_filename s).
Proof.
  rewrite (sanitize_unfold s).
  destruct (strip isspace s) as [|c name] eqn:Hs.
  - split; [vm_compute; lia|]. split; intros _; vm_compute; reflexivity.
  - split; [apply cleaned_length|]. split.
    + intros Hfix. rewrite sanitize_unfold in Hfix.
      destruct (strip isspace (cleaned (c :: name))) as [|c' name'] eqn:Hs'.
      * rewrite <- Hfix. vm_compute. reflexivity.
      * rewrite <- Hs' in Hfix.
        pose proof (cleaned_length_le (strip isspace (cleaned (c :: name)))) as H1.
        pose proof (strip_length isspace (cleaned (c :: name))) as H2.
        rewrite Hfix in H1.
        apply (strip_length_eq isspace). lia.
    + intros Hr. apply sanitize_tidy_fixed.
      * apply cleaned_nonempty. by eapply strip_head.
      * apply cleaned_tidy.
      * apply cleaned_length.
      * done.
Qed.

(** ** [_extract_title] *)

Lemma split_not_nil (sep : char) (s : str) : split sep s <> [].
Proof.
  destruct s as [|c s]; simpl; [done|].
  destruct (c =? sep); [done|]. by destruct (split sep s).
Qed.

Lemma split_snoc_sep (sep : char) (s : str) :
  split sep (s ++ [sep]) = split sep s ++ [[]].
Proof.
  induction s as [|c s IH]; simpl.
  - by rewrite N.eqb_refl.
  - rewrite IH. destruct (c =? sep); [done|].
    pose proof (split_not_nil sep s).
    by destruct (split sep s).
Qed.

Lemma split_snoc_other (sep c : char) (s : str) :
  (c =? sep) = false ->
  split sep (s ++ [c]) =
    removelast (split sep s) ++ [last_seg (split sep s) ++ [c]].
Proof.
  intros Hc. induction s as [|x s IH]; simpl.
  - by rewrite Hc.
  - rewrite IH. pose proof (split_not_nil sep s) as Hne.
    destruct (x =? sep).
    + destruct (split sep s) as [|seg segs] eqn:Hsp; [done|]. done.
    + destruct (split sep s) as [|seg segs] eqn:Hsp; [done|].
      unfold last_seg. destruct segs as [|seg' segs]; [done|]. done.
Qed.

Lemma rstrip_snoc_in (p : char -> bool) (s : str) (c : char) :
  p c = true -> rstrip p (s ++ [c]) = rstrip p s.
Proof.
  intros Hc. unfold rstrip. rewrite rev_app_distr. simpl. by rewrite Hc.
Qed.

Lemma rstrip_snoc_out (p : char -> bool) (s : str) (c : char) :
  p c = false -> rstrip p (s ++ [c]) = s ++ [c].
Proof.
  intros Hc. unfold rstrip. rewrite rev_app_distr. simpl. rewrite Hc.
  change (c :: rev s) with (rev [c] ++ rev s).
  rewrite <- rev_app_distr. apply rev_involutive.
Qed.

Lemma filter_nonempty_nil :
  filter (fun seg : str => seg <> []) [[]] = [].
Proof. reflexivity. Qed.

Lemma filter_nonempty_single (x : str) :
  x <> [] -> filter (fun seg : str => seg <> []) [x] = [x].
Proof. intros Hx. destruct x; [done | reflexivity]. Qed.

(** What lines 34 and 35 take from a path is its last segment that is
    not empty. *)
Lemma last_seg_rstrip_split (path : str) :
  last_seg (split 47 (rstrip is_slash path)) =
    default [] (last_nonempty_segment path).
Proof.
  unfold last_nonempty_segment.
  induction path as [|c path IH] using rev_ind; [done|].
  destruct (c =? 47) eqn:Hc.
  - rewrite rstrip_snoc_in by done. rewrite IH.
    apply N.eqb_eq in Hc. subst c.
    rewrite split_snoc_sep, filter_app, filter_nonempty_nil.
    by rewrite app_nil_r.
  - rewrite rstrip_snoc_out by done.
    rewrite split_snoc_other by done.
    rewrite filter_app.
    rewrite filter_nonempty_single by (by destruct (last_seg (split 47 path))).
    rewrite last_snoc. simpl.
    unfold last_seg at 1. by rewrite last_last.
Qed.

Section ExtractTitleFacts.
Context `{Urllib}.

(** The URL fallback: the last non-empty segment of the path, or the
    URL when the path has none; the exception of [urlparse] when it
    raises. *)
Lemma title_from_url_spec (url : str) :
  title_from_url url =
    match urlparse url with
    | Ok parsed =>
        Ok (match last_nonempty_segment (path parsed) with
            | Some seg => seg
            | None => url
            end)
    | Raise e => Raise e
    end.
Proof.
  unfold title_from_url. destruct (urlparse url) as [parsed|e]; [|done].
  rewrite last_seg_rstrip_split.
  unfold last_nonempty_segment.
  destruct (last _) as [seg|] eqn:Hlast; simpl; [|done].
  apply last_Some_elem_of, list_elem_of_filter in Hlast as [Hne _].
  by destruct seg.
Qed.

(** First choice: the title of the metadata. *)
Lemma extract_title_metadata metadata (title html url : str) :
  metadata_title metadata = Some title ->
  _extract_title metadata html url = Ok title.
Proof. intros Hm. unfold _extract_title. by rewrite Hm. Qed.

(** Last choices: without a title in the metadata and without a title
    element in the HTML, the URL decides. *)
Lemma extract_title_url metadata (html url : str) :
  metadata_title metadata = None ->
  html = [] \/ search_title html = None ->
  _extract_title metadata html url = title_from_url url.
Proof.
  intros Hm Hh. unfold _extract_title. rewrite Hm.
  destruct Hh as [-> | Hh]; [done|].
  rewrite Hh. by destruct html.
Qed.

(** Second choice: a title element in the HTML makes the call raise,
    whatever the element holds. *)
Lemma extract_title_html_raises metadata (html url group1 : str) :
  metadata_title metadata = None ->
  search_title html = Some group1 ->
  _extract_title metadata html url =
    Raise (AttributeError (lit "'str' object has no attribute 'unescape'")).
Proof.
  intros Hm Hh. unfold _extract_title. rewrite Hm.
  destruct html as [|c html]; [done|]. by rewrite Hh.
Qed.

(** The two exceptions of [_extract_title]. *)
Lemma extract_title_raise_origin metadata (html url : str) (e : exn) :
  _extract_title metadata html url = Raise e ->
  e = no_unescape \/ urlparse url = Raise e.
Proof.
  unfold _extract_title, title_from_url.
  destruct (metadata_title metadata); [done|].
  destruct (match html with [] => None | _ => search_title html end).
  - unfold html_unescape_attr. intros [= <-]. by left.
  - destruct (urlparse url) as [parsed|e']; [|intros [= <-]; by right].
    cbv zeta. by destruct (last_seg _).
Qed.

End ExtractTitleFacts.

Example search_title_plain :
  search_title (lit "<html><title>Docs</title></html>") = Some (lit "Docs").
Proof. reflexivity. Qed.

Example search_title_case :
  search_title (lit "<TITLE lang=en>A</TiTlE><title>B</title>")
  = Some (lit "A").
Proof. reflexivity. Qed.

Example search_title_open : search_title (lit "<title>Docs") = None.
Proof. reflexivity. Qed.

Example extract_title_from_metadata :
  @_extract_title cpython_urllib (Some {[ lit "title" := lit "Guide" ]})
    (lit "<title>Docs</title>") (lit "https://ex.com/guide/")
  = Ok (lit "Guide").
Proof. vm_compute. reflexivity. Qed.

Example extract_title_from_path :
  @_extract_title cpython_urllib None [] (lit "https://ex.com/a/guide/?x=1")
  = Ok (lit "guide").
Proof. vm_compute. reflexivity. Qed.

Example extract_title_from_url :
  @_extract_title cpython_urllib None [] (lit "https://ex.com/")
  = Ok (lit "https://ex.com/").
Proof. vm_compute. reflexivity. Qed.

Example extract_title_bad_url :
  @_extract_title cpython_urllib None [] (lit "http://[")
  = Raise (ValueError (lit "Invalid IPv6 URL")).
Proof. vm_compute. reflexivity. Qed.

(** C2, on the code: with no title in the metadata and a title element
    in the HTML, [_extract_title] returns no title at all.  The call of
    [html.unescape] meets the parameter [html], a string, in place of
    the module, and raises [AttributeError]. *)
Theorem C2_html_title_raises :
  @_extract_title cpython_urllib (Some ∅)
    (lit "<html><head><title>Docs</title></head><body></body></html>")
    (lit "https://ex.com/")
  = Raise (AttributeError (lit "'str' object has no attribute 'unescape'")).
Proof. vm_compute. reflexivity. Qed.

(** ** The loop of [crawl_site] *)

Section CrawlFacts.
Context `{Urllib} `{Fetcher}.
Implicit Types (st : State) (max_pages : option Z).

Lemma fetched_snoc_fetch (tr : list Event) (u : str) :
  fetched (tr ++ [Fetch u]) = fetched tr ++ [u].
Proof. unfold fetched. by rewrite omap_app. Qed.

Lemma fetched_snoc_print (tr : list Event) (l : str) :
  fetched (tr ++ [Print l]) = fetched tr.
Proof. unfold fetched. rewrite omap_app. simpl. by rewrite app_nil_r. Qed.

Lemma fetched_snoc_write (tr : list Event) (p c : str) :
  fetched (tr ++ [Write p c]) = fetched tr.
Proof. unfold fetched. rewrite omap_app. simpl. by rewrite app_nil_r. Qed.

Lemma written_snoc_fetch (tr : list Event) (u : str) :
  written (tr ++ [Fetch u]) = written tr.
Proof. unfold written. rewrite omap_app. simpl. by rewrite app_nil_r. Qed.

Lemma written_snoc_print (tr : list Event) (l : str) :
  written (tr ++ [Print l]) = written tr.
Proof. unfold written. rewrite omap_app. simpl. by rewrite app_nil_r. Qed.

Lemma written_snoc_write (tr : list Event) (p c : str) :
  written (tr ++ [Write p c]) = written tr ++ [(p, c)].
Proof. unfold written. by rewrite omap_app. Qed.

Lemma printed_snoc_fetch (tr : list Event) (u : str) :
  printed (tr ++ [Fetch u]) = printed tr.
Proof. unfold printed. rewrite omap_app. simpl. by rewrite app_nil_r. Qed.

Lemma printed_snoc_print (tr : list Event) (l : str) :
  printed (tr ++ [Print l]) = printed tr ++ [l].
Proof. unfold printed. by rewrite omap_app. Qed.

Lemma printed_snoc_write (tr : list Event) (p c : str) :
  printed (tr ++ [Write p c]) = printed tr.
Proof. unfold printed. rewrite omap_app. simpl. by rewrite app_nil_r. Qed.

(** One link: nothing to do, a raise, or a target that joins the
    frontier if it passes the three tests. *)
Lemma visit_link_spec (base_netloc result_url : str) (seen : gset str)
    (queue : list str) (link : gmap str str) :
  visit_link base_netloc result_url seen queue link =
    match resolve_link result_url link with
    | None => Ok queue
    | Some (Raise e) => Raise e
    | Some (Ok target) =>
        Ok (queue ++ map fst (filter (link_accepted base_netloc seen) [target]))
    end.
Proof.
  unfold visit_link, resolve_link.
  destruct (link !! lit "href") as [[|c href]|]; [done | | done].
  destruct (urljoin result_url (c :: href)) as [abs|e]; [|done].
  destruct (urldefrag abs) as [abs'|e]; [|done].
  destruct (urlparse abs') as [parsed|e]; [|done].
  unfold is_http.
  destruct (decide (link_accepted base_netloc seen (abs', parsed)))
    as [Hacc | Hrej].
  - rewrite filter_cons_True, filter_nil by done.
    destruct Hacc as (Hscheme & Hhost & Hnew). simpl in *.
    rewrite (bool_decide_eq_true_2 (netloc _ = _)) by done.
    rewrite (bool_decide_eq_true_2 (abs' ∉ seen)) by done.
    destruct Hscheme as [Hs | Hs]; rewrite Hs; done.
  - rewrite filter_cons_False, filter_nil by done. simpl.
    rewrite app_nil_r.
    destruct (bool_decide (scheme parsed = lit "http")
              || bool_decide (scheme parsed = lit "https")) eqn:Hs;
      [|done]. simpl.
    destruct (bool_decide (netloc parsed = base_netloc)) eqn:Hh;
      [|done]. simpl.
    destruct (bool_decide (abs' ∉ seen)) eqn:Hn; [|done].
    exfalso. apply Hrej. split; [|split]; simpl.
    + apply orb_true_iff in Hs as [Hs | Hs]; apply bool_decide_eq_true in Hs;
        auto.
    + by apply bool_decide_eq_true in Hh.
    + by apply bool_decide_eq_true in Hn.
Qed.

(** The whole loop over the links: the frontier grows by the accepted
    targets of the links before the first raise, in the order of the
    links, and the loop is left by that raise if there is one. *)
Lemma visit_links_spec (base_netloc result_url : str) (seen : gset str)
    (ls : list (gmap str str)) (queue : list str) :
  visit_links base_netloc result_url seen queue ls =
    (queue ++ map fst (filter (link_accepted base_netloc seen)
                         (returned_prefix (omap (resolve_link result_url) ls))),
     first_raise (omap (resolve_link result_url) ls)).
Proof.
  revert queue. induction ls as [|link ls IH]; intros queue.
  - simpl. by rewrite ?filter_nil, app_nil_r.
  - cbn [visit_links omap list_omap]. rewrite visit_link_spec.
    destruct (resolve_link result_url link) as [[target|e]|];
      cbn [returned_prefix first_raise].
    + rewrite IH, <- app_assoc. do 2 f_equal.
      rewrite <- map_app. f_equal.
      destruct (decide (link_accepted base_netloc seen target)).
      * by rewrite !filter_cons_True, filter_nil by done.
      * by rewrite !filter_cons_False, filter_nil by done.
    + by rewrite ?filter_nil, app_nil_r.
    + apply IH.
Qed.

(** The turn that skips an empty frontier or a reached cap. *)
Lemma loop_body_exit base_netloc output_dir max_pages st :
  queue st = [] \/ cap_reached max_pages st = true ->
  loop_body base_netloc output_dir max_pages st = Exit st.
Proof.
  intros Hx. unfold loop_body.
  destruct (queue st) as [|head rest]; [done|].
  destruct Hx as [Hx | Hx]; [done|]. by rewrite Hx.
Qed.

(** The seven ways a turn can go, each with the state it ends in: the
    loop is left; the head of the frontier cannot be stripped; it was
    visited; its fetch fails; its title cannot be had; its file is
    written and its links are taken; its file is written and one of its
    links cannot be resolved. *)
Lemma loop_body_cases base_netloc output_dir max_pages st :
  (loop_body base_netloc output_dir max_pages st = Exit st /\
   (queue st = [] \/ cap_reached max_pages st = true)) \/
  (exists head rest,
      queue st = head :: rest /\
      cap_reached max_pages st = false /\
      ((exists e,
           urldefrag head = Raise e /\
           loop_body base_netloc output_dir max_pages st =
             Abort e (mkState (seen st) rest (used_names st) (world st)
                        (trace st)))
       \/
       (exists current,
           urldefrag head = Ok current /\
           ((current ∈ seen st /\
             loop_body base_netloc output_dir max_pages st =
               Next (mkState (seen st) rest (used_names st) (world st)
                       (trace st)))
            \/
            ((current ∉ seen st) /\
             exists w' r,
               arun (world st) current = (w', r) /\
               ((success r = false /\
                 loop_body base_netloc output_dir max_pages st =
                   Next (mkState (seen st ∪ {[current]}) rest
                           (used_names st) w'
                           ((trace st ++ [Fetch current])
                              ++ [Print (skip_line current
                                           (error_message r))])))
                \/
                (success r = true /\
                 ((exists e,
                      _extract_title (metadata r) (html r) (url r) = Raise e /\
                      loop_body base_netloc output_dir max_pages st =
                        Abort e (mkState (seen st ∪ {[current]}) rest
                                   (used_names st) w'
                                   (trace st ++ [Fetch current])))
                  \/
                  (exists title queue' err,
                      _extract_title (metadata r) (html r) (url r) = Ok title /\
                      visit_links base_netloc (url r) (seen st ∪ {[current]})
                        rest (internal_links r) = (queue', err) /\
                      let after :=
                        mkState (seen st ∪ {[current]}) queue'
                          (<[_sanitize_filename title :=
                               (default 0%nat
                                  (used_names st !! _sanitize_filename title)
                                + 1)%nat]> (used_names st))
                          w'
                          ((trace st ++ [Fetch current])
                             ++ [Write
                                   (os_path_join output_dir
                                      (make_filename (_sanitize_filename title)
                                         (default 0%nat
                                            (used_names st
                                               !! _sanitize_filename title))))
                                   (_get_markdown r)]) in
                      loop_body base_netloc output_dir max_pages st =
                        match err with
                        | None => Next after
                        | Some e => Abort e after
                        end))))))))).
Proof.
  destruct (queue st) as [|head rest] eqn:Hq.
  { left. split; [by apply loop_body_exit; left | by left]. }
  destruct (cap_reached max_pages st) eqn:Hcap.
  { left. split; [by apply loop_body_exit; right | by right]. }
  right. exists head, rest. split; [done|]. split; [done|].
  unfold loop_body. rewrite Hq, Hcap.
  destruct (urldefrag head) as [current|e]; [|left; by exists e].
  right. exists current. split; [done|].
  destruct (decide (current ∈ seen st)) as [Hin | Hin].
  { left. split; [done|]. by rewrite bool_decide_eq_true_2. }
  right. split; [done|]. rewrite bool_decide_eq_false_2 by done.
  destruct (arun (world st) current) as [w' r] eqn:Hrun.
  exists w', r. split; [done|].
  destruct (success r) eqn:Hok; [right | left; by split].
  split; [done|]. simpl.
  destruct (_extract_title (metadata r) (html r) (url r)) as [title|e] eqn:Ht;
    [right | left; by exists e].
  destruct (visit_links base_netloc (url r) (seen st ∪ {[current]}) rest
              (internal_links r)) as [queue' err] eqn:Hlinks.
  exists title, queue', err. split; [done|]. split; [done|].
  by destruct err.
Qed.

End CrawlFacts.

(** The case analysis of a turn as a tactic: seven goals, in the order
    of [loop_body_cases], each with the equation [Hturn] of the turn. *)
Ltac turn_cases base_netloc output_dir max_pages st :=
  let head := fresh "head" in
  let rest := fresh "rest" in
  let Hq := fresh "Hq" in
  let Hcap := fresh "Hcap" in
  let e := fresh "e" in
  let Hdefrag := fresh "Hdefrag" in
  let current := fresh "current" in
  let Hin := fresh "Hin" in
  let Hnew := fresh "Hnew" in
  let w' := fresh "w'" in
  let r := fresh "r" in
  let Hrun := fresh "Hrun" in
  let Hok := fresh "Hok" in
  let title := fresh "title" in
  let Ht := fresh "Ht" in
  let queue' := fresh "queue'" in
  let err := fresh "err" in
  let Hlinks := fresh "Hlinks" in
  let Hwhy := fresh "Hwhy" in
  let Hturn := fresh "Hturn" in
  destruct (loop_body_cases base_netloc output_dir max_pages st)
    as [[Hturn Hwhy]
       | (head & rest & Hq & Hcap &
          [(e & Hdefrag & Hturn)
          | (current & Hdefrag &
             [[Hin Hturn]
             | (Hnew & w' & r & Hrun &
                [[Hok Hturn]
                | (Hok &
                   [(e & Ht & Hturn)
                   | (title & queue' & err & Ht & Hlinks & Hturn)])])])])];
  [ | | | | | destruct err as [e|]; cbv zeta in Hturn ].

Section CrawlInvariants.
Context `{Urllib} `{Fetcher}.
Implicit Types (st : State) (max_pages : option Z).

(** For the visited set and the fetches the seven cases come to two:
    nothing changes, or the head of the frontier, without its fragment
    and not visited before, is added to both. *)
Lemma loop_body_seen_fetched base_netloc output_dir max_pages st :
  forall st',
    st' = step_state (loop_body base_netloc output_dir max_pages st) ->
    (seen st' = seen st /\ fetched (trace st') = fetched (trace st)) \/
    (exists head rest current,
        queue st = head :: rest /\
        cap_reached max_pages st = false /\
        urldefrag head = Ok current /\
        (current ∉ seen st) /\
        seen st' = seen st ∪ {[current]} /\
        fetched (trace st') = fetched (trace st) ++ [current]).
Proof.
  intros st' ->.
  turn_cases base_netloc output_dir max_pages st; rewrite Hturn;
    cbn [step_state seen trace]; try (by left);
    right; exists head, rest, current; repeat (split; [done|]).
  - by rewrite fetched_snoc_print, fetched_snoc_fetch.
  - by rewrite fetched_snoc_fetch.
  - by rewrite fetched_snoc_write, fetched_snoc_fetch.
  - by rewrite fetched_snoc_write, fetched_snoc_fetch.
Qed.

Lemma crawl_inv_start (w : World) (start_url output_dir : str) :
  crawl_inv (loop_start w start_url output_dir).
Proof.
  unfold crawl_inv, loop_start. simpl. split; [constructor|].
  split.
  - intros u. split; [by intros ?%elem_of_nil | by intros ?%elem_of_empty].
  - by intros u ?%elem_of_empty.
Qed.

Lemma crawl_inv_entry (w : World) : crawl_inv (entry_state w).
Proof.
  unfold crawl_inv, entry_state. simpl. split; [constructor|].
  split.
  - intros u. split; [by intros ?%elem_of_nil | by intros ?%elem_of_empty].
  - by intros u ?%elem_of_empty.
Qed.

Lemma crawl_inv_step base_netloc output_dir max_pages st :
  crawl_inv st ->
  crawl_inv (step_state (loop_body base_netloc output_dir max_pages st)).
Proof.
  intros (Hnd & Hiff & Hdefrag).
  destruct (loop_body_seen_fetched base_netloc output_dir max_pages st _ eq_refl)
    as [[Hs Hf] | (head & rest & current & _ & _ & Hcur & Hnew & Hs & Hf)];
    unfold crawl_inv; rewrite Hs, Hf.
  - done.
  - split; [|split].
    + apply NoDup_app. split; [done|]. split; [|apply NoDup_singleton].
      intros u Hu ->%list_elem_of_singleton. by apply Hnew, Hiff.
    + intros u. rewrite elem_of_app, list_elem_of_singleton, elem_of_union,
        elem_of_singleton. by rewrite Hiff.
    + intros u [Hu | ->%elem_of_singleton]%elem_of_union; [auto|].
      by exists head.
Qed.

(** An invariant of the turns holds after any number of them, and of
    every outcome of the loop. *)
Lemma after_turns_ind (P : State -> Prop) base_netloc output_dir max_pages :
  (forall st, P st ->
              P (step_state (loop_body base_netloc output_dir max_pages st))) ->
  forall n st, P st -> P (after_turns n base_netloc output_dir max_pages st).
Proof.
  intros Hstep. induction n as [|n IH]; intros st Hst; simpl; [done|].
  specialize (Hstep st Hst).
  destruct (loop_body base_netloc output_dir max_pages st); simpl in *; auto.
Qed.

Lemma run_loop_after_turns base_netloc output_dir max_pages fuel st o :
  run_loop fuel base_netloc output_dir max_pages st = Some o ->
  exists n,
    outcome_state o = after_turns (S n) base_netloc output_dir max_pages st.
Proof.
  revert st. induction fuel as [|fuel IH]; intros st; [done|].
  cbn [run_loop after_turns].
  destruct (loop_body base_netloc output_dir max_pages st) as [st'|st'|e st']
    eqn:Hbody.
  - intros [= <-]. by exists 0%nat.
  - intros [n Hn]%IH. by exists (S n).
  - intros [= <-]. by exists 0%nat.
Qed.

Lemma run_loop_ind (P : State -> Prop) base_netloc output_dir max_pages :
  (forall st, P st ->
              P (step_state (loop_body base_netloc output_dir max_pages st))) ->
  forall fuel st o,
    P st ->
    run_loop fuel base_netloc output_dir max_pages st = Some o ->
    P (outcome_state o).
Proof.
  intros Hstep fuel st o Hst [n ->]%run_loop_after_turns.
  by apply after_turns_ind.
Qed.

(** What a call comes to: a raise before anything is done, or the
    loop. *)
Lemma crawl_site_cases (fuel : nat) (w : World) (start_url output_dir : str)
    max_pages :
  (exists e,
      urlparse start_url = Raise e /\
      crawl_site fuel w start_url output_dir max_pages =
        Some (Raised e (entry_state w))) \/
  (exists parsed,
      urlparse start_url = Ok parsed /\ netloc parsed = [] /\
      crawl_site fuel w start_url output_dir max_pages =
        Some (Raised (ValueError (lit "Invalid start URL.")) (entry_state w)))
  \/
  (exists parsed,
      urlparse start_url = Ok parsed /\ netloc parsed <> [] /\
      crawl_site fuel w start_url output_dir max_pages =
        run_loop fuel (netloc parsed) output_dir max_pages
          (loop_start w start_url output_dir)).
Proof.
  unfold crawl_site. destruct (urlparse start_url) as [parsed|e].
  - right. destruct (netloc parsed) as [|c host] eqn:Hhost.
    + left. by exists parsed.
    + right. exists parsed. by rewrite Hhost.
  - left. by exists e.
Qed.

(** The same for a whole call: what holds when the loop is entered,
    and of the state in which the start URL is refused, holds at the
    end. *)
Lemma crawl_site_ind (P : State -> Prop) (w : World)
    (start_url output_dir : str) max_pages :
  P (entry_state w) ->
  P (loop_start w start_url output_dir) ->
  (forall base_netloc st,
      P st ->
      P (step_state (loop_body base_netloc output_dir max_pages st))) ->
  forall fuel o,
    crawl_site fuel w start_url output_dir max_pages = Some o ->
    P (outcome_state o).
Proof.
  intros Hentry Hstart Hstep fuel o.
  destruct (crawl_site_cases fuel w start_url output_dir max_pages)
    as [(e & _ & ->) | [(parsed & _ & _ & ->) | (parsed & _ & _ & ->)]].
  - by intros [= <-].
  - by intros [= <-].
  - apply run_loop_ind; [apply Hstep | done].
Qed.

Lemma loop_body_exit_inv base_netloc output_dir max_pages st st' :
  loop_body base_netloc output_dir max_pages st = Exit st' ->
  st' = st /\ (queue st = [] \/ cap_reached max_pages st = true).
Proof.
  intros Hbody.
  turn_cases base_netloc output_dir max_pages st; rewrite Hturn in Hbody;
    try done.
  by injection Hbody as <-.
Qed.

(** Induction over a run that tells the two outcomes apart: [P] holds
    at every test of the loop, [Q] of the state a raise leaves. *)
Lemma run_loop_outcome_ind (P : State -> Prop) (Q : exn -> State -> Prop)
    base_netloc output_dir max_pages :
  (forall st st',
      P st -> loop_body base_netloc output_dir max_pages st = Next st' ->
      P st') ->
  (forall st e st',
      P st -> loop_body base_netloc output_dir max_pages st = Abort e st' ->
      Q e st') ->
  forall fuel st o,
    P st ->
    run_loop fuel base_netloc output_dir max_pages st = Some o ->
    match o with
    | Returned st' =>
        P st' /\ (queue st' = [] \/ cap_reached max_pages st' = true)
    | Raised e st' => Q e st'
    end.
Proof.
  intros Hnext Habort. induction fuel as [|fuel IH]; intros st o Hst; [done|].
  simpl.
  destruct (loop_body base_netloc output_dir max_pages st) as [st'|st'|e st']
    eqn:Hbody.
  - intros [= <-]. apply loop_body_exit_inv in Hbody as [-> Hwhy]. done.
  - apply IH. by eapply Hnext.
  - intros [= <-]. by eapply Habort.
Qed.

End CrawlInvariants.

(** ** Single turns, by what is known of the head of the frontier *)

Section Turns.
Context `{Urllib} `{Fetcher}.
Implicit Types (st : State) (max_pages : option Z).

Lemma loop_body_revisit base_netloc output_dir max_pages st head rest current :
  queue st = head :: rest ->
  cap_reached max_pages st = false ->
  urldefrag head = Ok current ->
  current ∈ seen st ->
  loop_body base_netloc output_dir max_pages st =
    Next (mkState (seen st) rest (used_names st) (world st) (trace st)).
Proof.
  intros Hq Hcap Hdefrag Hin. unfold loop_body.
  by rewrite Hq, Hcap, Hdefrag, bool_decide_eq_true_2.
Qed.

Lemma loop_body_failure base_netloc output_dir max_pages st head rest current
    w' r :
  queue st = head :: rest ->
  cap_reached max_pages st = false ->
  urldefrag head = Ok current ->
  current ∉ seen st ->
  arun (world st) current = (w', r) ->
  success r = false ->
  loop_body base_netloc output_dir max_pages st =
    Next (mkState (seen st ∪ {[current]}) rest (used_names st) w'
            ((trace st ++ [Fetch current])
               ++ [Print (skip_line current (error_message r))])).
Proof.
  intros Hq Hcap Hdefrag Hnew Hrun Hfail. unfold loop_body.
  rewrite Hq, Hcap, Hdefrag, bool_decide_eq_false_2 by done.
  by rewrite Hrun, Hfail.
Qed.

Lemma loop_body_title_raises base_netloc output_dir max_pages st head rest
    current w' r e :
  queue st = head :: rest ->
  cap_reached max_pages st = false ->
  urldefrag head = Ok current ->
  current ∉ seen st ->
  arun (world st) current = (w', r) ->
  success r = true ->
  _extract_title (metadata r) (html r) (url r) = Raise e ->
  loop_body base_netloc output_dir max_pages st =
    Abort e (mkState (seen st ∪ {[current]}) rest (used_names st) w'
               (trace st ++ [Fetch current])).
Proof.
  intros Hq Hcap Hdefrag Hnew Hrun Hok Ht. unfold loop_body.
  rewrite Hq, Hcap, Hdefrag, bool_decide_eq_false_2 by done.
  by rewrite Hrun, Hok, Ht.
Qed.

Lemma loop_body_success base_netloc output_dir max_pages st head rest current
    w' r title :
  queue st = head :: rest ->
  cap_reached max_pages st = false ->
  urldefrag head = Ok current ->
  current ∉ seen st ->
  arun (world st) current = (w', r) ->
  success r = true ->
  _extract_title (metadata r) (html r) (url r) = Ok title ->
  forall after,
    after =
      mkState (seen st ∪ {[current]})
        (visit_links base_netloc (url r) (seen st ∪ {[current]}) rest
           (internal_links r)).1
        (<[_sanitize_filename title :=
             (default 0%nat (used_names st !! _sanitize_filename title)
              + 1)%nat]> (used_names st))
        w'
        ((trace st ++ [Fetch current])
           ++ [Write
                 (os_path_join output_dir
                    (make_filename (_sanitize_filename title)
                       (default 0%nat
                          (used_names st !! _sanitize_filename title))))
                 (_get_markdown r)]) ->
  loop_body base_netloc output_dir max_pages st =
    match (visit_links base_netloc (url r) (seen st ∪ {[current]}) rest
             (internal_links r)).2 with
    | None => Next after
    | Some e => Abort e after
    end.
Proof.
  intros Hq Hcap Hdefrag Hnew Hrun Hok Ht after ->. unfold loop_body.
  rewrite Hq, Hcap, Hdefrag, bool_decide_eq_false_2 by done.
  rewrite Hrun, Hok, Ht. simpl.
  by destruct (visit_links _ _ _ _ _) as [queue' [e|]].
Qed.

Lemma cap_open_at_start (w : World) (start_url output_dir : str) max_pages :
  cap_allows_a_page max_pages ->
  cap_reached max_pages (loop_start w start_url output_dir) = false.
Proof.
  intros Hcap. destruct max_pages as [n|]; [|done].
  unfold cap_reached, loop_start, cap_allows_a_page in *. cbn [seen].
  rewrite size_empty. apply Z.leb_gt. lia.
Qed.

Lemma cap_shut_at_start (w : World) (start_url output_dir : str) max_pages :
  ~ cap_allows_a_page max_pages ->
  cap_reached max_pages (loop_start w start_url output_dir) = true.
Proof.
  intros Hcap. destruct max_pages as [n|]; [|by destruct Hcap].
  unfold cap_reached, loop_start, cap_allows_a_page in *. cbn [seen].
  rewrite size_empty. apply Z.leb_le. lia.
Qed.

End Turns.

(** ** The page cap *)

Section PageCap.
Context `{Urllib} `{Fetcher}.
Implicit Types (st : State).

Lemma fetched_length_seen st :
  crawl_inv st -> length (fetched (trace st)) = size (seen st).
Proof.
  intros (Hnd & Hiff & _).
  assert (seen st = list_to_set (fetched (trace st))) as ->.
  { apply set_eq. intros u. by rewrite elem_of_list_to_set, Hiff. }
  by rewrite size_list_to_set.
Qed.

Lemma seen_size_step (N : Z) base_netloc output_dir st :
  (0 <= N)%Z ->
  (Z.of_nat (size (seen st)) <= N)%Z ->
  (Z.of_nat
     (size (seen (step_state (loop_body base_netloc output_dir (Some N) st))))
   <= N)%Z.
Proof.
  intros HN Hsize.
  destruct (loop_body_seen_fetched base_netloc output_dir (Some N) st _ eq_refl)
    as [[Hs _] | (head & rest & current & _ & Hcap & _ & Hnew & Hs & _)];
    rewrite Hs.
  - done.
  - simpl in Hcap. apply Z.leb_gt in Hcap.
    rewrite size_union by (by apply disjoint_singleton_r).
    rewrite size_singleton. lia.
Qed.

(** Under a cap the loop ends: each turn shortens the frontier or
    brings the visited set one page closer to the cap. *)
Lemma run_loop_ends_under_cap (N : Z) base_netloc output_dir :
  forall (n : nat) st,
    (N - Z.of_nat (size (seen st)) <= Z.of_nat n)%Z ->
    exists fuel o,
      run_loop fuel base_netloc output_dir (Some N) st = Some o.
Proof.
  assert (Hone : forall st o,
             (forall st', loop_body base_netloc output_dir (Some N) st
                          <> Next st') ->
             o = match loop_body base_netloc output_dir (Some N) st with
                 | Exit st' => Returned st'
                 | Next st' => Returned st'
                 | Abort e st' => Raised e st'
                 end ->
             run_loop 1 base_netloc output_dir (Some N) st = Some o).
  { intros st o Hno ->. simpl.
    destruct (loop_body base_netloc output_dir (Some N) st) as [st'|st'|e st'];
      [done | by destruct (Hno st') | done]. }
  induction n as [|n IHn]; intros st Hm.
  - exists 1%nat, (Returned st). simpl.
    rewrite loop_body_exit; [done|]. right. simpl. apply Z.leb_le. lia.
  - remember (queue st) as q eqn:Hq'. symmetry in Hq'.
    revert st Hm Hq'. induction q as [|hd tl IHq]; intros st Hm Hq'.
    + exists 1%nat, (Returned st). simpl. by rewrite loop_body_exit by auto.
    + turn_cases base_netloc output_dir (Some N) st;
        try (eexists 1%nat, _; apply Hone; [by rewrite Hturn | by rewrite Hturn]).
      * (* the head was visited: the frontier is shorter *)
        rewrite Hq' in Hq. injection Hq as <- <-.
        destruct (IHq (mkState (seen st) tl (used_names st) (world st)
                         (trace st))) as (fuel & o & Hrun); [done | done |].
        exists (S fuel), o. simpl. by rewrite Hturn.
      * (* a failed fetch: the visited set is larger *)
        simpl in Hcap. apply Z.leb_gt in Hcap.
        match type of Hturn with
        | _ = Next ?st' => destruct (IHn st') as (fuel & o & Hloop)
        end.
        { cbn [seen]. rewrite size_union by (by apply disjoint_singleton_r).
          rewrite size_singleton. lia. }
        exists (S fuel), o. simpl. by rewrite Hturn.
      * (* a page written: the visited set is larger *)
        simpl in Hcap. apply Z.leb_gt in Hcap.
        match type of Hturn with
        | _ = Next ?st' => destruct (IHn st') as (fuel & o & Hloop)
        end.
        { cbn [seen]. rewrite size_union by (by apply disjoint_singleton_r).
          rewrite size_singleton. lia. }
        exists (S fuel), o. simpl. by rewrite Hturn.
Qed.

(** C4: with [max_pages = N], [N >= 0], the pages fetched are distinct
    and at most [N], at every moment of the run and at its end; a turn
    that finds the cap reached leaves the loop at once, whatever is
    left in the frontier; and the run does end. *)
Theorem C4_page_cap (N : Z) (w : World) (start_url output_dir : str) :
  (0 <= N)%Z ->
  (forall base_netloc n,
      NoDup (fetched (trace (after_turns n base_netloc output_dir (Some N)
                               (loop_start w start_url output_dir)))) /\
      (Z.of_nat
         (length (fetched (trace (after_turns n base_netloc output_dir (Some N)
                                    (loop_start w start_url output_dir)))))
       <= N)%Z) /\
  (forall base_netloc st,
      cap_reached (Some N) st = true ->
      loop_body base_netloc output_dir (Some N) st = Exit st) /\
  (exists fuel o, crawl_site fuel w start_url output_dir (Some N) = Some o) /\
  (forall fuel o,
      crawl_site fuel w start_url output_dir (Some N) = Some o ->
      NoDup (fetched (trace (outcome_state o))) /\
      (Z.of_nat (length (fetched (trace (outcome_state o)))) <= N)%Z).
Proof.
  intros HN.
  set (P := fun st => crawl_inv st /\ (Z.of_nat (size (seen st)) <= N)%Z).
  assert (Pstep : forall base_netloc st,
             P st ->
             P (step_state (loop_body base_netloc output_dir (Some N) st))).
  { intros base_netloc st [Hinv Hsize]. split;
      [by apply crawl_inv_step | by apply seen_size_step]. }
  assert (Pend : forall st,
             P st ->
             NoDup (fetched (trace st)) /\
             (Z.of_nat (length (fetched (trace st))) <= N)%Z).
  { intros st [Hinv Hsize]. split; [apply Hinv|].
    by rewrite fetched_length_seen. }
  assert (Pstart : P (loop_start w start_url output_dir)).
  { split; [apply crawl_inv_start|].
    unfold loop_start. cbn [seen]. rewrite size_empty. lia. }
  assert (Pentry : P (entry_state w)).
  { split; [apply crawl_inv_entry|].
    unfold entry_state. cbn [seen]. rewrite size_empty. lia. }
  split; [|split; [|split]].
  - intros base_netloc n. apply Pend. apply after_turns_ind; [|done].
    apply Pstep.
  - intros base_netloc st Hcap. apply loop_body_exit. by right.
  - unfold crawl_site.
    destruct (urlparse start_url) as [parsed|e]; [|by eexists 0%nat, _].
    cbv zeta.
    destruct (netloc parsed) as [|c host]; [by eexists 0%nat, _|].
    apply (run_loop_ends_under_cap N _ _ (Z.to_nat N)).
    unfold loop_start. cbn [seen]. rewrite size_empty. lia.
  - intros fuel o Hrun. apply Pend.
    by apply (crawl_site_ind P w start_url output_dir (Some N)) in Hrun.
Qed.

End PageCap.

(** ** Splitting at a character *)

Lemma contains_false (c : char) (s : str) : contains c s = false <-> c ∉ s.
Proof.
  unfold contains. induction s as [|x s IH]; simpl.
  - split; [intros _; apply not_elem_of_nil | done].
  - rewrite not_elem_of_cons, orb_false_iff, IH, N.eqb_neq. done.
Qed.

Lemma contains_true (c : char) (s : str) : contains c s = true <-> c ∈ s.
Proof.
  destruct (contains c s) eqn:Hc.
  - split; [intros _|done]. destruct (decide (c ∈ s)) as [|Hn]; [done|].
    apply contains_false in Hn. congruence.
  - apply contains_false in Hc. split; [done | by intros ?].
Qed.

Lemma break_at_some (c : char) (s a b : str) :
  break_at c s = Some (a, b) -> s = a ++ c :: b /\ c ∉ a.
Proof.
  revert a. induction s as [|x s IH]; intros a; simpl; [done|].
  destruct (x =? c) eqn:Hx.
  - apply N.eqb_eq in Hx. intros [= <- <-]. subst x.
    split; [done | apply not_elem_of_nil].
  - apply N.eqb_neq in Hx.
    destruct (break_at c s) as [[a' b']|]; [|done].
    intros [= <- <-]. destruct (IH a' eq_refl) as [-> Ha].
    split; [done|]. apply not_elem_of_cons. split; [congruence | done].
Qed.

Lemma break_at_none (c : char) (s : str) : break_at c s = None <-> c ∉ s.
Proof.
  induction s as [|x s IH]; simpl.
  - split; [intros _; apply not_elem_of_nil | done].
  - rewrite not_elem_of_cons. destruct (x =? c) eqn:Hx.
    + apply N.eqb_eq in Hx. split; [done | intros [Hne _]; by destruct Hne].
    + apply N.eqb_neq in Hx.
      destruct (break_at c s) as [[a b]|].
      * split; [done|]. intros [_ Hs]. by apply IH in Hs.
      * split; [|done]. intros _. split; [congruence | by apply IH].
Qed.

(** Both parts of [split_once] are made of characters of the string,
    and the first part is free of the separator. *)
Lemma split_once_parts (c : char) (s a b : str) :
  split_once c s = (a, b) ->
  (forall x, x ∈ a \/ x ∈ b -> x ∈ s) /\ c ∉ a.
Proof.
  unfold split_once. destruct (break_at c s) as [[a' b']|] eqn:Hb.
  - intros [= <- <-]. apply break_at_some in Hb as [-> Ha].
    split; [|done]. intros x. rewrite elem_of_app, elem_of_cons. tauto.
  - intros [= <- <-]. split; [|by apply break_at_none].
    intros x [Hx | Hx]; [done | by apply elem_of_nil in Hx].
Qed.

(** A URL without a hash sign is all there is before the hash sign. *)
Lemma before_hash_plain (u : str) : 35 ∉ u -> before_hash u = u.
Proof.
  intros Hu. unfold before_hash, split_once.
  apply break_at_none in Hu. by rewrite Hu.
Qed.

(** ** The model of [urllib.parse] keeps the laws of the interface *)

Module UrllibParseFacts.
Import UrllibParse.

Section Tables.
Variable nfkc : str -> str.
Variable repr : str -> str.

Lemma splitnetloc_no_hash (s a b : str) : splitnetloc s = (a, b) -> 35 ∉ a.
Proof.
  revert a. induction s as [|c s IH]; intros a; simpl.
  - intros [= <- <-]. apply not_elem_of_nil.
  - destruct (is_netloc_delim c) eqn:Hc.
    + intros [= <- <-]. apply not_elem_of_nil.
    + destruct (splitnetloc s) as [a' b']. intros [= <- <-].
      apply not_elem_of_cons. split; [|by apply IH].
      intros <-. done.
Qed.

Lemma scheme_char_lower (x : char) :
  contains x scheme_chars = true -> ascii_lower x <> 35.
Proof.
  intros Hx Hl.
  assert (x = 35) as ->.
  { unfold ascii_lower in Hl.
    destruct ((65 <=? x) && (x <=? 90)) eqn:Hr; [|done].
    apply andb_true_iff in Hr as [Hr _]. apply N.leb_le in Hr. lia. }
  vm_compute in Hx. done.
Qed.

Lemma split_scheme_no_hash (default url sch rest : str) :
  split_scheme default url = (sch, rest) -> 35 ∉ default -> 35 ∉ sch.
Proof.
  unfold split_scheme.
  destruct (break_at 58 url) as [[[|c pre] post]|];
    try (by intros [= <- <-]).
  destruct (is_ascii_alpha c && forallb _ (c :: pre)) eqn:Hok;
    [|by intros [= <- <-]].
  intros [= <- <-] _. apply andb_true_iff in Hok as [_ Hall].
  rewrite forallb_forall in Hall.
  intros Hin. change (35 ∈ map ascii_lower (c :: pre)) in Hin.
  apply list_elem_of_In, in_map_iff in Hin as (x & Hx & Hin).
  by apply (scheme_char_lower x); [apply Hall|].
Qed.

Lemma splitparams_parts (url a b : str) :
  contains 59 url = true ->
  splitparams url = (a, b) ->
  forall x, x ∈ a \/ x ∈ b -> x ∈ url.
Proof.
  intros Hsemi. unfold splitparams. destruct (contains 47 url).
  - destruct (break_at 47 (rev url)) as [[a0 b0]|] eqn:Hr;
      [|by intros [= <- <-] x [Hx | Hx%elem_of_nil]].
    apply break_at_some in Hr as [Hr _].
    assert (url = rev b0 ++ 47 :: rev a0) as Hurl.
    { rewrite <- (rev_involutive url), Hr, rev_app_distr. simpl.
      by rewrite <- app_assoc. }
    destruct (break_at 59 (47 :: rev a0)) as [[x0 y0]|] eqn:Hp;
      [|by intros [= <- <-] x [Hx | Hx%elem_of_nil]].
    apply break_at_some in Hp as [Hp _].
    intros [= <- <-] x. rewrite Hurl, Hp, !elem_of_app, elem_of_cons. tauto.
  - destruct (break_at 59 url) as [[x0 y0]|] eqn:Hp.
    + apply break_at_some in Hp as [-> _].
      intros [= <- <-] x. rewrite elem_of_app, elem_of_cons. tauto.
    + apply break_at_none, contains_false in Hp. congruence.
Qed.

Lemma urlsplit_no_hash (url sch nl p q f : str) :
  urlsplit nfkc repr url [] = Ok (sch, nl, p, q, f) ->
  (35 ∉ sch) /\ (35 ∉ nl) /\ (35 ∉ p) /\ (35 ∉ q).
Proof.
  unfold urlsplit.
  destruct (split_scheme _ _) as [sch' url2] eqn:Hsch.
  apply split_scheme_no_hash in Hsch; [|apply not_elem_of_nil].
  assert (exists nl' url3 has,
             (if startswith (lit "//") url2
              then let '(n, u) := splitnetloc (drop 2 url2) in (n, u, true)
              else ([], url2, false)) = (nl', url3, has) /\ 35 ∉ nl')
    as (nl' & url3 & has & -> & Hnl).
  { destruct (startswith (lit "//") url2).
    - destruct (splitnetloc (drop 2 url2)) as [nl' url3] eqn:Hn.
      exists nl', url3, true. split; [done | by eapply splitnetloc_no_hash].
    - exists [], url2, false. split; [done | apply not_elem_of_nil]. }
  destruct (if has then check_netloc nfkc repr nl' else checknetloc nfkc nl')
    as [[]|e]; [|done].
  destruct (split_once 35 url3) as [url4 f'] eqn:Hf.
  apply split_once_parts in Hf as [_ Hurl4].
  destruct (split_once 63 url4) as [url5 q'] eqn:Hq.
  apply split_once_parts in Hq as [Hparts _].
  intros [= <- <- <- <- <-].
  repeat split; try done; intros Hin; apply Hurl4, Hparts; auto.
Qed.

Lemma urlparse_no_hash (url : str) (r : ParseResult) :
  urlparse nfkc repr url [] = Ok r ->
  (35 ∉ scheme r) /\ (35 ∉ netloc r) /\ (35 ∉ path r) /\ (35 ∉ params r)
  /\ (35 ∉ query r).
Proof.
  unfold urlparse.
  destruct (urlsplit nfkc repr url []) as [[[[[sch nl] p] q] f]|e] eqn:Hs;
    [|done].
  apply urlsplit_no_hash in Hs as (Hsch & Hnl & Hp & Hq).
  destruct (mem sch uses_params && contains 59 p) eqn:Hu.
  - apply andb_true_iff in Hu as [_ Hsemi].
    destruct (splitparams p) as [p' a] eqn:Hsp. intros [= <-]. simpl.
    pose proof (splitparams_parts p p' a Hsemi Hsp) as Hparts.
    repeat split; try done; intros Hin; apply Hp, Hparts; auto.
  - intros [= <-]. simpl. repeat split; try done. apply not_elem_of_nil.
Qed.

Lemma no_hash_app (a b : str) : 35 ∉ a -> 35 ∉ b -> 35 ∉ a ++ b.
Proof. intros Ha Hb. by apply not_elem_of_app. Qed.

Lemma no_hash_lit (s : str) : contains 35 s = false -> 35 ∉ s.
Proof. apply contains_false. Qed.

Lemma urlunparse_no_hash (sch nl p a q : str) :
  35 ∉ sch -> 35 ∉ nl -> 35 ∉ p -> 35 ∉ a -> 35 ∉ q ->
  35 ∉ urlunparse sch nl p a q [].
Proof.
  intros Hsch Hnl Hp Ha Hq. unfold urlunparse, urlunsplit.
  cbn [nonempty].
  repeat match goal with
         | |- context [if ?b then _ else _] => destruct b
         end;
    repeat first [ done
                 | apply no_hash_app
                 | apply no_hash_lit; reflexivity ].
Qed.

Lemma urldefrag_no_hash (url v : str) :
  urldefrag nfkc repr url = Ok v -> 35 ∉ v.
Proof.
  unfold urldefrag. destruct (contains 35 url) eqn:Hc.
  - destruct (urlparse nfkc repr url []) as [p|e] eqn:Hp; [|done].
    intros [= <-].
    destruct (urlparse_no_hash url p Hp) as (? & ? & ? & ? & ?).
    by apply urlunparse_no_hash.
  - intros [= <-]. by apply contains_false.
Qed.

(** What the model raises: every exception is one of the five
    errors. *)
Lemma check_bracketed_host_raises (hostname : str) (e : exn) :
  check_bracketed_host repr hostname = Raise e -> urllib_error repr e.
Proof.
  unfold check_bracketed_host, urllib_error.
  repeat match goal with
         | |- context [if ?b then _ else _] => destruct b
         end; try done; intros [= <-]; eauto 10.
Qed.

Lemma check_bracketed_netloc_raises (netloc : str) (e : exn) :
  check_bracketed_netloc repr netloc = Raise e -> urllib_error repr e.
Proof.
  unfold check_bracketed_netloc. cbv zeta.
  destruct (partition 91 _) as [before [bracketed|]].
  - destruct (nonempty before); [intros [= <-]; by left|].
    destruct (partition 93 bracketed) as [hostname port].
    destruct (nonempty _ && _); [intros [= <-]; by left|].
    apply check_bracketed_host_raises.
  - apply check_bracketed_host_raises.
Qed.

Lemma checknetloc_raises (netloc : str) (e : exn) :
  checknetloc nfkc netloc = Raise e -> urllib_error repr e.
Proof.
  unfold checknetloc, urllib_error. cbv zeta.
  repeat match goal with
         | |- context [if ?b then _ else _] => destruct b
         end; try done; intros [= <-]; eauto 10.
Qed.

Lemma check_netloc_raises (netloc : str) (e : exn) :
  check_netloc nfkc repr netloc = Raise e -> urllib_error repr e.
Proof.
  unfold check_netloc.
  destruct (_ || _); [intros [= <-]; by left|].
  destruct (contains 91 netloc && contains 93 netloc).
  - destruct (check_bracketed_netloc repr netloc) as [[]|e'] eqn:Hb.
    + apply checknetloc_raises.
    + intros [= <-]. by eapply check_bracketed_netloc_raises.
  - apply checknetloc_raises.
Qed.

Lemma urlsplit_raises (url sch : str) (e : exn) :
  urlsplit nfkc repr url sch = Raise e -> urllib_error repr e.
Proof.
  unfold urlsplit. cbv zeta.
  destruct (split_scheme _ _) as [sch' url2].
  destruct (startswith (lit "//") url2).
  - destruct (splitnetloc (drop 2 url2)) as [nl url3].
    destruct (check_netloc nfkc repr nl) as [[]|e'] eqn:Hc.
    + destruct (split_once 35 url3) as [url4 f].
      by destruct (split_once 63 url4).
    + intros [= <-]. by eapply check_netloc_raises.
  - destruct (checknetloc nfkc []) as [[]|e'] eqn:Hc.
    + destruct (split_once 35 url2) as [url4 f].
      by destruct (split_once 63 url4).
    + intros [= <-]. by eapply checknetloc_raises.
Qed.

Lemma urlparse_raises (url sch : str) (e : exn) :
  urlparse nfkc repr url sch = Raise e -> urllib_error repr e.
Proof.
  unfold urlparse.
  destruct (urlsplit nfkc repr url sch) as [[[[[s nl] p] q] f]|e'] eqn:Hs.
  - by destruct (if mem s uses_params && contains 59 p then splitparams p
                 else (p, [])).
  - intros [= <-]. by eapply urlsplit_raises.
Qed.

Lemma urldefrag_raises (url : str) (e : exn) :
  urldefrag nfkc repr url = Raise e -> urllib_error repr e.
Proof.
  unfold urldefrag. destruct (contains 35 url); [|done].
  destruct (urlparse nfkc repr url []) as [p|e'] eqn:Hp; [done|].
  intros [= <-]. by eapply urlparse_raises.
Qed.

Lemma urljoin_raises (base url : str) (e : exn) :
  urljoin nfkc repr base url = Raise e -> urllib_error repr e.
Proof.
  unfold urljoin. destruct base as [|b0 base]; [done|].
  destruct url as [|u0 url]; [done|].
  destruct (urlparse nfkc repr (b0 :: base) []) as [b|e'] eqn:Hb;
    [|intros [= <-]; by eapply urlparse_raises].
  destruct (urlparse nfkc repr (u0 :: url) (scheme b)) as [p|e'] eqn:Hp;
    [|intros [= <-]; by eapply urlparse_raises].
  cbv zeta.
  repeat match goal with
         | |- context [if ?c then _ else _] => destruct c
         end; done.
Qed.

(** None of the five is the error of line 50. *)
Lemma urllib_error_not_invalid_start (e : exn) :
  urllib_error repr e -> e <> invalid_start_url.
Proof.
  unfold invalid_start_url.
  intros [-> | [-> | [-> | [[h ->] | [n ->]]]]] Heq;
    injection Heq as Heq; try (vm_compute in Heq; discriminate Heq);
    apply (f_equal length) in Heq; rewrite !length_app in Heq;
    simpl in Heq; lia.
Qed.

End Tables.

End UrllibParseFacts.

(** The three laws hold of the model, whatever the tables of NFKC and
    of [repr]. *)
Lemma urllib_model_laws (nfkc repr : str -> str) :
  @UrllibLaws (urllib_model nfkc repr).
Proof.
  split; simpl.
  - intros u Hu. unfold UrllibParse.urldefrag.
    apply contains_false in Hu. by rewrite Hu.
  - apply UrllibParseFacts.urldefrag_no_hash.
  - intros u p Hp. unfold UrllibParse.urldefrag. rewrite Hp.
    destruct (contains 35 u); eauto.
Qed.

#[global] Existing Instance urllib_model_laws.

Lemma cpython_urllib_laws : @UrllibLaws cpython_urllib.
Proof. apply urllib_model_laws. Qed.

#[global] Existing Instance cpython_urllib_laws.

(** ** The visited set *)

Section VisitedSet.
Context `{Urllib} `{!UrllibLaws} `{Fetcher}.
Implicit Types (st : State).

(** Under the invariant of the loop and the laws of [urldefrag] the
    visited set holds one entry for each page. *)
Lemma crawl_inv_one_entry st : crawl_inv st -> one_entry_per_page st.
Proof.
  intros (Hnd & Hiff & Hdefrag). unfold one_entry_per_page.
  assert (Hplain : forall u, u ∈ seen st -> 35 ∉ u).
  { intros u [x Hx]%Hdefrag. by eapply urldefrag_no_fragment. }
  split; [done|]. split; [|split; [done|]].
  - intros u v Hu Hv.
    by rewrite (before_hash_plain u), (before_hash_plain v) by auto.
  - rewrite (map_ext_in before_hash id), map_id; [done|].
    intros u Hu. apply before_hash_plain, Hplain, Hiff.
    by apply list_elem_of_In.
Qed.

(** C6: no URL of the visited set contains a hash sign, so no two of
    them are the same page under two fragments; the URLs fetched are
    the URLs of the visited set, and no two fetches are of the same
    page, fragments left aside ([one_entry_per_page]).  This holds
    after any number of turns and at the end of every call.  Both
    membership tests are made on a URL without fragment: a turn takes
    the head of the frontier without its fragment, skips it without a
    fetch when it is in the visited set and adds it otherwise; and the
    targets of the links that are tested against the visited set have
    no fragment either. *)
Theorem C6_visited_without_fragment
    (w : World) (start_url output_dir : str) (max_pages : option Z) :
  (forall base_netloc n,
      one_entry_per_page
        (after_turns n base_netloc output_dir max_pages
           (loop_start w start_url output_dir))) /\
  (forall fuel o,
      crawl_site fuel w start_url output_dir max_pages = Some o ->
      one_entry_per_page (outcome_state o)) /\
  (forall base_netloc st head rest current,
      queue st = head :: rest ->
      cap_reached max_pages st = false ->
      urldefrag head = Ok current ->
      (35 ∉ current) /\
      (current ∈ seen st ->
       loop_body base_netloc output_dir max_pages st =
         Next (mkState (seen st) rest (used_names st) (world st) (trace st)))
      /\
      (current ∉ seen st ->
       seen (step_state (loop_body base_netloc output_dir max_pages st)) =
         seen st ∪ {[current]} /\
       fetched (trace (step_state
                         (loop_body base_netloc output_dir max_pages st))) =
         fetched (trace st) ++ [current])) /\
  (forall (result_url : str) (ls : list (gmap str str))
          (target : str * ParseResult),
      target ∈ returned_prefix (omap (resolve_link result_url) ls) ->
      35 ∉ target.1).
Proof.
  split; [|split; [|split]].
  - intros base_netloc n. apply crawl_inv_one_entry, after_turns_ind;
      [intros st; apply crawl_inv_step | apply crawl_inv_start].
  - intros fuel o Hrun. apply crawl_inv_one_entry.
    apply (crawl_site_ind crawl_inv w start_url output_dir max_pages) in Hrun;
      [done | apply crawl_inv_entry | apply crawl_inv_start |].
    intros base_netloc st. apply crawl_inv_step.
  - intros base_netloc st head rest current Hq Hcap Hdefrag.
    split; [by eapply urldefrag_no_fragment|]. split.
    + intros Hin. by eapply loop_body_revisit.
    + intros Hnew.
      destruct (loop_body_seen_fetched base_netloc output_dir max_pages st
                  _ eq_refl)
        as [[Hs Hf] | (head' & rest' & current' & Hq' & _ & Hd' & _ & Hs & Hf)].
      * exfalso. revert Hs Hf.
        destruct (arun (world st) current) as [w' r] eqn:Hrun.
        destruct (success r) eqn:Hok.
        -- destruct (_extract_title (metadata r) (html r) (url r))
             as [title|e] eqn:Ht.
           ++ rewrite (loop_body_success _ _ _ st head rest current w' r title
                         Hq Hcap Hdefrag Hnew Hrun Hok Ht _ eq_refl).
              destruct (visit_links _ _ _ _ _).2; cbn [step_state seen trace];
                rewrite fetched_snoc_write, fetched_snoc_fetch;
                intros _ Hf; apply (f_equal length) in Hf;
                rewrite length_app in Hf; simpl in Hf; lia.
           ++ rewrite (loop_body_title_raises _ _ _ st head rest current w' r e)
                by done.
              cbn [step_state seen trace]. rewrite fetched_snoc_fetch.
              intros _ Hf. apply (f_equal length) in Hf.
              rewrite length_app in Hf. simpl in Hf. lia.
        -- rewrite (loop_body_failure _ _ _ st head rest current w' r) by done.
           cbn [step_state seen trace].
           rewrite fetched_snoc_print, fetched_snoc_fetch.
           intros _ Hf. apply (f_equal length) in Hf.
           rewrite length_app in Hf. simpl in Hf. lia.
      * rewrite Hq in Hq'. injection Hq' as <- <-.
        rewrite Hdefrag in Hd'. injection Hd' as <-. done.
  - intros result_url ls target.
    induction ls as [|link ls IH]; simpl; [by intros ?%elem_of_nil|].
    unfold resolve_link at 1.
    destruct (link !! lit "href") as [[|c href]|]; [done | | done].
    destruct (urljoin result_url (c :: href)) as [abs|e];
      [|by intros ?%elem_of_nil].
    destruct (urldefrag abs) as [abs'|e] eqn:Hd; [|by intros ?%elem_of_nil].
    destruct (urlparse abs') as [parsed|e]; [|by intros ?%elem_of_nil].
    simpl. intros [-> | Hin]%elem_of_cons; [|auto].
    simpl. by eapply urldefrag_no_fragment.
Qed.

End VisitedSet.

(** ** The links of a page *)

Section Links.
Context `{Urllib} `{Fetcher}.
Implicit Types (st : State).

(** C7, amended: the links of a page that loaded are taken in their
    order, up to the first one that [urljoin], [urldefrag] or
    [urlparse] refuses; a link without [href] or with an empty one is
    passed over.  Each of the others is resolved against the final URL
    of the page and loses its fragment; it joins the end of the
    frontier exactly when its scheme is http or https, its network
    location is that of the start URL, character for character, and it
    is not in the visited set; the others leave no trace.  The second
    part says that this is what a turn of the loop does with a page
    that loaded, after the file of the page was written: the turn goes
    on to the next when no link is refused and raises the exception of
    the refused link otherwise, with the links before it taken. *)
Theorem C7_link_filter (base_netloc output_dir : str) :
  (forall (result_url : str) (seen : gset str) (queue : list str)
          (ls : list (gmap str str)),
      visit_links base_netloc result_url seen queue ls =
        (queue ++ map fst (filter (link_accepted base_netloc seen)
                             (returned_prefix
                                (omap (resolve_link result_url) ls))),
         first_raise (omap (resolve_link result_url) ls))) /\
  (forall max_pages st head rest current w' r title,
      queue st = head :: rest ->
      cap_reached max_pages st = false ->
      urldefrag head = Ok current ->
      current ∉ seen st ->
      arun (world st) current = (w', r) ->
      success r = true ->
      _extract_title (metadata r) (html r) (url r) = Ok title ->
      exists st',
        loop_body base_netloc output_dir max_pages st =
          match first_raise (omap (resolve_link (url r)) (internal_links r))
          with
          | None => Next st'
          | Some e => Abort e st'
          end /\
        seen st' = seen st ∪ {[current]} /\
        queue st' =
          rest ++ map fst (filter (link_accepted base_netloc (seen st'))
                             (returned_prefix
                                (omap (resolve_link (url r))
                                   (internal_links r)))) /\
        written (trace st') =
          written (trace st) ++
            [(os_path_join output_dir
                (make_filename (_sanitize_filename title)
                   (default 0%nat
                      (used_names st !! _sanitize_filename title))),
              _get_markdown r)]).
Proof.
  split; [intros; apply visit_links_spec|].
  intros max_pages st head rest current w' r title Hq Hcap Hdefrag Hnew Hrun
    Hok Ht.
  eexists. split; [|split; [|split]].
  - rewrite (loop_body_success _ _ _ st head rest current w' r title
               Hq Hcap Hdefrag Hnew Hrun Hok Ht _ eq_refl).
    by rewrite visit_links_spec.
  - done.
  - cbn [queue seen fst]. reflexivity.
  - cbn [trace]. by rewrite written_snoc_write, written_snoc_fetch.
Qed.

End Links.

(** ** Failed fetches *)

Section FailedFetch.
Context `{Urllib} `{Fetcher}.
Implicit Types (st : State).

(** Of [urllib.parse] the second part takes that [urldefrag] returns
    wherever [urlparse] does. *)
Hypothesis urldefrag_returns :
  forall u p, urlparse u = Ok p -> exists v, urldefrag u = Ok v.

(** C8: a turn whose fetch fails prints one line, of the form
    [Skip (failed): <url> -> <error message>], writes no file, takes
    nothing into the frontier or the name registry, and goes on to the
    next turn.  When every fetch fails, the call returns, having
    written no file and printed one line for each fetch (given that
    [urldefrag] returns on the start URL, as it does wherever
    [urlparse] has returned). *)
Theorem C8_failed_fetch_is_skipped
    (w : World) (start_url output_dir : str) (max_pages : option Z) :
  (forall base_netloc st head rest current w' r,
      queue st = head :: rest ->
      cap_reached max_pages st = false ->
      urldefrag head = Ok current ->
      current ∉ seen st ->
      arun (world st) current = (w', r) ->
      success r = false ->
      exists st',
        loop_body base_netloc output_dir max_pages st = Next st' /\
        trace st' =
          trace st ++
            [Fetch current;
             Print (lit "Skip (failed): " ++ current ++ lit " -> "
                    ++ format_opt (error_message r))] /\
        written (trace st') = written (trace st) /\
        queue st' = rest /\
        used_names st' = used_names st) /\
  ((forall w' u, success (arun w' u).2 = false) ->
   forall parsed,
     urlparse start_url = Ok parsed ->
     netloc parsed <> [] ->
     exists fuel st,
       crawl_site fuel w start_url output_dir max_pages = Some (Returned st) /\
       written (trace st) = [] /\
       length (printed (trace st)) = length (fetched (trace st))).
Proof.
  split.
  - intros base_netloc st head rest current w' r Hq Hcap Hdefrag Hnew Hrun
      Hfail.
    rewrite (loop_body_failure _ _ _ _ head rest current w' r) by done.
    eexists. split; [reflexivity|]. cbn [trace queue used_names].
    split; [by rewrite <- app_assoc|].
    split; [|done].
    by rewrite written_snoc_print, written_snoc_fetch.
  - intros Hall parsed Hparsed Hhost.
    destruct (crawl_site_cases 0 w start_url output_dir max_pages)
      as [(e & He & _) | [(p' & Hp' & Hn' & _) | (p' & Hp' & _ & _)]];
      [congruence | congruence |].
    assert (Hrun : forall fuel,
               crawl_site fuel w start_url output_dir max_pages =
                 run_loop fuel (netloc parsed) output_dir max_pages
                   (loop_start w start_url output_dir)).
    { intros fuel. unfold crawl_site. rewrite Hparsed. cbv zeta.
      by destruct (netloc parsed). }
    set (st0 := loop_start w start_url output_dir) in *.
    destruct (cap_reached max_pages st0) eqn:Hcap.
    + exists 1%nat, st0. rewrite Hrun. simpl.
      by rewrite loop_body_exit by auto.
    + destruct (urldefrag_returns start_url parsed Hparsed)
        as [current Hdefrag].
      destruct (arun w current) as [w1 r] eqn:Harun.
      assert (success r = false) as Hfail.
      { specialize (Hall w current). by rewrite Harun in Hall. }
      eexists 2%nat, _. rewrite Hrun. simpl.
      rewrite (loop_body_failure _ _ _ st0 start_url [] current w1 r);
        [|done|done|done|apply not_elem_of_empty|done|done].
      rewrite loop_body_exit by auto. done.
Qed.

End FailedFetch.

(** ** The start URL *)

Section StartUrl.
Context `{Urllib} `{Fetcher}.
Implicit Types (st : State).

(** Of [urllib.parse] this section takes that [urldefrag] returns
    wherever [urlparse] does. *)
Hypothesis urldefrag_returns :
  forall u p, urlparse u = Ok p -> exists v, urldefrag u = Ok v.

Lemma fetched_prefix_step base_netloc output_dir max_pages st :
  fetched (trace st) `prefix_of`
    fetched (trace (step_state (loop_body base_netloc output_dir max_pages st))).
Proof.
  destruct (loop_body_seen_fetched base_netloc output_dir max_pages st _ eq_refl)
    as [[_ Hf] | (head & rest & current & _ & _ & _ & _ & _ & Hf)]; rewrite Hf.
  - done.
  - by apply prefix_app_r.
Qed.

Lemma fetched_prefix_after_turns base_netloc output_dir max_pages n st :
  fetched (trace st) `prefix_of`
    fetched (trace (after_turns n base_netloc output_dir max_pages st)).
Proof.
  revert st. induction n as [|n IH]; intros st; simpl; [done|].
  pose proof (fetched_prefix_step base_netloc output_dir max_pages st) as Hstep.
  destruct (loop_body base_netloc output_dir max_pages st) as [st'|st'|e st'];
    simpl in Hstep; [done| |done].
  etrans; [exact Hstep | apply IH].
Qed.

(** The first turn when the cap lets it run: the start URL leaves the
    frontier, loses its fragment, enters the visited set and is
    fetched. *)
Lemma first_turn (w : World) (start_url output_dir current : str)
    (base_netloc : str) (max_pages : option Z) :
  cap_allows_a_page max_pages ->
  urldefrag start_url = Ok current ->
  forall st1,
    st1 = step_state (loop_body base_netloc output_dir max_pages
                        (loop_start w start_url output_dir)) ->
    seen st1 = {[current]} /\ fetched (trace st1) = [current].
Proof.
  intros Hcap Hdefrag st1 ->.
  set (st0 := loop_start w start_url output_dir).
  pose proof (cap_open_at_start w start_url output_dir max_pages Hcap) as Hc.
  fold st0 in Hc.
  assert (current ∉ seen st0) as Hnew by apply not_elem_of_empty.
  assert (seen st0 ∪ {[current]} = {[current]})
    as Hseen by (unfold st0, loop_start; cbn [seen]; apply (left_id_L ∅ (∪))).
  destruct (arun w current) as [w' r] eqn:Hrun.
  destruct (success r) eqn:Hok.
  - destruct (_extract_title (metadata r) (html r) (url r)) as [title|e] eqn:Ht.
    + rewrite (loop_body_success _ _ _ st0 start_url [] current w' r title
                 eq_refl Hc Hdefrag Hnew Hrun Hok Ht _ eq_refl).
      destruct (visit_links _ _ _ _ _).2; cbn [step_state seen trace];
        (split; [done|]);
        by rewrite fetched_snoc_write, fetched_snoc_fetch.
    + rewrite (loop_body_title_raises _ _ _ st0 start_url [] current w' r e)
        by done.
      cbn [step_state seen trace]. split; [done|].
      by rewrite fetched_snoc_fetch.
  - rewrite (loop_body_failure _ _ _ st0 start_url [] current w' r) by done.
    cbn [step_state seen trace]. split; [done|].
    by rewrite fetched_snoc_print, fetched_snoc_fetch.
Qed.

Lemma after_one_turn base_netloc output_dir max_pages st :
  after_turns 1 base_netloc output_dir max_pages st =
    step_state (loop_body base_netloc output_dir max_pages st).
Proof.
  simpl. by destruct (loop_body base_netloc output_dir max_pages st).
Qed.

Lemma crawl_site_accepted (w : World) (start_url output_dir : str) max_pages
    parsed :
  urlparse start_url = Ok parsed ->
  netloc parsed <> [] ->
  forall fuel,
    crawl_site fuel w start_url output_dir max_pages =
      run_loop fuel (netloc parsed) output_dir max_pages
        (loop_start w start_url output_dir).
Proof.
  intros Hparsed Hhost fuel. unfold crawl_site. rewrite Hparsed. cbv zeta.
  by destruct (netloc parsed).
Qed.

(** C5, amended: when the loop is entered the visited set is empty and
    the frontier holds the start URL as it was given, fragment and
    all.  The fragment is stripped in the first turn of the loop: when
    the cap lets that turn run, it puts the start URL without its
    fragment into the visited set and fetches it ([urldefrag] returns
    on the start URL because [urlparse] has returned on it). *)
Theorem C5_frontier_seeded_as_given
    (w : World) (start_url output_dir : str) (max_pages : option Z) :
  (forall fuel parsed,
      urlparse start_url = Ok parsed ->
      netloc parsed <> [] ->
      crawl_site fuel w start_url output_dir max_pages =
        run_loop fuel (netloc parsed) output_dir max_pages
          (loop_start w start_url output_dir)) /\
  seen (loop_start w start_url output_dir) = ∅ /\
  queue (loop_start w start_url output_dir) = [start_url] /\
  (cap_allows_a_page max_pages ->
   forall parsed,
     urlparse start_url = Ok parsed ->
     exists current,
       urldefrag start_url = Ok current /\
       forall base_netloc,
         seen (after_turns 1 base_netloc output_dir max_pages
                 (loop_start w start_url output_dir)) = {[current]} /\
         fetched (trace (after_turns 1 base_netloc output_dir max_pages
                           (loop_start w start_url output_dir))) = [current]).
Proof.
  split; [|split; [done|split; [done|]]].
  - intros fuel parsed Hparsed Hhost. by apply crawl_site_accepted.
  - intros Hcap parsed Hparsed.
    destruct (urldefrag_returns start_url parsed Hparsed)
      as [current Hdefrag].
    exists current. split; [done|]. intros base_netloc.
    rewrite after_one_turn. by eapply first_turn.
Qed.

Lemma trace_starts_with_makedirs base_netloc output_dir max_pages st :
  head (trace st) = Some (Makedirs output_dir) ->
  head (trace (step_state (loop_body base_netloc output_dir max_pages st))) =
    Some (Makedirs output_dir).
Proof.
  intros Hhd.
  assert (Happ : forall l, head (trace st ++ l) = Some (Makedirs output_dir)).
  { intros l. destruct (trace st); [done|]. done. }
  turn_cases base_netloc output_dir max_pages st; rewrite Hturn;
    cbn [step_state trace]; rewrite <- ?app_assoc; auto.
Qed.

(** Where an exception of the call comes from. *)
Lemma first_raise_origin {A B : Type} (f : A -> option (result B))
    (ls : list A) (e : exn) :
  first_raise (omap f ls) = Some e ->
  exists x, x ∈ ls /\ f x = Some (Raise e).
Proof.
  induction ls as [|x ls IH]; simpl; [done|].
  destruct (f x) as [[b|e']|] eqn:Hx; simpl.
  - intros (y & Hy & Hfy)%IH. exists y. split; [by right | done].
  - intros [= <-]. exists x. split; [by left | done].
  - intros (y & Hy & Hfy)%IH. exists y. split; [by right | done].
Qed.

Lemma resolve_link_raise_origin (result_url : str) (link : gmap str str)
    (e : exn) :
  resolve_link result_url link = Some (Raise e) -> raised_by_urllib e.
Proof.
  unfold resolve_link, raised_by_urllib.
  destruct (link !! lit "href") as [[|c href]|]; [done | | done].
  destruct (urljoin result_url (c :: href)) as [abs|e1] eqn:Hj;
    [|intros [= <-]; eauto 10].
  destruct (urldefrag abs) as [abs'|e2] eqn:Hd; [|intros [= <-]; eauto 10].
  destruct (urlparse abs') as [parsed|e3] eqn:Hp; [done|].
  intros [= <-]. eauto 10.
Qed.

Lemma loop_body_abort_origin base_netloc output_dir max_pages st e st' :
  loop_body base_netloc output_dir max_pages st = Abort e st' ->
  e = no_unescape \/ raised_by_urllib e.
Proof.
  intros Hbody.
  turn_cases base_netloc output_dir max_pages st; rewrite Hturn in Hbody;
    try done; injection Hbody as <- <-.
  - right. right. left. by exists head.
  - apply extract_title_raise_origin in Ht as [-> | Ht]; [by left|].
    right. left. by eexists.
  - right. rewrite visit_links_spec in Hlinks. injection Hlinks as _ Herr.
    apply first_raise_origin in Herr as (link & _ & Hlink).
    by eapply resolve_link_raise_origin.
Qed.

Lemma crawl_site_raise_origin (w : World) (start_url output_dir : str)
    max_pages (fuel : nat) (e : exn) st :
  crawl_site fuel w start_url output_dir max_pages = Some (Raised e st) ->
  (e = invalid_start_url /\ st = entry_state w /\
   exists parsed, urlparse start_url = Ok parsed /\ netloc parsed = []) \/
  e = no_unescape \/
  raised_by_urllib e.
Proof.
  destruct (crawl_site_cases fuel w start_url output_dir max_pages)
    as [(e0 & He0 & ->) | [(ps & Hps & Hnl & ->) | (ps & _ & _ & ->)]].
  - intros [= <- <-]. right. right. left. by exists start_url.
  - intros [= <- <-]. left. split; [done|]. split; [done|]. by exists ps.
  - intros Hrun. right.
    apply (run_loop_outcome_ind (fun _ => True)
             (fun e _ => e = no_unescape \/ raised_by_urllib e)) in Hrun;
      [done | done | | done].
    intros st0 e0 st1 _. apply loop_body_abort_origin.
Qed.

(** C10, amended: the call raises the invalid-URL error exactly when
    [urlparse] takes the start URL and finds its network location
    empty, and then before any effect; a start URL that [urlparse]
    refuses raises the exception of [urlparse], before any effect as
    well.  The scheme of the start URL is not looked at.  For every
    start URL with a network location, whatever its scheme, the call
    enters the loop, having created the directory; the start URL
    without its fragment is the first URL fetched, unless the cap is
    zero or negative, in which case the call returns with nothing
    fetched.  Every other exception of the call is the
    [AttributeError] of line 30 or comes out of [urllib.parse]. *)
Theorem C10_start_url_scheme_is_free
    (w : World) (start_url output_dir : str) (max_pages : option Z) :
  (forall parsed,
      urlparse start_url = Ok parsed ->
      netloc parsed = [] ->
      forall fuel,
        crawl_site fuel w start_url output_dir max_pages =
          Some (Raised (ValueError (lit "Invalid start URL.")) (entry_state w))
        /\ trace (entry_state w) = []) /\
  (forall e,
      urlparse start_url = Raise e ->
      forall fuel,
        crawl_site fuel w start_url output_dir max_pages =
          Some (Raised e (entry_state w))
        /\ trace (entry_state w) = []) /\
  (forall parsed,
      urlparse start_url = Ok parsed ->
      netloc parsed <> [] ->
      (forall fuel,
          crawl_site fuel w start_url output_dir max_pages =
            run_loop fuel (netloc parsed) output_dir max_pages
              (loop_start w start_url output_dir)) /\
      (forall fuel o,
          crawl_site fuel w start_url output_dir max_pages = Some o ->
          head (trace (outcome_state o)) = Some (Makedirs output_dir)) /\
      (exists current,
          urldefrag start_url = Ok current /\
          (cap_allows_a_page max_pages ->
           forall n,
             head (fetched
                     (trace (after_turns (S n) (netloc parsed) output_dir
                               max_pages
                               (loop_start w start_url output_dir))))
             = Some current) /\
          (cap_allows_a_page max_pages ->
           forall fuel o,
             crawl_site fuel w start_url output_dir max_pages = Some o ->
             head (fetched (trace (outcome_state o))) = Some current)) /\
      (~ cap_allows_a_page max_pages ->
       forall fuel o,
         crawl_site fuel w start_url output_dir max_pages = Some o ->
         o = Returned (loop_start w start_url output_dir) /\
         fetched (trace (outcome_state o)) = [])) /\
  (forall fuel e st,
      crawl_site fuel w start_url output_dir max_pages = Some (Raised e st) ->
      (e = ValueError (lit "Invalid start URL.") /\ st = entry_state w /\
       exists parsed, urlparse start_url = Ok parsed /\ netloc parsed = []) \/
      e = AttributeError (lit "'str' object has no attribute 'unescape'") \/
      raised_by_urllib e).
Proof.
  split; [|split; [|split]]; [| | |apply crawl_site_raise_origin].
  - intros parsed Hparsed Hhost fuel. unfold crawl_site.
    rewrite Hparsed. cbv zeta. by rewrite Hhost.
  - intros e He fuel. unfold crawl_site. by rewrite He.
  - intros parsed Hparsed Hhost.
    pose proof (crawl_site_accepted w start_url output_dir max_pages parsed
                  Hparsed Hhost) as Hrun.
    destruct (urldefrag_returns start_url parsed Hparsed)
      as [current Hdefrag].
    assert (Hturns : cap_allows_a_page max_pages ->
              forall n,
                head (fetched
                        (trace (after_turns (S n) (netloc parsed) output_dir
                                  max_pages
                                  (loop_start w start_url output_dir))))
                = Some current).
    { intros Hcap n.
      destruct (first_turn w start_url output_dir current (netloc parsed)
                  max_pages Hcap Hdefrag _ eq_refl) as [_ Hf].
      set (st0 := loop_start w start_url output_dir) in *.
      assert (fetched (trace (step_state
                                (loop_body (netloc parsed) output_dir
                                   max_pages st0)))
                `prefix_of`
              fetched (trace (after_turns (S n) (netloc parsed) output_dir
                                max_pages st0))) as [k Hk].
      { simpl.
        destruct (loop_body (netloc parsed) output_dir max_pages st0)
          as [st'|st'|e st']; simpl; [done| |done].
        apply fetched_prefix_after_turns. }
      rewrite Hk, Hf. done. }
    split; [done|]. split; [|split].
    + intros fuel o. rewrite Hrun.
      apply (run_loop_ind
               (fun st => head (trace st) = Some (Makedirs output_dir)));
        [|done].
      intros st. apply trace_starts_with_makedirs.
    + exists current. split; [done|]. split; [done|].
      intros Hcap fuel o. rewrite Hrun.
      intros [n Hn]%run_loop_after_turns. rewrite Hn. by apply Hturns.
    + intros Hcap fuel o. rewrite Hrun.
      destruct fuel as [|fuel]; [done|]. simpl.
      rewrite loop_body_exit; [by intros [= <-]|].
      right. by apply cap_shut_at_start.
Qed.

End StartUrl.

(** For the model of [urllib.parse], whatever the fetcher: the call
    raises the error of line 50 exactly when the network location of
    the start URL is empty, and it has done nothing then. *)
Lemma model_invalid_start_url_iff (nfkc repr : str -> str) `{Fetcher}
    (w : World) (start_url output_dir : str) (max_pages : option Z)
    (fuel : nat) (st : State) :
  @crawl_site (urllib_model nfkc repr) _ fuel w start_url output_dir max_pages
  = Some (Raised (ValueError (lit "Invalid start URL.")) st)
  <->
  st = entry_state w /\
  exists parsed,
    UrllibParse.urlparse nfkc repr start_url [] = Ok parsed /\
    netloc parsed = [].
Proof.
  split.
  - intros Hrun.
    apply (@crawl_site_raise_origin (urllib_model nfkc repr)) in Hrun
      as [(_ & -> & Hparsed) | [Habs | Hlib]]; [done | done |].
    exfalso.
    apply (UrllibParseFacts.urllib_error_not_invalid_start repr
             (ValueError (lit "Invalid start URL."))); [|done].
    destruct Hlib as [[u Hu] | [[u Hu] | (b & u & Hu)]].
    + exact (UrllibParseFacts.urlparse_raises nfkc repr u [] _ Hu).
    + exact (UrllibParseFacts.urldefrag_raises nfkc repr u _ Hu).
    + exact (UrllibParseFacts.urljoin_raises nfkc repr b u _ Hu).
  - intros [-> (parsed & Hparsed & Hnl)].
    unfold crawl_site. simpl. rewrite Hparsed. by rewrite Hnl.
Qed.

(** ** File names *)

Lemma lit_inj (s1 s2 : string) : lit s1 = lit s2 -> s1 = s2.
Proof.
  unfold lit. intros Heq.
  rewrite <- (string_of_list_ascii_of_string s1),
    <- (string_of_list_ascii_of_string s2).
  f_equal. revert Heq.
  generalize (list_ascii_of_string s1) (list_ascii_of_string s2).
  induction l as [|a l IH]; intros [|b l']; simpl; try done.
  intros [= Hab Hl]. f_equal; [|by apply IH].
  by rewrite <- (ascii_N_embedding a), <- (ascii_N_embedding b), Hab.
Qed.

Lemma str_int_inj (n m : nat) : str_int n = str_int m -> n = m.
Proof. unfold str_int. intros Heq%lit_inj. by apply (inj pretty). Qed.

(** Within one base name the registry does its work: two different
    counts never give the same file name. *)
Lemma make_filename_inj (base_name : str) (c1 c2 : nat) :
  make_filename base_name c1 = make_filename base_name c2 -> c1 = c2.
Proof.
  destruct c1 as [|c1], c2 as [|c2]; simpl; try done.
  - intros Heq%app_inv_head. done.
  - intros Heq%app_inv_head. done.
  - intros Heq%app_inv_head. injection Heq as Heq.
    apply app_inv_tail, str_int_inj in Heq. lia.
Qed.

(** ** Closed runs *)

(** The scenario of the specification: of the four links of the seed
    page two are taken into the frontier, and they are the same URL. *)
Example linked_site_first_turn :
  queue (@after_turns cpython_urllib (site_fetcher linked_site) 1
           (lit "ex.com") out_dir None
           (@loop_start (site_fetcher linked_site) tt seed_url out_dir))
  = [lit "https://ex.com/a"; lit "https://ex.com/a"].
Proof. vm_compute. reflexivity. Qed.

Example linked_site_run :
  option_map (fun o => fetched (trace (outcome_state o)))
    (@crawl_site cpython_urllib (site_fetcher linked_site) 10 tt seed_url
       out_dir None)
  = Some [lit "https://ex.com/"; lit "https://ex.com/a"].
Proof. vm_compute. reflexivity. Qed.

(** Relative links are resolved against the final URL of the page:
    what the eight links of [docs_page] come to. *)
Example docs_links_resolved :
  omap (fun r => match r with Ok (u, _) => Some u | Raise _ => None end)
    (omap (@resolve_link cpython_urllib (lit "https://ex.com/docs/index.html"))
       docs_links)
  = [lit "https://ex.com/docs/guide/intro.html"; lit "https://ex.com/about";
     lit "https://ex.com/a?x=1"; lit "https://ex.com/b";
     lit "https://ex.com:443/c"; lit "https://other.com/d";
     lit "mailto:docs@ex.com"].
Proof. vm_compute. reflexivity. Qed.

(** A link that [urljoin] refuses ends the crawl: the file of the page
    is written, the link before the refused one is in the frontier,
    the one after it is not, and the call raises. *)
Example broken_link_aborts_crawl :
  exists st,
    @crawl_site cpython_urllib (site_fetcher broken_site) 10 tt seed_url
      out_dir None
    = Some (Raised (ValueError (lit "Invalid IPv6 URL")) st) /\
    trace st =
      [Makedirs out_dir; Fetch seed_url;
       Write (lit "out/Seed.md") (lit "# seed")] /\
    queue st = [lit "https://ex.com/a"].
Proof. eexists. repeat split; vm_compute; reflexivity. Qed.

(** A start URL that [urlparse] refuses: the call raises what
    [urlparse] raises, which is not the error of line 50. *)
Example bracket_start_url_raises :
  @crawl_site cpython_urllib (site_fetcher []) 10 tt (lit "http://[::1/x")
    out_dir None
  = Some (Raised (ValueError (lit "Invalid IPv6 URL"))
            (@entry_state (site_fetcher []) tt)).
Proof. vm_compute. reflexivity. Qed.

(** What [urlparse] refuses: a network location whose NFKC form has
    a delimiter (here U+2100, which becomes a/c), and a bracketed host
    that is no address. *)
Example urlparse_refuses_nfkc_delimiter :
  @urlparse cpython_urllib (lit "http://x" ++ [8448] ++ lit "y/")
  = Raise (ValueError
             (lit "netloc 'x" ++ [8448]
              ++ lit "y' contains invalid characters under NFKC normalization")).
Proof. vm_compute. reflexivity. Qed.

Example urlparse_refuses_bracketed_name :
  @urlparse cpython_urllib (lit "http://[foo]/")
  = Raise (ValueError
             (lit "'foo' does not appear to be an IPv4 or IPv6 address")).
Proof. vm_compute. reflexivity. Qed.

(** A start URL with a port and no host has a network location: it is
    taken and fetched. *)
Example empty_host_is_accepted :
  @urlparse cpython_urllib (lit "http://:80/x")
  = Ok (mkParseResult (lit "http") (lit ":80") (lit "/x") [] [] []) /\
  UrllibParse.hostinfo_hostname (lit ":80") = [] /\
  option_map (fun o => trace (outcome_state o))
    (@crawl_site cpython_urllib (site_fetcher []) 10 tt (lit "http://:80/x")
       out_dir None)
  = Some [Makedirs out_dir; Fetch (lit "http://:80/x");
          Print (lit "Skip (failed): http://:80/x -> not found")].
Proof. repeat split; vm_compute; reflexivity. Qed.

(** C1, on the code: three pages titled Home, Home and Home-2 are
    written to three paths of which the last two are the same,
    [out/Home-2.md]: the second use of the base name Home takes the
    name that the first use of the base name Home-2 takes as well, and
    the third page overwrites the second. *)
Theorem C1_two_pages_one_filename :
  exists st,
    @crawl_site cpython_urllib (site_fetcher home_site) 10 tt seed_url out_dir None
    = Some (Returned st) /\
    written (trace st) =
      [(lit "out/Home.md", lit "# seed");
       (lit "out/Home-2.md", lit "# page a");
       (lit "out/Home-2.md", lit "# page b")] /\
    ~ NoDup (map fst (written (trace st))).
Proof.
  eexists. split; [vm_compute; reflexivity|].
  split; [vm_compute; reflexivity|].
  intros Hnd. vm_compute in Hnd.
  apply NoDup_cons in Hnd as [_ Hnd]. apply NoDup_cons in Hnd as [Hin _].
  apply Hin. constructor.
Qed.

(** C9, on the code: a start URL with a host and a first page whose
    title is in its HTML only.  The call creates the directory, fetches
    the page and then raises [AttributeError]: an error that ends the
    whole crawl and is not the refusal of the start URL. *)
Theorem C9_title_element_aborts_crawl :
  (exists parsed,
      @urlparse cpython_urllib seed_url = Ok parsed /\
      netloc parsed = lit "ex.com") /\
  exists st,
    @crawl_site cpython_urllib (site_fetcher title_site) 10 tt seed_url out_dir None
    = Some (Raised
              (AttributeError (lit "'str' object has no attribute 'unescape'"))
              st) /\
    trace st = [Makedirs out_dir; Fetch seed_url].
Proof.
  split; [eexists; split; vm_compute; reflexivity|].
  eexists. split; vm_compute; reflexivity.
Qed.

(** C5, as stated, fails: for a start URL with a fragment, the state in
    which the loop is entered has neither the stripped URL in its
    frontier nor anything in its visited set. *)
Lemma C5_start_url_not_stripped_at_seed :
  @urldefrag cpython_urllib (lit "https://ex.com/docs#intro")
  = Ok (lit "https://ex.com/docs") /\
  queue (@loop_start (site_fetcher []) tt (lit "https://ex.com/docs#intro")
           out_dir)
  <> [lit "https://ex.com/docs"] /\
  lit "https://ex.com/docs"
  ∉ seen (@loop_start (site_fetcher []) tt (lit "https://ex.com/docs#intro")
            out_dir).
Proof.
  split; [vm_compute; reflexivity|]. split.
  - intros Heq. vm_compute in Heq. discriminate Heq.
  - apply not_elem_of_empty.
Qed.

(** C7, as stated, fails: a link to the host of the start URL, with
    scheme https and not visited, is dropped when it names the port:
    the test of line 95 compares network locations, not hosts. *)
Lemma C7_same_host_link_dropped :
  @urlparse cpython_urllib (lit "https://ex.com/docs/index.html")
  = Ok (mkParseResult (lit "https") (lit "ex.com") (lit "/docs/index.html")
          [] [] []) /\
  @resolve_link cpython_urllib (lit "https://ex.com/docs/index.html")
    {[ lit "href" := lit "https://ex.com:443/c" ]}
  = Some (Ok (lit "https://ex.com:443/c",
              mkParseResult (lit "https") (lit "ex.com:443") (lit "/c")
                [] [] [])) /\
  UrllibParse.hostinfo_hostname (lit "ex.com:443") = lit "ex.com" /\
  UrllibParse.hostinfo_hostname (lit "ex.com") = lit "ex.com" /\
  (lit "https://ex.com:443/c" ∉ (∅ : gset str)) /\
  @visit_link cpython_urllib (lit "ex.com")
    (lit "https://ex.com/docs/index.html") ∅ []
    {[ lit "href" := lit "https://ex.com:443/c" ]}
  = Ok [].
Proof.
  repeat split; try (vm_compute; reflexivity). apply not_elem_of_empty.
Qed.

(** C10, as stated, fails: [ftp://host/x] has a host and a scheme
    other than http and https, and with [max_pages = 0] the call
    returns without fetching it. *)
Lemma C10_zero_cap_fetches_nothing :
  @urlparse cpython_urllib (lit "ftp://host/x")
  = Ok (mkParseResult (lit "ftp") (lit "host") (lit "/x") [] [] []) /\
  UrllibParse.hostinfo_hostname (lit "host") = lit "host" /\
  forall fuel o,
    @crawl_site cpython_urllib (site_fetcher []) fuel tt (lit "ftp://host/x")
      out_dir (Some 0%Z) = Some o ->
    o = Returned (@loop_start (site_fetcher []) tt (lit "ftp://host/x") out_dir)
    /\ lit "ftp://host/x" ∉ fetched (trace (outcome_state o)).
Proof.
  split; [vm_compute; reflexivity|]. split; [vm_compute; reflexivity|].
  intros [|fuel] o Hrun; [done|].
  vm_compute in Hrun. injection Hrun as <-.
  split; [vm_compute; reflexivity | apply not_elem_of_nil].
Qed.

(** The theorems above at closed inputs. *)

Lemma C4_page_cap_witness :
  (0 <= 1)%Z /\
  forall fuel o,
    @crawl_site cpython_urllib (site_fetcher linked_site) fuel tt seed_url
      out_dir (Some 1%Z) = Some o ->
    NoDup (fetched (trace (outcome_state o))) /\
    (Z.of_nat (length (fetched (trace (outcome_state o)))) <= 1)%Z.
Proof.
  split; [lia|].
  apply (@C4_page_cap cpython_urllib (site_fetcher linked_site) 1%Z tt
           seed_url out_dir).
  lia.
Defined.

Lemma C5_frontier_seeded_as_given_witness :
  (forall u p, @urlparse cpython_urllib u = Ok p ->
               exists v, @urldefrag cpython_urllib u = Ok v) /\
  cap_allows_a_page None /\
  @urlparse cpython_urllib (lit "https://ex.com/#top")
  = Ok (mkParseResult (lit "https") (lit "ex.com") (lit "/") [] []
          (lit "top")) /\
  seen (@after_turns cpython_urllib (site_fetcher linked_site) 1
          (lit "ex.com") out_dir None
          (@loop_start (site_fetcher linked_site) tt
             (lit "https://ex.com/#top") out_dir))
  = {[ lit "https://ex.com/" ]}.
Proof.
  split; [exact (@urldefrag_parsed cpython_urllib cpython_urllib_laws)|].
  split; [exact I|]. split; [vm_compute; reflexivity|].
  destruct (@C5_frontier_seeded_as_given cpython_urllib
              (site_fetcher linked_site)
              (@urldefrag_parsed cpython_urllib cpython_urllib_laws)
              tt (lit "https://ex.com/#top")
              out_dir None) as (_ & _ & _ & Hturn).
  destruct (Hturn I
              (mkParseResult (lit "https") (lit "ex.com") (lit "/") [] []
                 (lit "top")))
    as (current & Hdefrag & Hseen); [vm_compute; reflexivity|].
  vm_compute in Hdefrag. injection Hdefrag as <-.
  exact (proj1 (Hseen (lit "ex.com"))).
Defined.

Lemma C6_visited_without_fragment_witness :
  @UrllibLaws cpython_urllib /\
  exists st,
    @crawl_site cpython_urllib (site_fetcher linked_site) 10 tt seed_url
      out_dir None = Some (Returned st) /\
    fetched (trace st) = [lit "https://ex.com/"; lit "https://ex.com/a"] /\
    @one_entry_per_page (site_fetcher linked_site) st.
Proof.
  split; [exact cpython_urllib_laws|].
  destruct (@crawl_site cpython_urllib (site_fetcher linked_site) 10 tt
              seed_url out_dir None) as [[st|e st]|] eqn:Hrun;
    [| vm_compute in Hrun; discriminate Hrun
     | vm_compute in Hrun; discriminate Hrun].
  exists st. split; [reflexivity|].
  split; [vm_compute in Hrun; injection Hrun as <-; vm_compute; reflexivity|].
  destruct (@C6_visited_without_fragment cpython_urllib cpython_urllib_laws
              (site_fetcher linked_site) tt seed_url out_dir None)
    as (_ & Hend & _).
  exact (Hend 10%nat (Returned st) Hrun).
Defined.

Lemma C7_link_filter_witness :
  (lit "https://ex.com/docs/index.html"
   ∉ seen (@loop_start (site_fetcher docs_site) tt
             (lit "https://ex.com/docs/index.html") out_dir)) /\
  exists st',
    @loop_body cpython_urllib (site_fetcher docs_site) (lit "ex.com") out_dir
      None
      (@loop_start (site_fetcher docs_site) tt
         (lit "https://ex.com/docs/index.html") out_dir)
    = Next st' /\
    queue st' =
      [lit "https://ex.com/docs/guide/intro.html"; lit "https://ex.com/about";
       lit "https://ex.com/a?x=1"; lit "https://ex.com/b"].
Proof.
  split; [apply not_elem_of_empty|].
  destruct (@C7_link_filter cpython_urllib (site_fetcher docs_site)
              (lit "ex.com") out_dir) as [_ Hturn].
  destruct (Hturn None
              (@loop_start (site_fetcher docs_site) tt
                 (lit "https://ex.com/docs/index.html") out_dir)
              (lit "https://ex.com/docs/index.html") []
              (lit "https://ex.com/docs/index.html") tt docs_page
              (lit "Docs"))
    as (st' & Hbody & _ & Hqueue & _).
  - reflexivity.
  - reflexivity.
  - vm_compute. reflexivity.
  - apply not_elem_of_empty.
  - vm_compute. reflexivity.
  - reflexivity.
  - vm_compute. reflexivity.
  - exists st'.
    assert (first_raise
              (omap (@resolve_link cpython_urllib (url docs_page))
                 (internal_links docs_page)) = None) as Hnone
      by (vm_compute; reflexivity).
    rewrite Hnone in Hbody. split; [exact Hbody|].
    rewrite Hqueue. clear Hqueue.
    injection Hbody as <-. vm_compute. reflexivity.
Defined.

Lemma C8_failed_fetch_is_skipped_witness :
  (exists st',
      @loop_body cpython_urllib (site_fetcher []) (lit "ex.com") out_dir None
        (@loop_start (site_fetcher []) tt seed_url out_dir)
      = Next st' /\
      trace st' =
        [Makedirs out_dir; Fetch seed_url;
         Print (lit "Skip (failed): https://ex.com/ -> not found")] /\
      queue st' = []) /\
  (exists fuel st,
      @crawl_site cpython_urllib (site_fetcher []) fuel tt seed_url out_dir None
      = Some (Returned st) /\
      written (trace st) = []).
Proof.
  destruct (@C8_failed_fetch_is_skipped cpython_urllib (site_fetcher [])
              (@urldefrag_parsed cpython_urllib cpython_urllib_laws)
              tt seed_url out_dir None) as [Hturn Hrun].
  split.
  - destruct (Hturn (lit "ex.com")
                (@loop_start (site_fetcher []) tt seed_url out_dir)
                seed_url [] seed_url tt not_found)
      as (st' & Hbody & Htrace & _ & Hqueue & _).
    + reflexivity.
    + reflexivity.
    + vm_compute. reflexivity.
    + apply not_elem_of_empty.
    + vm_compute. reflexivity.
    + reflexivity.
    + exists st'. split; [exact Hbody|]. split; [|exact Hqueue].
      rewrite Htrace. vm_compute. reflexivity.
  - destruct (Hrun (fun w' u => eq_refl)
                (mkParseResult (lit "https") (lit "ex.com") (lit "/") [] [] []))
      as (fuel & st & Hret & Hwritten & _).
    + vm_compute. reflexivity.
    + vm_compute. discriminate.
    + exists fuel, st. split; [exact Hret | exact Hwritten].
Defined.

Lemma C10_start_url_scheme_is_free_witness :
  (@urlparse cpython_urllib (lit "docs/intro")
   = Ok (mkParseResult [] [] (lit "docs/intro") [] [] []) /\
   @crawl_site cpython_urllib (site_fetcher []) 0 tt (lit "docs/intro")
     out_dir None
   = Some (Raised (ValueError (lit "Invalid start URL."))
             (@entry_state (site_fetcher []) tt))) /\
  (@urlparse cpython_urllib (lit "http://[::1/x")
   = Raise (ValueError (lit "Invalid IPv6 URL")) /\
   @crawl_site cpython_urllib (site_fetcher []) 0 tt (lit "http://[::1/x")
     out_dir None
   = Some (Raised (ValueError (lit "Invalid IPv6 URL"))
             (@entry_state (site_fetcher []) tt))) /\
  (@urlparse cpython_urllib (lit "ftp://host/x#f")
   = Ok (mkParseResult (lit "ftp") (lit "host") (lit "/x") [] [] (lit "f")) /\
   cap_allows_a_page (Some 1%Z) /\
   forall fuel o,
     @crawl_site cpython_urllib (site_fetcher []) fuel tt
       (lit "ftp://host/x#f") out_dir (Some 1%Z) = Some o ->
     head (fetched (trace (outcome_state o))) = Some (lit "ftp://host/x")).
Proof.
  split; [|split].
  - split; [vm_compute; reflexivity|].
    destruct (@C10_start_url_scheme_is_free cpython_urllib (site_fetcher [])
                (@urldefrag_parsed cpython_urllib cpython_urllib_laws)
                tt (lit "docs/intro") out_dir None)
      as [Hempty _].
    destruct (Hempty (mkParseResult [] [] (lit "docs/intro") [] [] [])
                ltac:(vm_compute; reflexivity) eq_refl 0%nat) as [Hraise _].
    exact Hraise.
  - split; [vm_compute; reflexivity|].
    destruct (@C10_start_url_scheme_is_free cpython_urllib (site_fetcher [])
                (@urldefrag_parsed cpython_urllib cpython_urllib_laws)
                tt (lit "http://[::1/x") out_dir None)
      as (_ & Hrefused & _).
    destruct (Hrefused (ValueError (lit "Invalid IPv6 URL"))
                ltac:(vm_compute; reflexivity) 0%nat) as [Hraise _].
    exact Hraise.
  - assert (cap_allows_a_page (Some 1%Z)) as Hcap by (simpl; lia).
    split; [vm_compute; reflexivity|]. split; [exact Hcap|].
    destruct (@C10_start_url_scheme_is_free cpython_urllib (site_fetcher [])
                (@urldefrag_parsed cpython_urllib cpython_urllib_laws)
                tt (lit "ftp://host/x#f") out_dir (Some 1%Z))
      as (_ & _ & Hfull & _).
    destruct (Hfull (mkParseResult (lit "ftp") (lit "host") (lit "/x") [] []
                       (lit "f"))
                ltac:(vm_compute; reflexivity)
                ltac:(vm_compute; discriminate))
      as (_ & _ & (current & Hdefrag & _ & Hend) & _).
    vm_compute in Hdefrag. injection Hdefrag as <-.
    intros fuel o Hrun. exact (Hend Hcap fuel o Hrun).
Defined.

(** * Further properties *)

(** ** [_sanitize_filename]: what a name looks like *)

Lemma lstrip_idem (p : char -> bool) (s : str) :
  lstrip p (lstrip p s) = lstrip p s.
Proof.
  induction s as [|c s IH]; simpl; [done|].
  destruct (p c) eqn:Hc; [done|]. simpl. by rewrite Hc.
Qed.

Lemma rstrip_idem (p : char -> bool) (s : str) :
  rstrip p (rstrip p s) = rstrip p s.
Proof. unfold rstrip. by rewrite rev_involutive, lstrip_idem. Qed.

Lemma lstrip_all (p : char -> bool) (s : str) :
  Forall (fun c => p c = true) s -> lstrip p s = [].
Proof. induction 1 as [|c s Hc _ IH]; simpl; [done|]. by rewrite Hc. Qed.

Lemma tidy_from_clean (b : bool) (s : str) :
  tidy_from b s = true -> Forall (fun c => forbidden c = false) s.
Proof.
  revert b. induction s as [|c s IH]; intros b; simpl; [constructor|].
  destruct (isspace c) eqn:Hws; intros Ht.
  - apply andb_true_iff in Ht as [Ht1 Ht2].
    apply andb_true_iff in Ht1 as [_ Hc]. apply N.eqb_eq in Hc. subst c.
    constructor; [reflexivity | by apply (IH true)].
  - apply andb_true_iff in Ht as [Hf Ht2]. apply negb_true_iff in Hf.
    constructor; [done | by apply (IH false)].
Qed.

Lemma tidy_from_spaces (b : bool) (s : str) :
  tidy_from b s = true ->
  Forall (fun c => isspace c = true -> c = 32) s.
Proof.
  revert b. induction s as [|c s IH]; intros b; simpl; [constructor|].
  destruct (isspace c) eqn:Hws; intros Ht.
  - apply andb_true_iff in Ht as [Ht1 Ht2].
    apply andb_true_iff in Ht1 as [_ Hc]. apply N.eqb_eq in Hc.
    constructor; [done | by apply (IH true)].
  - apply andb_true_iff in Ht as [_ Ht2].
    constructor; [by rewrite Hws | by apply (IH false)].
Qed.

Lemma tidy_from_apart (b : bool) (s : str) (i : nat) (x y : char) :
  tidy_from b s = true ->
  s !! i = Some x -> s !! S i = Some y ->
  isspace x = true -> isspace y = false.
Proof.
  revert b i. induction s as [|c s IH]; intros b i; [done|].
  destruct i as [|i]; simpl.
  - intros Ht [= ->] Hy Hx. rewrite Hx in Ht.
    apply andb_true_iff in Ht as [_ Ht].
    destruct s as [|c' s]; [done|]. simpl in Hy. injection Hy as ->.
    simpl in Ht. destruct (isspace y); [done | done].
  - intros Ht Hx Hy. destruct (isspace c).
    + apply andb_true_iff in Ht as [_ Ht]. by apply (IH true i).
    + apply andb_true_iff in Ht as [_ Ht]. by apply (IH false i).
Qed.

Lemma sanitize_tidy (s : str) : tidy_from true (_sanitize_filename s) = true.
Proof.
  rewrite sanitize_unfold. destruct (strip isspace s); [reflexivity|].
  apply cleaned_tidy.
Qed.

(** Whatever the title, the name has none of the nine characters that
    the first substitution replaces. *)
Theorem sanitize_no_forbidden_char (s : str) (c : char) :
  c ∈ _sanitize_filename s -> forbidden c = false.
Proof.
  intros Hc. pose proof (tidy_from_clean _ _ (sanitize_tidy s)) as Hall.
  rewrite Forall_forall in Hall. by apply Hall.
Qed.

(** Whatever the title, the name is not empty and starts with a
    character that is not whitespace. *)
Theorem sanitize_starts_with_text (s : str) :
  exists c name, _sanitize_filename s = c :: name /\ isspace c = false.
Proof.
  pose proof (sanitize_tidy s) as Ht.
  assert (_sanitize_filename s <> []) as Hne.
  { rewrite sanitize_unfold.
    destruct (strip isspace s) as [|c name] eqn:Hs; [done|].
    apply cleaned_nonempty. by eapply strip_head. }
  destruct (_sanitize_filename s) as [|c name]; [done|].
  exists c, name. split; [done|]. simpl in Ht.
  destruct (isspace c); [done | done].
Qed.

(** Whatever the title, the only whitespace of the name is the space
    character, and no two whitespace characters are next to each
    other. *)
Theorem sanitize_single_spaces (s : str) :
  (forall c, c ∈ _sanitize_filename s -> isspace c = true -> c = 32) /\
  (forall i x y,
      _sanitize_filename s !! i = Some x ->
      _sanitize_filename s !! S i = Some y ->
      isspace x = true -> isspace y = false).
Proof.
  pose proof (sanitize_tidy s) as Ht. split.
  - pose proof (tidy_from_spaces _ _ Ht) as Hall.
    rewrite Forall_forall in Hall. intros c Hc. by apply Hall.
  - intros i x y. by apply (tidy_from_apart true).
Qed.

Lemma cleaned_short_rstrip (name : str) :
  (length name <= 120)%nat ->
  rstrip isspace (cleaned name) = cleaned name.
Proof.
  intros Hlen. unfold cleaned, slice_to, strip, sub_ws.
  set (t := lstrip isspace (sub_ws_from false (sub_forbidden name))).
  assert (length (rstrip isspace t) <= 120)%nat as Ht.
  { pose proof (rstrip_length isspace t).
    pose proof (lstrip_length isspace
                  (sub_ws_from false (sub_forbidden name))).
    pose proof (sub_ws_from_length false (sub_forbidden name)).
    pose proof (sub_forbidden_length name). unfold t in *. lia. }
  rewrite take_ge by done. apply rstrip_idem.
Qed.

Lemma sanitize_short_stable (s : str) :
  (length s <= 120)%nat ->
  _sanitize_filename (_sanitize_filename s) = _sanitize_filename s.
Proof.
  intros Hlen. rewrite (sanitize_unfold s).
  destruct (strip isspace s) as [|c name] eqn:Hs; [vm_compute; reflexivity|].
  apply sanitize_tidy_fixed.
  - apply cleaned_nonempty. by eapply strip_head.
  - apply cleaned_tidy.
  - apply cleaned_length.
  - apply cleaned_short_rstrip. rewrite <- Hs.
    pose proof (strip_length isspace s). lia.
Qed.

(** Sanitizing is idempotent on titles of at most 120 characters, and
    on every title a third pass changes nothing that the second pass
    left. *)
Theorem sanitize_stable_when_not_cut :
  (forall s, (length s <= 120)%nat ->
             _sanitize_filename (_sanitize_filename s) = _sanitize_filename s) /\
  (forall s, _sanitize_filename (_sanitize_filename (_sanitize_filename s))
             = _sanitize_filename (_sanitize_filename s)).
Proof.
  split; [apply sanitize_short_stable|].
  intros s. apply sanitize_short_stable.
  rewrite sanitize_unfold.
  destruct (strip isspace s); [vm_compute; lia | apply cleaned_length].
Qed.

Lemma sanitize_stable_when_not_cut_witness :
  (length (lit "  My: Page \ Title  ") <= 120)%nat /\
  _sanitize_filename (_sanitize_filename (lit "  My: Page \ Title  "))
  = _sanitize_filename (lit "  My: Page \ Title  ").
Proof.
  split; [vm_compute; lia|].
  apply (proj1 sanitize_stable_when_not_cut). vm_compute. lia.
Defined.

(** A title without any character other than whitespace, the empty
    title among them, is named [untitled]. *)
Theorem sanitize_blank_is_untitled (s : str) :
  Forall (fun c => isspace c = true) s ->
  _sanitize_filename s = lit "untitled".
Proof.
  intros Hs. rewrite sanitize_unfold. unfold strip.
  by rewrite (lstrip_all isspace s Hs).
Qed.

Lemma sanitize_blank_is_untitled_witness :
  Forall (fun c => isspace c = true) [32; 9; 160; 12288] /\
  _sanitize_filename [32; 9; 160; 12288] = lit "untitled".
Proof.
  split; [repeat constructor|].
  apply sanitize_blank_is_untitled. repeat constructor.
Defined.


(** ** [_extract_title]: when it raises and what it returns *)

Section ExtractTitleMore.
Context `{Urllib}.

Lemma title_from_url_raises (url : str) (e : exn) :
  title_from_url url = Raise e <-> urlparse url = Raise e.
Proof.
  unfold title_from_url. destruct (urlparse url) as [parsed|e'];
    [|split; intros [= ->]; reflexivity].
  cbv zeta. destruct (last_seg _); split; intros Heq; discriminate Heq.
Qed.

Lemma title_from_url_returns (url title : str) :
  title_from_url url = Ok title ->
  (exists parsed, urlparse url = Ok parsed) /\ (url <> [] -> title <> []).
Proof.
  unfold title_from_url. destruct (urlparse url) as [parsed|e']; [|done].
  intros Ht. split; [by eexists|]. intros Hurl.
  destruct (last_seg _); by injection Ht as <-.
Qed.

(** The call raises in two cases, both without a title in the
    metadata: the HTML has a title element, and the exception is the
    [AttributeError] of line 30; or the HTML has none and [urlparse]
    refuses the URL, and the exception is that of [urlparse].  In every
    other case the call returns a title. *)
Theorem extract_title_raises_iff metadata (html url : str) :
  (forall e,
      _extract_title metadata html url = Raise e <->
      metadata_title metadata = None /\
      (((exists g, search_title html = Some g) /\
        e = AttributeError (lit "'str' object has no attribute 'unescape'"))
       \/ (search_title html = None /\ urlparse url = Raise e))) /\
  ((exists title, _extract_title metadata html url = Ok title) <->
   (exists title, metadata_title metadata = Some title) \/
   (search_title html = None /\ exists parsed, urlparse url = Ok parsed)).
Proof.
  assert (Hempty : search_title [] = None) by reflexivity.
  unfold _extract_title.
  destruct (metadata_title metadata) as [t|].
  { split.
    - intros e. split; [done | by intros [? _]].
    - split; [intros _; left; by eexists | intros _; by eexists]. }
  assert (Hguard : (match html with [] => None | _ => search_title html end)
                   = search_title html) by (by destruct html).
  rewrite Hguard. destruct (search_title html) as [g|].
  - split.
    + intros e. unfold html_unescape_attr. split.
      * intros [= <-]. split; [done|]. left. split; [by eexists | done].
      * intros [_ [[_ ->] | [? _]]]; done.
    + unfold html_unescape_attr. split; [by intros [t Ht]|].
      intros [[t Ht] | [? _]]; done.
  - split.
    + intros e. rewrite title_from_url_raises. split.
      * intros He. split; [done|]. by right.
      * intros [_ [[[g Hg] _] | [_ He]]]; done.
    + split.
      * intros [t [Hp _]%title_from_url_returns]. by right.
      * intros [[t Ht] | [_ [parsed Hp]]]; [done|].
        destruct (title_from_url url) as [t|e] eqn:Ht; [by eexists|].
        apply title_from_url_raises in Ht. congruence.
Qed.

(** A title that is returned is never empty, as long as the URL is
    not. *)
Theorem extract_title_not_empty metadata (html url title : str) :
  url <> [] ->
  _extract_title metadata html url = Ok title ->
  title <> [].
Proof.
  intros Hurl. unfold _extract_title.
  destruct (metadata_title metadata) as [t|] eqn:Hm.
  { intros [= <-]. unfold metadata_title in Hm.
    destruct metadata as [m|]; [|done].
    destruct (m !! lit "title") as [[|c t']|]; by simplify_eq. }
  destruct (match html with [] => None | _ => search_title html end);
    [done|].
  intros [_ Hne]%title_from_url_returns. by apply Hne.
Qed.

End ExtractTitleMore.

Lemma extract_title_not_empty_witness :
  lit "https://ex.com/a/guide/" <> [] /\
  @_extract_title cpython_urllib None [] (lit "https://ex.com/a/guide/")
  = Ok (lit "guide") /\
  lit "guide" <> [].
Proof.
  assert (lit "https://ex.com/a/guide/" <> []) as Hurl by done.
  assert (@_extract_title cpython_urllib None []
            (lit "https://ex.com/a/guide/") = Ok (lit "guide"))
    as Ht by (vm_compute; reflexivity).
  split; [exact Hurl|]. split; [exact Ht|].
  exact (@extract_title_not_empty cpython_urllib None []
           (lit "https://ex.com/a/guide/") (lit "guide") Hurl Ht).
Defined.

(** ** [crawl_site]: how a run ends and what it leaves behind *)

Section RunShape.
Context `{Urllib} `{Fetcher}.
Implicit Types (st : State).

(** A call that returns has emptied the frontier or reached the cap;
    without a cap it has emptied the frontier. *)
Theorem crawl_returns_when_done
    (w : World) (start_url output_dir : str) (max_pages : option Z)
    (fuel : nat) (st : State) :
  crawl_site fuel w start_url output_dir max_pages = Some (Returned st) ->
  (queue st = [] \/ cap_reached max_pages st = true) /\
  (max_pages = None -> queue st = []).
Proof.
  destruct (crawl_site_cases fuel w start_url output_dir max_pages)
    as [(e & _ & ->) | [(parsed & _ & _ & ->) | (parsed & _ & _ & ->)]];
    [done | done |].
  intros Hrun.
  apply (run_loop_outcome_ind (fun _ => True) (fun _ _ => True)) in Hrun;
    [|done..].
  destruct Hrun as [_ Hwhy]. split; [done|].
  intros ->. by destruct Hwhy.
Qed.

End RunShape.

Lemma crawl_returns_when_done_witness :
  exists st,
    @crawl_site cpython_urllib (site_fetcher linked_site) 10 tt seed_url
      out_dir None = Some (Returned st) /\
    queue st = [].
Proof.
  assert (exists st,
             @crawl_site cpython_urllib (site_fetcher linked_site) 10 tt
               seed_url out_dir None = Some (Returned st))
    as [st Hrun] by (eexists; vm_compute; reflexivity).
  exists st. split; [exact Hrun|].
  exact (proj2 (@crawl_returns_when_done cpython_urllib
                  (site_fetcher linked_site) tt seed_url out_dir None 10 st
                  Hrun) eq_refl).
Defined.

Section RunEffects.
Context `{Urllib} `{Fetcher}.
Implicit Types (st : State).

(** Every fetch is answered by one file or one printed line: when the
    call returns there are as many fetches as files and lines
    together.  When it raises, either every fetch has its answer (the
    start URL was refused, or [urllib.parse] refused a URL of the
    frontier or, after the file of the page was written, a link of the
    page), or one fetch has none, and it is the last thing the call
    did (the title of the page could not be had). *)
Theorem every_fetch_is_answered
    (w : World) (start_url output_dir : str) (max_pages : option Z)
    (fuel : nat) (o : Outcome) :
  crawl_site fuel w start_url output_dir max_pages = Some o ->
  match o with
  | Returned st =>
      length (fetched (trace st)) =
        (length (written (trace st)) + length (printed (trace st)))%nat
  | Raised e st =>
      length (fetched (trace st)) =
        (length (written (trace st)) + length (printed (trace st)))%nat
      \/
      (length (fetched (trace st)) =
         (length (written (trace st)) + length (printed (trace st)) + 1)%nat
       /\ exists u, last (trace st) = Some (Fetch u))
  end.
Proof.
  set (P := fun st =>
              length (fetched (trace st)) =
                (length (written (trace st)) + length (printed (trace st)))%nat).
  set (Q := fun (_ : exn) st =>
              P st \/
              (length (fetched (trace st)) =
                 (length (written (trace st)) + length (printed (trace st))
                  + 1)%nat
               /\ exists u, last (trace st) = Some (Fetch u))).
  destruct (crawl_site_cases fuel w start_url output_dir max_pages)
    as [(e & _ & ->) | [(parsed & _ & _ & ->) | (parsed & _ & _ & ->)]].
  { intros [= <-]. by left. }
  { intros [= <-]. by left. }
  intros Hrun.
  apply (run_loop_outcome_ind P Q) in Hrun.
  - destruct o as [st|e st]; [apply Hrun | apply Hrun].
  - intros st st' Hst Hbody. unfold P in *.
    turn_cases (netloc parsed) output_dir max_pages st;
      rewrite Hturn in Hbody; simplify_eq; cbn [trace].
    + done.
    + rewrite fetched_snoc_print, fetched_snoc_fetch, written_snoc_print,
        written_snoc_fetch, printed_snoc_print, printed_snoc_fetch,
        !length_app. simpl. lia.
    + rewrite fetched_snoc_write, fetched_snoc_fetch, written_snoc_write,
        written_snoc_fetch, printed_snoc_write, printed_snoc_fetch,
        !length_app. simpl. lia.
  - intros st e st' Hst Hbody. unfold P, Q in *.
    turn_cases (netloc parsed) output_dir max_pages st;
      rewrite Hturn in Hbody; simplify_eq; cbn [trace].
    + by left.
    + right. split; [|by rewrite last_snoc; eexists].
      rewrite fetched_snoc_fetch, written_snoc_fetch, printed_snoc_fetch,
        length_app. simpl. lia.
    + left. unfold P. cbn [trace].
      rewrite fetched_snoc_write, fetched_snoc_fetch, written_snoc_write,
        written_snoc_fetch, printed_snoc_write, printed_snoc_fetch,
        !length_app. simpl. lia.
  - done.
Qed.

(** The trace of a turn: the old trace, then what the turn did, which
    is never the creation of a directory. *)
Lemma trace_step base_netloc output_dir max_pages st :
  exists evs,
    trace (step_state (loop_body base_netloc output_dir max_pages st))
    = trace st ++ evs /\
    Forall (fun e => forall d, e <> Makedirs d) evs.
Proof.
  turn_cases base_netloc output_dir max_pages st; rewrite Hturn;
    cbn [step_state trace]; rewrite <- ?app_assoc;
    try (exists []; by rewrite app_nil_r);
    eexists; (split; [reflexivity|]); by repeat constructor.
Qed.

(** When the start URL is accepted, the output directory is created
    once, before anything else is done. *)
Theorem directory_created_once_and_first
    (w : World) (start_url output_dir : str) (max_pages : option Z)
    (fuel : nat) (o : Outcome) (parsed : ParseResult) :
  urlparse start_url = Ok parsed ->
  netloc parsed <> [] ->
  crawl_site fuel w start_url output_dir max_pages = Some o ->
  exists evs,
    trace (outcome_state o) = Makedirs output_dir :: evs /\
    Forall (fun e => forall d, e <> Makedirs d) evs.
Proof.
  intros Hparsed Hhost.
  destruct (crawl_site_cases fuel w start_url output_dir max_pages)
    as [(e & ? & _) | [(p' & ? & ? & _) | (p' & _ & _ & ->)]];
    [congruence | congruence |].
  apply (run_loop_ind
           (fun st => exists evs,
                trace st = Makedirs output_dir :: evs /\
                Forall (fun e => forall d, e <> Makedirs d) evs)).
  - intros st (evs & Htr & Hevs).
    destruct (trace_step (netloc p') output_dir max_pages st)
      as (evs' & -> & Hevs').
    exists (evs ++ evs'). rewrite Htr. split; [done|].
    by apply Forall_app.
  - exists []. by split.
Qed.

(** The digits of a use count are no slashes. *)
Lemma str_int_digits (n : nat) : Forall (fun c => c <> 47) (str_int n).
Proof.
  unfold str_int, pretty, pretty_nat, pretty, pretty_N.
  destruct (decide (N.of_nat n = 0)); [by repeat constructor|].
  assert (Hgo : forall (x : N) (s : string),
             Forall (fun c => c <> 47) (lit s) ->
             Forall (fun c => c <> 47) (lit (pretty_N_go x s))).
  { intros x. induction (N.lt_wf_0 x) as [x _ IH]. intros s Hs.
    destruct (decide (x = 0)) as [-> | Hx]; [by rewrite pretty_N_go_0|].
    rewrite pretty_N_go_step by lia. apply IH.
    - apply N.div_lt; lia.
    - unfold lit. simpl. constructor; [|done].
      unfold pretty_N_char. by repeat case_match. }
  apply Hgo. constructor.
Qed.

Lemma make_filename_no_slash (title : str) (count : nat) :
  47 ∉ make_filename (_sanitize_filename title) count.
Proof.
  assert (47 ∉ _sanitize_filename title) as Hbase.
  { intros Hin.
    pose proof (tidy_from_clean _ _ (sanitize_tidy title)) as Hall.
    rewrite Forall_forall in Hall. by specialize (Hall 47 Hin). }
  assert (forall n, 47 ∉ str_int n) as Hnum.
  { intros n Hin. pose proof (str_int_digits n) as Hall.
    rewrite Forall_forall in Hall. by apply (Hall 47). }
  unfold make_filename. destruct count as [|count];
    rewrite ?not_elem_of_app; repeat split; try done;
    by apply contains_false.
Qed.

Lemma make_filename_md (base_name : str) (count : nat) :
  lit ".md" `suffix_of` make_filename base_name count.
Proof.
  unfold make_filename. destruct count.
  - by apply suffix_app_r.
  - rewrite !app_assoc. by apply suffix_app_r.
Qed.

Lemma os_path_join_relative (a b : str) :
  47 ∉ b ->
  os_path_join a b = a ++ (if wants_slash a then lit "/" else []) ++ b.
Proof.
  intros Hb. unfold os_path_join, wants_slash.
  assert (startswith (lit "/") b = false) as ->.
  { destruct b as [|c b]; [done|].
    apply not_elem_of_cons in Hb as [Hc _].
    change (startswith (lit "/") (c :: b)) with ((47 =? c) && true).
    rewrite andb_true_r. by apply N.eqb_neq. }
  destruct (rev a) as [|c t] eqn:Hrev.
  - assert (a = []) as -> by (by rewrite <- (rev_involutive a), Hrev).
    done.
  - assert (a = rev t ++ [c]) as ->
      by (by rewrite <- (rev_involutive a), Hrev).
    rewrite last_snoc. by destruct (is_slash c).
Qed.

(** Where files go: every path written is the output directory
    followed by one file name, with a slash between them exactly when
    the directory is not empty and does not end in one
    ([wants_slash]); the name has no slash and ends in [.md]. *)
Theorem files_land_in_output_dir
    (w : World) (start_url output_dir : str) (max_pages : option Z)
    (fuel : nat) (o : Outcome) (p content : str) :
  crawl_site fuel w start_url output_dir max_pages = Some o ->
  (p, content) ∈ written (trace (outcome_state o)) ->
  exists filename,
    p = output_dir ++ (if wants_slash output_dir then lit "/" else [])
          ++ filename /\
    (47 ∉ filename) /\
    lit ".md" `suffix_of` filename.
Proof.
  intros Hrun. revert p content.
  apply (crawl_site_ind
           (fun st => forall p content,
                (p, content) ∈ written (trace st) ->
                exists filename,
                  p = output_dir
                        ++ (if wants_slash output_dir then lit "/" else [])
                        ++ filename /\
                  (47 ∉ filename) /\ lit ".md" `suffix_of` filename)
           w start_url output_dir max_pages) with (fuel := fuel);
    [| | |exact Hrun].
  - intros p content Hin. by apply elem_of_nil in Hin.
  - intros p content Hin. by apply elem_of_nil in Hin.
  - intros base_netloc st Hst p content.
    assert (Hnew : forall title count,
               (p, content) ∈
                 written (trace st) ++
                   [(os_path_join output_dir
                       (make_filename (_sanitize_filename title) count),
                     content)] ->
               exists filename,
                 p = output_dir
                       ++ (if wants_slash output_dir then lit "/" else [])
                       ++ filename /\
                 (47 ∉ filename) /\ lit ".md" `suffix_of` filename).
    { intros title count
        [Hin | Hin%list_elem_of_singleton]%elem_of_app;
        [by apply (Hst p content)|].
      injection Hin as ->.
      eexists. split; [|split].
      - apply os_path_join_relative, make_filename_no_slash.
      - apply make_filename_no_slash.
      - apply make_filename_md. }
    turn_cases base_netloc output_dir max_pages st; rewrite Hturn;
      cbn [step_state trace];
      rewrite ?written_snoc_write, ?written_snoc_print, ?written_snoc_fetch;
      try apply Hst.
    + intros Hin. eapply Hnew.
      apply elem_of_app in Hin as [Hin | Hin%list_elem_of_singleton];
        [by apply elem_of_app; left|].
      injection Hin as -> ->. apply elem_of_app. right.
      apply list_elem_of_singleton. reflexivity.
    + intros Hin. eapply Hnew.
      apply elem_of_app in Hin as [Hin | Hin%list_elem_of_singleton];
        [by apply elem_of_app; left|].
      injection Hin as -> ->. apply elem_of_app. right.
      apply list_elem_of_singleton. reflexivity.
Qed.

End RunEffects.

(** ** [crawl_site]: where it goes and that it ends *)

Lemma returned_prefix_elem {A B : Type} (f : A -> option (result B))
    (ls : list A) (t : B) :
  t ∈ returned_prefix (omap f ls) -> exists x, x ∈ ls /\ f x = Some (Ok t).
Proof.
  induction ls as [|x ls IH]; simpl; [by intros ?%elem_of_nil|].
  destruct (f x) as [[b|e]|] eqn:Hx; simpl.
  - intros [-> | Hin]%elem_of_cons.
    + exists x. split; [by left | done].
    + destruct (IH Hin) as (y & Hy & Hfy). exists y. split; [by right | done].
  - by intros ?%elem_of_nil.
  - intros Hin. destruct (IH Hin) as (y & Hy & Hfy).
    exists y. split; [by right | done].
Qed.

Section RunReach.
Context `{Urllib} `{Fetcher}.
Implicit Types (st : State).

(** A link that resolves: its target is a result of [urldefrag]
    together with its parse. *)
Lemma resolve_link_ok (result_url : str) (link : gmap str str)
    (target : str * ParseResult) :
  resolve_link result_url link = Some (Ok target) ->
  (exists abs_url, urldefrag abs_url = Ok target.1) /\
  urlparse target.1 = Ok target.2.
Proof.
  unfold resolve_link.
  destruct (link !! lit "href") as [[|c href]|]; [done | | done].
  destruct (urljoin result_url (c :: href)) as [abs|e]; [|done].
  destruct (urldefrag abs) as [abs'|e] eqn:Hd; [|done].
  destruct (urlparse abs') as [parsed|e] eqn:Hp; [|done].
  intros [= <-]. simpl. split; [by exists abs | done].
Qed.

(** The crawl stays on the site: as long as [urldefrag] leaves a URL
    that it has returned as it is, every URL fetched is the start URL
    without its fragment, or a URL whose scheme is http or https and
    whose network location is that of the start URL. *)
Theorem crawl_stays_on_site
    (urldefrag_idem : forall u v, urldefrag u = Ok v -> urldefrag v = Ok v)
    (w : World) (start_url output_dir : str) (max_pages : option Z)
    (fuel : nat) (o : Outcome) (u : str) :
  crawl_site fuel w start_url output_dir max_pages = Some o ->
  u ∈ fetched (trace (outcome_state o)) ->
  urldefrag start_url = Ok u \/
  (exists parsed parsed_start,
      urlparse u = Ok parsed /\
      urlparse start_url = Ok parsed_start /\
      (scheme parsed = lit "http" \/ scheme parsed = lit "https") /\
      netloc parsed = netloc parsed_start).
Proof.
  destruct (crawl_site_cases fuel w start_url output_dir max_pages)
    as [(e & _ & ->) | [(ps & _ & _ & ->) | (ps & Hps & _ & ->)]].
  { intros [= <-] Hu. by apply elem_of_nil in Hu. }
  { intros [= <-] Hu. by apply elem_of_nil in Hu. }
  set (good := fun h : str =>
                 exists parsed parsed_start,
                   urlparse h = Ok parsed /\
                   urlparse start_url = Ok parsed_start /\
                   (scheme parsed = lit "http" \/ scheme parsed = lit "https")
                   /\ netloc parsed = netloc parsed_start).
  intros Hrun. revert u.
  apply (run_loop_ind
           (fun st => (forall h, h ∈ queue st ->
                                 h = start_url \/
                                 (urldefrag h = Ok h /\ good h)) /\
                      (forall u, u ∈ fetched (trace st) ->
                                 urldefrag start_url = Ok u \/ good u))
           (netloc ps) output_dir max_pages)
    with (fuel := fuel) (st := loop_start w start_url output_dir);
    [| |exact Hrun].
  - intros st [Hqueue Hfetched].
    assert (Hpop : forall head rest current,
               queue st = head :: rest ->
               urldefrag head = Ok current ->
               (forall h, h ∈ rest ->
                          h = start_url \/ (urldefrag h = Ok h /\ good h)) /\
               (forall u, u ∈ fetched (trace st) ++ [current] ->
                          urldefrag start_url = Ok u \/ good u)).
    { intros head rest current Hq Hdefrag. split.
      - intros h Hh. apply Hqueue. rewrite Hq. by right.
      - intros u [Hu | ->%list_elem_of_singleton]%elem_of_app; [auto|].
        destruct (Hqueue head) as [-> | [Hfix Hgood]];
          [rewrite Hq; by left | by left |].
        right. rewrite Hfix in Hdefrag. by injection Hdefrag as <-. }
    assert (Hadd : forall seen' rest result_url ls queue' err,
               (forall h, h ∈ rest ->
                          h = start_url \/ (urldefrag h = Ok h /\ good h)) ->
               visit_links (netloc ps) result_url seen' rest ls
               = (queue', err) ->
               forall h, h ∈ queue' ->
                         h = start_url \/ (urldefrag h = Ok h /\ good h)).
    { intros seen' rest result_url ls queue' err Hrest Hlinks h Hh.
      rewrite visit_links_spec in Hlinks. injection Hlinks as <- _.
      apply elem_of_app in Hh as [Hh | Hh]; [auto|].
      apply list_elem_of_fmap in Hh as (target & -> & Hh).
      apply list_elem_of_filter in Hh as [(Hs & Hn & _) Hh].
      apply returned_prefix_elem in Hh as (link & _ & Hlink).
      apply resolve_link_ok in Hlink as [[abs Habs] Hparse].
      right. split; [by eapply urldefrag_idem|]. by exists target.2, ps. }
    turn_cases (netloc ps) output_dir max_pages st; rewrite Hturn;
      cbn [step_state trace queue];
      rewrite ?fetched_snoc_write, ?fetched_snoc_print, ?fetched_snoc_fetch;
      try done;
      try (destruct (Hpop head rest current Hq Hdefrag) as [Hrest Hnewf]).
    + split; [|done]. intros h Hh. apply Hqueue. rewrite Hq. by right.
    + split; [|done]. intros h Hh. apply Hqueue. rewrite Hq. by right.
    + done.
    + done.
    + split; [|done]. by eapply Hadd.
    + split; [|done]. by eapply Hadd.
  - split; intros u Hu.
    + apply list_elem_of_singleton in Hu as ->. by left.
    + by apply elem_of_nil in Hu.
Qed.

(** The crawl ends on a finite site, cap or no cap: when the start URL
    and the target of every link that passes the scheme and network
    location tests lie, without their fragments, in one finite set of
    URLs, some number of turns brings the call to its end. *)
Lemma run_loop_ends_in_finite_site (U : gset str)
    (base_netloc output_dir : str) (max_pages : option Z) :
  (forall w' u link target current,
      link ∈ internal_links (arun w' u).2 ->
      resolve_link (url (arun w' u).2) link = Some (Ok target) ->
      (scheme target.2 = lit "http" \/ scheme target.2 = lit "https") ->
      netloc target.2 = base_netloc ->
      urldefrag target.1 = Ok current ->
      current ∈ U) ->
  forall (n : nat) st,
    seen st ⊆ U ->
    (forall h current, h ∈ queue st -> urldefrag h = Ok current ->
                       current ∈ U) ->
    (size (U ∖ seen st) < n)%nat ->
    exists fuel o,
      run_loop fuel base_netloc output_dir max_pages st = Some o.
Proof.
  intros Hsite. induction n as [|n IHn]; intros st Hseen Hqueue Hn; [lia|].
  remember (queue st) as q eqn:Hq'. symmetry in Hq'.
  revert st Hseen Hqueue Hn Hq'.
  induction q as [|x q IHq]; intros st Hseen Hqueue Hn Hq'.
  { exists 1%nat, (Returned st). simpl. by rewrite loop_body_exit by auto. }
  assert (Hgrow : forall y, y ∈ U -> y ∉ seen st ->
                            (size (U ∖ (seen st ∪ {[y]})) < n)%nat).
  { intros y HyU Hy.
    assert (U ∖ (seen st ∪ {[y]}) ⊂ U ∖ seen st) as Hsub.
    { split.
      - intros z [Hz Hz']%elem_of_difference. apply elem_of_difference.
        split; [done|]. intros Hzs. apply Hz'. by apply elem_of_union_l.
      - intros Hsup.
        assert (y ∈ U ∖ (seen st ∪ {[y]})) as [_ Hbad]%elem_of_difference.
        { apply Hsup. by apply elem_of_difference. }
        apply Hbad. by apply elem_of_union_r, elem_of_singleton. }
    apply subset_size in Hsub. lia. }
  assert (Hmore : forall y, y ∈ U -> seen st ∪ {[y]} ⊆ U).
  { intros y Hy z [Hz | ->%elem_of_singleton]%elem_of_union; [auto | done]. }
  assert (Hrest : forall h current, h ∈ q -> urldefrag h = Ok current ->
                                    current ∈ U).
  { intros h current Hh. apply Hqueue. by right. }
  assert (Hhead : forall current, urldefrag x = Ok current -> current ∈ U).
  { intros current. apply Hqueue. by left. }
  clear Hqueue.
  turn_cases base_netloc output_dir max_pages st;
    try (rewrite Hq' in Hq; injection Hq as <- <-);
    try (eexists 1%nat, _; simpl; by rewrite Hturn).
  - destruct (IHq (mkState (seen st) q (used_names st) (world st)
                     (trace st))) as (fuel & o & Hloop); try done.
    exists (S fuel), o. simpl. by rewrite Hturn.
  - match type of Hturn with
    | _ = Next ?st' => destruct (IHn st') as (fuel & o & Hloop)
    end; [by apply Hmore, Hhead | done | by apply Hgrow; [apply Hhead|] |].
    exists (S fuel), o. simpl. by rewrite Hturn.
  - match type of Hturn with
    | _ = Next ?st' => destruct (IHn st') as (fuel & o & Hloop)
    end; [by apply Hmore, Hhead | | by apply Hgrow; [apply Hhead|] |].
    + cbn [queue]. intros h c Hh Hc.
      rewrite visit_links_spec in Hlinks. injection Hlinks as <- _.
      apply elem_of_app in Hh as [Hh | Hh]; [eauto|].
      apply list_elem_of_fmap in Hh as (target & -> & Hh).
      apply list_elem_of_filter in Hh as [(Hs & Hnl & _) Hh].
      apply returned_prefix_elem in Hh as (link & Hlink & Htarget).
      apply (Hsite (world st) current link target c); rewrite ?Hrun; done.
    + exists (S fuel), o. simpl. by rewrite Hturn.
Qed.

Theorem crawl_ends_on_finite_site (U : gset str)
    (w : World) (start_url output_dir : str) (max_pages : option Z) :
  (forall current, urldefrag start_url = Ok current -> current ∈ U) ->
  (forall w' u link target parsed_start current,
      urlparse start_url = Ok parsed_start ->
      link ∈ internal_links (arun w' u).2 ->
      resolve_link (url (arun w' u).2) link = Some (Ok target) ->
      (scheme target.2 = lit "http" \/ scheme target.2 = lit "https") ->
      netloc target.2 = netloc parsed_start ->
      urldefrag target.1 = Ok current ->
      current ∈ U) ->
  exists fuel o,
    crawl_site fuel w start_url output_dir max_pages = Some o.
Proof.
  intros Hstart Hsite.
  destruct (crawl_site_cases 0 w start_url output_dir max_pages)
    as [(e & _ & Hrun) | [(ps & _ & _ & Hrun) | (ps & Hps & Hhost & _)]];
    [by eexists 0%nat, _ | by eexists 0%nat, _ |].
  destruct (run_loop_ends_in_finite_site U (netloc ps) output_dir max_pages
              (fun w' u link target current =>
                 Hsite w' u link target ps current Hps)
              (S (size (U ∖ seen (loop_start w start_url output_dir))))
              (loop_start w start_url output_dir))
    as (fuel & o & Hrun).
  - unfold loop_start. cbn [seen]. intros z Hz. by apply elem_of_empty in Hz.
  - unfold loop_start. cbn [queue].
    intros h current ->%list_elem_of_singleton. apply Hstart.
  - lia.
  - exists fuel, o. unfold crawl_site. rewrite Hps. cbv zeta.
    by destruct (netloc ps).
Qed.

End RunReach.

(** ** The further properties at closed inputs *)

Lemma sanitize_no_forbidden_char_witness :
  45 ∈ _sanitize_filename (lit "a/b") /\ forbidden 45 = false.
Proof.
  assert (45 ∈ _sanitize_filename (lit "a/b")) as Hin.
  { apply list_elem_of_In. vm_compute. auto. }
  split; [exact Hin|].
  exact (sanitize_no_forbidden_char (lit "a/b") 45 Hin).
Defined.

Lemma sanitize_single_spaces_witness :
  _sanitize_filename (lit "a 	 b") = lit "a b" /\
  (32 ∈ _sanitize_filename (lit "a 	 b") -> isspace 32 = true -> 32 = 32).
Proof.
  split; [vm_compute; reflexivity|].
  exact (proj1 (sanitize_single_spaces (lit "a 	 b")) 32).
Defined.

Lemma make_filename_inj_witness :
  make_filename (lit "Home") 2 = make_filename (lit "Home") 2 /\ 2%nat = 2%nat.
Proof.
  split; [reflexivity|].
  exact (make_filename_inj (lit "Home") 2 2 eq_refl).
Defined.

Lemma every_fetch_is_answered_witness :
  (exists st,
      @crawl_site cpython_urllib (site_fetcher linked_site) 10 tt seed_url
        out_dir None = Some (Returned st) /\
      length (fetched (trace st)) =
        (length (written (trace st)) + length (printed (trace st)))%nat) /\
  (exists e st,
      @crawl_site cpython_urllib (site_fetcher broken_site) 10 tt seed_url
        out_dir None = Some (Raised e st) /\
      length (fetched (trace st)) = 1%nat /\
      length (written (trace st)) = 1%nat /\
      (length (fetched (trace st)) =
         (length (written (trace st)) + length (printed (trace st)))%nat
       \/
       (length (fetched (trace st)) =
          (length (written (trace st)) + length (printed (trace st)) + 1)%nat
        /\ exists u, last (trace st) = Some (Fetch u)))).
Proof.
  split.
  - assert (exists st,
               @crawl_site cpython_urllib (site_fetcher linked_site) 10 tt
                 seed_url out_dir None = Some (Returned st))
      as [st Hrun] by (eexists; vm_compute; reflexivity).
    exists st. split; [exact Hrun|].
    exact (@every_fetch_is_answered cpython_urllib (site_fetcher linked_site)
             tt seed_url out_dir None 10 (Returned st) Hrun).
  - destruct (@crawl_site cpython_urllib (site_fetcher broken_site) 10 tt
                seed_url out_dir None) as [[st|e st]|] eqn:Hrun;
      [vm_compute in Hrun; discriminate Hrun | 
      | vm_compute in Hrun; discriminate Hrun].
    exists e, st. split; [reflexivity|].
    split; [vm_compute in Hrun; injection Hrun as <- <-; reflexivity|].
    split; [vm_compute in Hrun; injection Hrun as <- <-; reflexivity|].
    exact (@every_fetch_is_answered cpython_urllib (site_fetcher broken_site)
             tt seed_url out_dir None 10 (Raised e st) Hrun).
Defined.

Lemma directory_created_once_and_first_witness :
  @urlparse cpython_urllib seed_url
  = Ok (mkParseResult (lit "https") (lit "ex.com") (lit "/") [] [] []) /\
  exists o evs,
    @crawl_site cpython_urllib (site_fetcher linked_site) 10 tt seed_url
      out_dir None = Some o /\
    trace (outcome_state o) = Makedirs out_dir :: evs.
Proof.
  assert (@urlparse cpython_urllib seed_url
          = Ok (mkParseResult (lit "https") (lit "ex.com") (lit "/") [] [] []))
    as Hparsed by (vm_compute; reflexivity).
  assert (exists o,
             @crawl_site cpython_urllib (site_fetcher linked_site) 10 tt
               seed_url out_dir None = Some o)
    as [o Hrun] by (eexists; vm_compute; reflexivity).
  split; [exact Hparsed|].
  destruct (@directory_created_once_and_first cpython_urllib
              (site_fetcher linked_site) tt seed_url out_dir None 10 o
              _ Hparsed ltac:(vm_compute; discriminate) Hrun)
    as (evs & Htrace & _).
  exists o, evs. split; [exact Hrun | exact Htrace].
Defined.

Lemma files_land_in_output_dir_witness :
  wants_slash out_dir = true /\
  exists o filename,
    @crawl_site cpython_urllib (site_fetcher linked_site) 10 tt seed_url
      out_dir None = Some o /\
    (lit "out/Seed.md", lit "# seed") ∈ written (trace (outcome_state o)) /\
    lit "out/Seed.md" = out_dir ++ lit "/" ++ filename /\
    (47 ∉ filename).
Proof.
  split; [reflexivity|].
  assert (exists o,
             @crawl_site cpython_urllib (site_fetcher linked_site) 10 tt
               seed_url out_dir None = Some o /\
             (lit "out/Seed.md", lit "# seed")
             ∈ written (trace (outcome_state o)))
    as (o & Hrun & Hin).
  { eexists. split; [vm_compute; reflexivity|].
    apply list_elem_of_In. vm_compute. auto. }
  destruct (@files_land_in_output_dir cpython_urllib (site_fetcher linked_site)
              tt seed_url out_dir None 10 o (lit "out/Seed.md") (lit "# seed")
              Hrun Hin) as (filename & Hpath & Hslash & _).
  exists o, filename. split; [exact Hrun|]. split; [exact Hin|].
  split; [exact Hpath | exact Hslash].
Defined.

Lemma cpython_urldefrag_idem (u v : str) :
  @urldefrag cpython_urllib u = Ok v -> @urldefrag cpython_urllib v = Ok v.
Proof.
  intros Hu. apply (@urldefrag_plain cpython_urllib _).
  by eapply (@urldefrag_no_fragment cpython_urllib _).
Qed.

Lemma crawl_stays_on_site_witness :
  (forall u v, @urldefrag cpython_urllib u = Ok v ->
               @urldefrag cpython_urllib v = Ok v) /\
  exists o,
    @crawl_site cpython_urllib (site_fetcher linked_site) 10 tt seed_url
      out_dir None = Some o /\
    lit "https://ex.com/a" ∈ fetched (trace (outcome_state o)) /\
    (@urldefrag cpython_urllib seed_url = Ok (lit "https://ex.com/a") \/
     (exists parsed parsed_start,
         @urlparse cpython_urllib (lit "https://ex.com/a") = Ok parsed /\
         @urlparse cpython_urllib seed_url = Ok parsed_start /\
         (scheme parsed = lit "http" \/ scheme parsed = lit "https") /\
         netloc parsed = netloc parsed_start)).
Proof.
  split; [exact cpython_urldefrag_idem|].
  assert (exists o,
             @crawl_site cpython_urllib (site_fetcher linked_site) 10 tt
               seed_url out_dir None = Some o /\
             lit "https://ex.com/a" ∈ fetched (trace (outcome_state o)))
    as (o & Hrun & Hin).
  { eexists. split; [vm_compute; reflexivity|].
    apply list_elem_of_In. vm_compute. auto. }
  exists o. split; [exact Hrun|]. split; [exact Hin|].
  exact (@crawl_stays_on_site cpython_urllib (site_fetcher linked_site)
           cpython_urldefrag_idem tt seed_url out_dir None 10 o
           (lit "https://ex.com/a") Hrun Hin).
Defined.

Lemma linked_site_is_finite (w' : unit) (u : str) (link : gmap str str)
    (target : str * ParseResult) (parsed_start : ParseResult)
    (current : str) :
  @urlparse cpython_urllib seed_url = Ok parsed_start ->
  link ∈ @internal_links (@arun (site_fetcher linked_site) w' u).2 ->
  @resolve_link cpython_urllib
    (url (@arun (site_fetcher linked_site) w' u).2) link = Some (Ok target) ->
  (scheme target.2 = lit "http" \/ scheme target.2 = lit "https") ->
  netloc target.2 = netloc parsed_start ->
  @urldefrag cpython_urllib target.1 = Ok current ->
  current
  ∈ (list_to_set [lit "https://ex.com/"; lit "https://ex.com/a"] : gset str).
Proof.
  intros Hstart. vm_compute in Hstart. injection Hstart as <-.
  cbn [arun site_fetcher snd]. unfold linked_site, lookup_page, page.
  repeat case_bool_decide; cbn [fst snd];
    intros Hlink%list_elem_of_In Htarget _ Hhost Hcurrent;
    vm_compute in Hlink;
    repeat (destruct Hlink as [<- | Hlink]); try done;
    vm_compute in Htarget; try done; injection Htarget as <-;
    try (vm_compute in Hhost; discriminate Hhost);
    vm_compute in Hcurrent; injection Hcurrent as <-;
    apply elem_of_list_to_set, list_elem_of_In; vm_compute; auto.
Qed.

Lemma crawl_ends_on_finite_site_witness :
  (forall current,
      @urldefrag cpython_urllib seed_url = Ok current ->
      current
      ∈ (list_to_set [lit "https://ex.com/"; lit "https://ex.com/a"]
         : gset str))
  /\
  exists fuel o,
    @crawl_site cpython_urllib (site_fetcher linked_site) fuel tt seed_url
      out_dir None = Some o.
Proof.
  assert (forall current,
             @urldefrag cpython_urllib seed_url = Ok current ->
             current
             ∈ (list_to_set [lit "https://ex.com/"; lit "https://ex.com/a"]
                : gset str)) as Hstart.
  { intros current Hc. vm_compute in Hc. injection Hc as <-.
    apply elem_of_list_to_set, list_elem_of_In. vm_compute. auto. }
  split; [exact Hstart|].
  exact (@crawl_ends_on_finite_site cpython_urllib
           (site_fetcher linked_site)
           (list_to_set [lit "https://ex.com/"; lit "https://ex.com/a"])
           tt seed_url out_dir None Hstart linked_site_is_finite).
Defined.
